(** * kottaslau: stochastic assembly-line balancing (Kottas-Lau heuristic)

    A shallow embedding of [models/Task.py], [models/Station.py] and
    [models/Instance.py], and the properties of the balancing engine.

    Numbers are IEEE 754 binary64 values, as Python's [float]: Rocq's
    primitive floats.  The two scipy functions [norm.cdf] and [norm.ppf] are
    not part of the repository; the development is parametric in them.
    Python iterates a [set] in an order fixed by hashes and insertion history;
    the development is parametric in that order too ([set_order]). *)

From Stdlib Require Import Floats ZArith List String Bool Lia Permutation Arith.
From Stdlib Require Import DecimalString DecimalNat Uint63.
Import ListNotations.

Local Open Scope nat_scope.
Local Open Scope list_scope.

(** ** Exceptions and results *)

Inductive exn : Type :=
| ZeroDivisionError
| ValueError
| KeyError
| TypeError
| IndexError.

Inductive res (A : Type) : Type :=
| Ok (a : A)
| Raise (e : exn).

Arguments Ok {A} a.
Arguments Raise {A} e.

Definition bind {A B : Type} (r : res A) (k : A -> res B) : res B :=
  match r with
  | Ok a => k a
  | Raise e => Raise e
  end.

Notation "x <- r ;; k" := (bind r (fun x => k))
  (at level 61, r at next level, right associativity).

(** A computation that loops carries fuel: [None] is fuel exhausted. *)
Definition fbind {A B : Type} (r : option (res A)) (k : A -> option (res B))
  : option (res B) :=
  match r with
  | None => None
  | Some (Raise e) => Some (Raise e)
  | Some (Ok a) => k a
  end.

Notation "x <~ r ;; k" := (fbind r (fun x => k))
  (at level 61, r at next level, right associativity).

Fixpoint mapM {A B : Type} (f : A -> res B) (l : list A) : res (list B) :=
  match l with
  | [] => Ok []
  | a :: l' => b <- f a ;; bs <- mapM f l' ;; Ok (b :: bs)
  end.

(** ** Python floats *)

Module Py.

  (** [x / y]: raises when the divisor compares equal to zero. *)
Definition div (x y : float) : res float :=
    if (y =? 0)%float then Raise ZeroDivisionError else Ok (x / y)%float.

  (** [math.sqrt]: raises on a negative argument ([-0.0] and [nan] pass). *)
Definition sqrt (x : float) : res float :=
    if (x <? 0)%float then Raise ValueError else Ok (PrimFloat.sqrt x).

  (** [float(n)] for a length. *)
Definition of_nat (n : nat) : float :=
    PrimFloat.of_uint63 (Uint63.of_Z (Z.of_nat n)).

  (** [str(n)] and [int(s)] for a station counter. *)
Definition str (n : nat) : string := NilEmpty.string_of_uint (Nat.to_uint n).

Definition int (s : string) : option nat :=
    option_map Nat.of_uint (NilEmpty.uint_of_string s).

  (** An attribute that [Task.__init__] left at [None] cannot be used as a
      number. *)
Definition attr {A : Type} (o : option A) : res A :=
    match o with
    | Some a => Ok a
    | None => Raise TypeError
    end.

  (** [reduce(lambda x, y: x+y, l)] on a non-empty list. *)
Definition reduce_add (l : list float) : res float :=
    match l with
    | [] => Raise TypeError
    | x :: l' => Ok (fold_left PrimFloat.add l' x)
    end.

End Py.

(** ** Dictionaries (insertion ordered) and sets *)

Definition dict (V : Type) : Type := list (string * V).

Definition keys {V : Type} (d : dict V) : list string := map fst d.
Definition values {V : Type} (d : dict V) : list V := map snd d.

Fixpoint dict_get {V : Type} (d : dict V) (k : string) : option V :=
  match d with
  | [] => None
  | (k', v) :: d' => if String.eqb k k' then Some v else dict_get d' k
  end.

(** [d[k] = v]: an existing key keeps its position, a new one is appended. *)
Fixpoint dict_set {V : Type} (d : dict V) (k : string) (v : V) : dict V :=
  match d with
  | [] => [(k, v)]
  | (k', v') :: d' =>
      if String.eqb k k' then (k', v) :: d' else (k', v') :: dict_set d' k v
  end.

(** [d[k]] *)
Definition dict_item {V : Type} (d : dict V) (k : string) : res V :=
  match dict_get d k with
  | Some v => Ok v
  | None => Raise KeyError
  end.

Definition set_mem (x : string) (s : list string) : bool :=
  existsb (String.eqb x) s.

Definition set_add (x : string) (s : list string) : list string :=
  if set_mem x s then s else s ++ [x].

Definition set_update (s l : list string) : list string :=
  fold_left (fun acc x => set_add x acc) l s.

Definition set_difference (s1 s2 : list string) : list string :=
  filter (fun x => negb (set_mem x s2)) s1.

Definition set_issubset (s1 s2 : list string) : bool :=
  forallb (fun x => set_mem x s2) s1.

(** ** [sorted] *)

(** A stable sort that compares keys with [<] only.  On keys that [<] orders
    totally its result is the one of Python's [sorted]. *)
Section Sorted.
Context {A K : Type} (lt : K -> K -> bool) (key : A -> K).

Fixpoint insert (x : A) (l : list A) : list A :=
    match l with
    | [] => [x]
    | y :: l' => if lt (key y) (key x) then y :: insert x l' else x :: y :: l'
    end.

Fixpoint sorted (l : list A) : list A :=
    match l with
    | [] => []
    | x :: l' => insert x (sorted l')
    end.

  (** [sorted(l, key=..., reverse=True)]: the list is reversed, sorted and
      reversed again, which keeps equal keys in their original order. *)
Definition sorted_reverse (l : list A) : list A := rev (sorted (rev l)).

End Sorted.

(** [l[0]] *)
Definition item0 {A : Type} (l : list A) : res A :=
  match l with
  | [] => Raise IndexError
  | x :: _ => Ok x
  end.

(** ** models/Task.py, models/Station.py *)

Module Task.
Record t : Type := Build {
    task_id : string;
    m : float;
    s : float;
    predecessor_set : list string;
    out_line_cost : float;
    out_completion_cost : option float;
    in_line_cost : option float;
    z_limit : option float;
    n_successors : option nat
  }.

  (** [Task.__init__] *)
Definition init (task_id : string) (m s out_line_cost : float)
    (predecessor_set : list string) : t :=
    Build task_id m s predecessor_set out_line_cost None None None None.

Definition set_out_completion_cost (x : t) (v : float) : t :=
    Build (task_id x) (m x) (s x) (predecessor_set x) (out_line_cost x)
      (Some v) (in_line_cost x) (z_limit x) (n_successors x).
Definition set_in_line_cost (x : t) (v : float) : t :=
    Build (task_id x) (m x) (s x) (predecessor_set x) (out_line_cost x)
      (out_completion_cost x) (Some v) (z_limit x) (n_successors x).
Definition set_z_limit (x : t) (v : float) : t :=
    Build (task_id x) (m x) (s x) (predecessor_set x) (out_line_cost x)
      (out_completion_cost x) (in_line_cost x) (Some v) (n_successors x).
Definition set_n_successors (x : t) (v : nat) : t :=
    Build (task_id x) (m x) (s x) (predecessor_set x) (out_line_cost x)
      (out_completion_cost x) (in_line_cost x) (z_limit x) (Some v).
End Task.

Module Station.
Record t : Type := Build {
    station_id : string;
    out_line_cost : dict float
  }.

  (** [Station.__init__] *)
Definition init (station_id : string) : t := Build station_id [].
End Station.

(** ** models/Instance.py *)

Record Instance : Type := {
  instance_id : string;
  task_list : dict Task.t;
  station_list : dict Station.t;
  T : float;
  c : float;
  total_unit_cost : float
}.

Definition with_task_list (inst : Instance) (tl : dict Task.t) : Instance :=
  {| instance_id := instance_id inst; task_list := tl;
     station_list := station_list inst; T := T inst; c := c inst;
     total_unit_cost := total_unit_cost inst |}.

Definition with_station_list (inst : Instance) (sl : dict Station.t)
  : Instance :=
  {| instance_id := instance_id inst; task_list := task_list inst;
     station_list := sl; T := T inst; c := c inst;
     total_unit_cost := total_unit_cost inst |}.

Definition with_total_unit_cost (inst : Instance) (v : float) : Instance :=
  {| instance_id := instance_id inst; task_list := task_list inst;
     station_list := station_list inst; T := T inst; c := c inst;
     total_unit_cost := v |}.

Inductive status : Type := safe | desirable | critical.

Definition status_eqb (a b : status) : bool :=
  match a, b with
  | safe, safe | desirable, desirable | critical, critical => true
  | _, _ => false
  end.

(** One entry of [pot_tasks]:
    [[task_id, status, z, out_compl_cost, expected_cost_out_line,
    n_successors]], indexed as in the source. *)
Record Row : Type := {
  x0 : string;
  x1 : status;
  x2 : float;
  x3 : float;
  x4 : float;
  x5 : nat
}.

(** What one pass of the body of the station loop does. *)
Inductive step : Type :=
| Continue (inst : Instance)
| Break.

Section Algorithm.

  (** [scipy.stats.norm.cdf], [scipy.stats.norm.ppf] *)
Variables norm_cdf norm_ppf : float -> float.

  (** The order in which a set holding the given elements is iterated. *)
Variable set_order : list string -> list string.

Definition successors_of (inst : Instance) (task_id : string)
    : list string :=
    fold_left
      (fun successors kt =>
         if set_mem task_id (Task.predecessor_set (snd kt))
         then set_add (fst kt) successors else successors)
      (task_list inst) [].

  (** [visited_tasks_id] is one set shared by all the recursive calls; the
      set iterated by the [for] is computed once, before the first of them.
      [fuel] bounds the depth of the recursion. *)
Fixpoint deep_first_search (fuel : nat) (inst : Instance)
    (start_task_id : string) (visited_tasks_id : list string)
    : option (list string) :=
    match fuel with
    | O => None
    | S fuel' =>
        let visited := set_add start_task_id visited_tasks_id in
        fold_left
          (fun acc task_id =>
             match acc with
             | None => None
             | Some v => deep_first_search fuel' inst task_id v
             end)
          (set_order
             (set_difference (successors_of inst start_task_id) visited))
          (Some visited)
    end.

Definition assigned_tasks (inst : Instance) : list string :=
    fold_left
      (fun ass_tasks station =>
         let tasks_id := keys (Station.out_line_cost station) in
         if List.length tasks_id =? 0 then ass_tasks
         else set_update ass_tasks tasks_id)
      (values (station_list inst)) [].

Definition task_out_line_completion_cost (fuel : nat) (inst : Instance)
    (task_id : string) : option (res float) :=
    match deep_first_search fuel inst task_id [] with
    | None => None
    | Some visited =>
        Some
          (fold_left
             (fun cost current_task_id =>
                cost' <- cost ;;
                t <- dict_item (task_list inst) current_task_id ;;
                Ok (cost' + Task.out_line_cost t)%float)
             (set_order visited) (Ok 0%float))
    end.

Definition task_in_line_completion_cost (inst : Instance)
    (task_id : string) : res float :=
    t <- dict_item (task_list inst) task_id ;;
    Ok (Task.m t * c inst)%float.

Definition compute_z_limit (inst : Instance) (task_id : string)
    : res float :=
    t <- dict_item (task_list inst) task_id ;;
    ilc <- Py.attr (Task.in_line_cost t) ;;
    t' <- dict_item (task_list inst) task_id ;;
    occ <- Py.attr (Task.out_completion_cost t') ;;
    q <- Py.div ilc occ ;;
    Ok (norm_ppf (1 - q)%float).

  (** The body of the loop of [fill_task_properties] for one [key]; the task
      object is updated in place, attribute by attribute. *)
Definition update_task (inst : Instance) (key : string)
    (f : Task.t -> Task.t) : Instance :=
    match dict_get (task_list inst) key with
    | Some t => with_task_list inst (dict_set (task_list inst) key (f t))
    | None => inst
    end.

Definition fill_task (fuel : nat) (inst : Instance) (key : string)
    : option (res Instance) :=
    occ <~ task_out_line_completion_cost fuel inst key ;;
    let inst1 :=
      update_task inst key (fun t => Task.set_out_completion_cost t occ) in
    ilc <~ Some (task_in_line_completion_cost inst1 key) ;;
    let inst2 :=
      update_task inst1 key (fun t => Task.set_in_line_cost t ilc) in
    zl <~ Some (compute_z_limit inst2 key) ;;
    let inst3 := update_task inst2 key (fun t => Task.set_z_limit t zl) in
    Some (Ok (update_task inst3 key
                (fun t => Task.set_n_successors t
                            (List.length (successors_of inst3 key))))).

Definition fill_task_properties (fuel : nat) (inst : Instance)
    : option (res Instance) :=
    fold_left
      (fun acc key => inst' <~ acc ;; fill_task fuel inst' key)
      (keys (task_list inst)) (Some (Ok inst)).

  (** [Instance.__init__] *)
Definition init (fuel : nat) (instance_id : string)
    (task_list : dict Task.t) (q c : float) : option (res Instance) :=
    T <~ Some (Py.div 1 q) ;;
    fill_task_properties fuel
      {| instance_id := instance_id; task_list := task_list;
         station_list := []; T := T; c := c; total_unit_cost := 0%float |}.

Definition potential_tasks (inst : Instance) : list string :=
    let ass_tasks := assigned_tasks inst in
    let missing_tasks := set_difference (keys (task_list inst)) ass_tasks in
    fold_left
      (fun pot_tasks task_id =>
         match dict_get (task_list inst) task_id with
         | Some t =>
             if (List.length (Task.predecessor_set t) =? 0)
                || set_issubset (Task.predecessor_set t) ass_tasks
             then set_add task_id pot_tasks else pot_tasks
         | None => pot_tasks
         end)
      (set_order missing_tasks) [].

Definition compute_status (inst : Instance) (task_id : string)
    (station : Station.t) : res (status * float * float * float * nat) :=
    m_list <- mapM (fun t => x <- dict_item (task_list inst) t ;;
                             Ok (Task.m x))
                   (keys (Station.out_line_cost station)) ;;
    task <- dict_item (task_list inst) task_id ;;
    m_sum <- (if 0 <? List.length m_list
              then r <- Py.reduce_add m_list ;; Ok (r + Task.m task)%float
              else Ok (Task.m task)) ;;
    s_list <- mapM (fun t => x <- dict_item (task_list inst) t ;;
                             Ok (Task.s x))
                   (keys (Station.out_line_cost station)) ;;
    s_sum <- (if 0 <? List.length s_list
              then r <- Py.reduce_add s_list ;; Ok (r + Task.s task)%float
              else Ok (Task.s task)) ;;
    root <- Py.sqrt s_sum ;;
    z <- Py.div (T inst - m_sum)%float root ;;
    out_compl_cost <- Py.attr (Task.out_completion_cost task) ;;
    n_successors <- Py.attr (Task.n_successors task) ;;
    let expected_cost_out_line := ((1 - norm_cdf z) * out_compl_cost)%float in
    stat <- (if (0x1.499999999999ap+1 <? z)%float  (* z > 2.575 *)
             then Ok safe
             else zl <- Py.attr (Task.z_limit task) ;;
                  if (zl <? z)%float then Ok desirable else Ok critical) ;;
    Ok (stat, z, out_compl_cost, expected_cost_out_line, n_successors).

  (** Lines 248-251: the list [pot_tasks] of one pass. *)
Definition classify (inst : Instance) (current_station : string)
    : res (list Row) :=
    mapM
      (fun task_id =>
         station <- dict_item (station_list inst) current_station ;;
         r <- compute_status inst task_id station ;;
         let '(stat, z, out_compl_cost, expected_cost_out_line,
               n_successors) := r in
         Ok {| x0 := task_id; x1 := stat; x2 := z; x3 := out_compl_cost;
               x4 := expected_cost_out_line; x5 := n_successors |})
      (set_order (potential_tasks inst)).

  (** Lines 255-267: the task selected among [pot_tasks], [None] for the
      [break] that opens a new station. *)
Definition select_task (inst : Instance) (current_station : string)
    (pot_tasks : list Row) : res (option Row) :=
    let critical_tasks :=
      filter (fun x => status_eqb (x1 x) critical) pot_tasks in
    let safe_tasks := filter (fun x => status_eqb (x1 x) safe) pot_tasks in
    let desirable_tasks :=
      filter (fun x => status_eqb (x1 x) desirable) pot_tasks in
    first <- (if 0 <? List.length critical_tasks
              then station <- dict_item (station_list inst) current_station ;;
                   Ok (List.length (keys (Station.out_line_cost station)) =? 0)
              else Ok false) ;;
    if first : bool
    then x <- item0 (sorted_reverse Nat.ltb x5 critical_tasks) ;; Ok (Some x)
    else if 0 <? List.length safe_tasks
    then x <- item0 (sorted_reverse PrimFloat.ltb x3 safe_tasks) ;;
         Ok (Some x)
    else if 0 <? List.length desirable_tasks
    then x <- item0 (sorted PrimFloat.ltb x3 desirable_tasks) ;; Ok (Some x)
    else Ok None.

  (** Line 269 *)
Definition assign (inst : Instance) (current_station : string)
    (selected_task : Row) : res Instance :=
    station <- dict_item (station_list inst) current_station ;;
    Ok (with_station_list inst
          (dict_set (station_list inst) current_station
             (Station.Build (Station.station_id station)
                (dict_set (Station.out_line_cost station)
                   (x0 selected_task) (x4 selected_task))))).

  (** One pass of the body of [while True]. *)
Definition station_step (inst : Instance) (current_station : string)
    : res step :=
    pot_tasks <- classify inst current_station ;;
    if List.length (potential_tasks inst) =? 0 then Ok Break
    else
      sel <- select_task inst current_station pot_tasks ;;
      match sel with
      | Some selected_task =>
          inst' <- assign inst current_station selected_task ;;
          Ok (Continue inst')
      | None => Ok Break
      end.

  (** The station loop; the second component counts the passes of its
      body. *)
Fixpoint station_loop (fuel : nat) (inst : Instance)
    (current_station : string) : option (res (Instance * nat)) :=
    match fuel with
    | O => None
    | S fuel' =>
        match station_step inst current_station with
        | Raise e => Some (Raise e)
        | Ok Break => Some (Ok (inst, 1))
        | Ok (Continue inst') =>
            r <~ station_loop fuel' inst' current_station ;;
            Some (Ok (fst r, S (snd r)))
        end
    end.

  (** The tasks loop. *)
Fixpoint tasks_loop (fuel : nat) (inst : Instance) (n_station : nat)
    : option (res (Instance * nat)) :=
    match fuel with
    | O => None
    | S fuel' =>
        if 0 <? List.length (potential_tasks inst) then
          let n_station := n_station + 1 in
          let current_station := Py.str n_station in
          let inst1 :=
            with_station_list inst
              (dict_set (station_list inst) current_station
                 (Station.init current_station)) in
          r1 <~ station_loop fuel' inst1 current_station ;;
          r2 <~ tasks_loop fuel' (fst r1) n_station ;;
          Some (Ok (fst r2, snd r1 + snd r2))
        else Some (Ok (inst, 0))
    end.

  (** Lines 271-275 *)
Definition compute_total_unit_cost (inst : Instance) : Instance :=
    let cost :=
      fold_left
        (fun acc station =>
           fold_left PrimFloat.add (values (Station.out_line_cost station))
             acc)
        (values (station_list inst)) (total_unit_cost inst) in
    with_total_unit_cost inst
      (cost + T inst * c inst * Py.of_nat (List.length (station_list inst)))%float.

  (** [execute_algorithm], with the number of passes of the station loop. *)
Definition execute_algorithm_passes (fuel : nat) (inst : Instance)
    : option (res (Instance * nat)) :=
    r <~ tasks_loop fuel inst 0 ;;
    Some (Ok (compute_total_unit_cost (fst r), snd r)).

Definition execute_algorithm (fuel : nat) (inst : Instance)
    : option (res Instance) :=
    r <~ execute_algorithm_passes fuel inst ;; Some (Ok (fst r)).

End Algorithm.

(** ** Views of an instance that the statements use *)

(** The ids of the tasks assigned to the stations of [sl]: station by
    station, each station in the order of assignment. *)
Definition tasks_of (sl : dict Station.t) : list string :=
  flat_map (fun st => keys (Station.out_line_cost st)) (values sl).

Definition station_tasks (inst : Instance) : list string :=
  tasks_of (station_list inst).

(** The expected out-of-line costs recorded in the assignment maps, in the
    same order. *)
Definition recorded_costs (inst : Instance) : list float :=
  flat_map (fun st => values (Station.out_line_cost st))
    (values (station_list inst)).

(** [task_id] is available once the tasks of [assigned] are placed. *)
Definition available (inst : Instance) (assigned : list string)
  (task_id : string) : bool :=
  match dict_get (task_list inst) task_id with
  | Some t =>
      (List.length (Task.predecessor_set t) =? 0)
      || set_issubset (Task.predecessor_set t) assigned
  | None => false
  end.

(** The precedence graph has no cycle: the tasks can be ranked so that a
    predecessor ranks below its successors. *)
Definition acyclic (inst : Instance) : Prop :=
  exists rank : string -> nat,
    forall k t p,
      In (k, t) (task_list inst) -> In p (Task.predecessor_set t) ->
      rank p < rank k.

(** Every predecessor that a task names is a task of the instance. *)
Definition predecessors_present (inst : Instance) : Prop :=
  forall k t p,
    In (k, t) (task_list inst) -> In p (Task.predecessor_set t) ->
    In p (keys (task_list inst)).

(** The instance has the fields that the balancing loops leave alone in
    common with [inst0]. *)
Definition same_problem (inst0 inst : Instance) : Prop :=
  instance_id inst = instance_id inst0 /\ task_list inst = task_list inst0 /\
  T inst = T inst0 /\ c inst = c inst0 /\
  total_unit_cost inst = total_unit_cost inst0.

(** The state of a run that started without stations, after [n] stations
    were opened: the stations are "1" .. "n" in this order, no task sits in
    two places, and the predecessors of a placed task sit in the same or an
    earlier station. *)
Record Inv (inst : Instance) (n : nat) : Prop := {
  inv_keys : keys (station_list inst) = map Py.str (seq 1 n);
  inv_nodup : NoDup (station_tasks inst);
  inv_incl : incl (station_tasks inst) (keys (task_list inst));
  inv_prec :
    forall sl1 k st sl2 t x p,
      station_list inst = sl1 ++ (k, st) :: sl2 ->
      In t (keys (Station.out_line_cost st)) ->
      dict_get (task_list inst) t = Some x ->
      In p (Task.predecessor_set x) ->
      In p (tasks_of (sl1 ++ [(k, st)]))
}.

(** No station is empty. *)
Definition stations_nonempty (inst : Instance) : Prop :=
  forall k st, In (k, st) (station_list inst) ->
               Station.out_line_cost st <> [].

(** The number of tasks still to place. *)
Definition remaining (inst : Instance) : nat :=
  List.length (task_list inst) - List.length (station_tasks inst).

(** The sum that the classifier forms: the values of the station's tasks
    added from the left in the order of assignment, then the candidate's. *)
Definition sum_with (xs : list float) (x : float) : float :=
  match xs with
  | [] => x
  | y :: ys => (fold_left PrimFloat.add ys y + x)%float
  end.

(** Two task tables that differ in the derived attributes only. *)
Definition same_raw (tl tl' : dict Task.t) : Prop :=
  Forall2
    (fun a b =>
       fst a = fst b /\ Task.m (snd a) = Task.m (snd b)
       /\ Task.s (snd a) = Task.s (snd b)
       /\ Task.predecessor_set (snd a) = Task.predecessor_set (snd b)
       /\ Task.out_line_cost (snd a) = Task.out_line_cost (snd b))
    tl tl'.

(** The instance that [Instance.__init__] hands to [fill_task_properties]. *)
Definition blank (instance_id : string) (task_list : dict Task.t)
  (T c : float) : Instance :=
  {| instance_id := instance_id; task_list := task_list;
     station_list := []; T := T; c := c; total_unit_cost := 0%float |}.

(** ** Data for the examples *)

(** A coarse stand-in for scipy's [norm.cdf], used only to run the model on
    the examples below: the step function through the values of the standard
    normal distribution function at the integers -3 .. 4 (to double
    precision), 0 below -3 and 1 from 8.5 on (where the binary64 value of
    the function is 1). *)
Definition cdf_table (z : float) : float :=
  if (z <? -3)%float then 0%float
  else if (z <? -2)%float then 0x1.61de1f985b5dcp-10%float
  else if (z <? -1)%float then 0x1.74bcf82c9d863p-6%float
  else if (z <? 0)%float then 0x1.44ed0bb7cb20cp-3%float
  else if (z <? 1)%float then 0.5%float
  else if (z <? 2)%float then 0x1.aec4bd120d37dp-1%float
  else if (z <? 3)%float then 0x1.f45a183e9b13dp-1%float
  else if (z <? 4)%float then 0x1.ff4f10f033d25p-1%float
  else if (z <? 8.5)%float then 0x1.fffbd94a1aad4p-1%float
  else if (8.5 <=? z)%float then 1%float
  else z.

(** The matching stand-in for [norm.ppf]: the largest of the arguments
    -3 .. 3 of the table whose value does not exceed [p]. *)
Definition ppf_table (p : float) : float :=
  if (p <? 0x1.61de1f985b5dcp-10)%float then (-4)%float
  else if (p <? 0x1.74bcf82c9d863p-6)%float then (-3)%float
  else if (p <? 0x1.44ed0bb7cb20cp-3)%float then (-2)%float
  else if (p <? 0.5)%float then (-1)%float
  else if (p <? 0x1.aec4bd120d37dp-1)%float then 0%float
  else if (p <? 0x1.f45a183e9b13dp-1)%float then 1%float
  else if (p <? 0x1.ff4f10f033d25p-1)%float then 2%float
  else if (p <? 1)%float then 3%float
  else if (1 <=? p)%float then infinity
  else p.

(** A set iterated in the order of insertion. *)
Definition insertion_order (l : list string) : list string := l.

(** Three tasks in a chain A -> B -> C, each with mean time 1, variance
    [s] and out-of-line cost 5. *)
Definition chain_tasks (s : float) : dict Task.t :=
  [("A"%string, Task.init "A" 1 s 5 []);
   ("B"%string, Task.init "B" 1 s 5 ["A"%string]);
   ("C"%string, Task.init "C" 1 s 5 ["B"%string])].

(** One task. *)
Definition single_task (out_line_cost : float) : dict Task.t :=
  [("A"%string, Task.init "A" 1 0.5 out_line_cost [])].

(** Two independent tasks that are both safe in an empty station when the
    cycle time is 128: z = 127 for A, z = 3 for B. *)
Definition two_safe_tasks : dict Task.t :=
  [("A"%string, Task.init "A" 1 1 10 []);
   ("B"%string, Task.init "B" 125 1 5 [])].

(** Two independent tasks that are both desirable in an empty station when
    the cycle time is 8: z = 1 for A, z = 2 for B. *)
Definition two_desirable_tasks : dict Task.t :=
  [("A"%string, Task.init "A" 7 1 4 []);
   ("B"%string, Task.init "B" 6 1 8 [])].

(** The instance of a constructor call that returned, the blank instance
    otherwise. *)
Definition built (r : option (res Instance)) : Instance :=
  match r with
  | Some (Ok inst) => inst
  | _ => blank "" [] 0 0
  end.

(** The instance after line 244 has opened the station [k]. *)
Definition open_station (inst : Instance) (k : string) : Instance :=
  with_station_list inst
    (dict_set (station_list inst) k (Station.init k)).

Definition chain_instance (s : float) : Instance :=
  built (init ppf_table insertion_order 7 "chain" (chain_tasks s) 1 1).

Definition single_instance : Instance :=
  built (init ppf_table insertion_order 3 "single" (single_task 5) 1 1).

Definition two_safe_instance : Instance :=
  built (init ppf_table insertion_order 5 "two-safe" two_safe_tasks
           0x1p-7 0x1p-6).

Definition two_desirable_instance : Instance :=
  built (init ppf_table insertion_order 5 "two-desirable"
           two_desirable_tasks 0.125 0.25).

(** The example instances with station "1" open and empty. *)
Definition two_safe_open : Instance := open_station two_safe_instance "1".

Definition two_desirable_open : Instance :=
  open_station two_desirable_instance "1".

(** The results of the runs on the examples. *)
Definition chain_result : Instance :=
  built (execute_algorithm cdf_table insertion_order 5 (chain_instance 0.5)).

Definition single_result : Instance :=
  built (execute_algorithm cdf_table insertion_order 3 single_instance).

(** The rank of the tasks of the chain. *)
Definition chain_rank (k : string) : nat :=
  if String.eqb k "A" then 0 else if String.eqb k "B" then 1 else 2.

(** The rows of a classification that returned. *)
Definition rows_of (r : res (list Row)) : list Row :=
  match r with
  | Ok rows => rows
  | Raise _ => []
  end.

Definition two_safe_rows : list Row :=
  rows_of (classify cdf_table insertion_order two_safe_open "1").

Definition two_desirable_rows : list Row :=
  rows_of (classify cdf_table insertion_order two_desirable_open "1").

(** A station that holds task A. *)
Definition station_with_A : Station.t :=
  Station.Build "1" [("A"%string, 0.5%float)].

(** ** Proof automation *)

(** Case analysis on a comparison of two binary64 values by sign, exponent
    and mantissa. *)
Ltac sf_cases :=
  repeat match goal with
         | s : bool |- _ => destruct s
         end;
  simpl; try congruence;
  repeat match goal with
         | |- context [Z.compare ?a ?b] =>
             destruct (Z.compare_spec a b); subst
         | H : context [Z.compare ?a ?b] |- _ =>
             destruct (Z.compare_spec a b); subst
         end;
  simpl in *; try congruence; try lia;
  repeat match goal with
         | |- context [PosDef.Pos.compare_cont Eq ?a ?b] =>
             change (PosDef.Pos.compare_cont Eq a b) with (Pos.compare a b);
             destruct (Pos.compare_spec a b); subst
         | H : context [PosDef.Pos.compare_cont Eq ?a ?b] |- _ =>
             change (PosDef.Pos.compare_cont Eq a b) with (Pos.compare a b)
               in H;
             destruct (Pos.compare_spec a b); subst
         end;
  simpl in *; try congruence; try lia.

(** Inversion of one step of a computation that returned. *)
Ltac inv_bind H :=
  match type of H with
  | bind ?r _ = Ok _ =>
      let E := fresh "E" in
      destruct r eqn:E; cbn [bind] in H; [| discriminate H]
  end.

(** ** The precedence graph *)

(** [y] is a successor of [x]: a task whose predecessor set holds [x]. *)
Definition is_successor (inst : Instance) (x y : string) : Prop :=
  exists t, In (y, t) (task_list inst) /\ In x (Task.predecessor_set t).

(** [y] is [x] or can be reached from [x] along successor edges. *)
Inductive reachable (inst : Instance) (x : string) : string -> Prop :=
| reach_refl : reachable inst x x
| reach_step (y z : string) :
    reachable inst x y -> is_successor inst y z -> reachable inst x z.

(** ** Derived attributes *)

(** The task [t] with the derived attributes that [fill_task_properties]
    gives it from the out-completion cost [occ], the station cost [c] and
    the number [ns] of successors. *)
Definition filled (norm_ppf : float -> float) (t : Task.t) (occ c : float)
  (ns : nat) : Task.t :=
  Task.Build (Task.task_id t) (Task.m t) (Task.s t) (Task.predecessor_set t)
    (Task.out_line_cost t) (Some occ) (Some (Task.m t * c)%float)
    (Some (norm_ppf (1 - Task.m t * c / occ)%float)) (Some ns).

(** The derived attributes of the task [t] kept under [k] are the ones
    that [fill_task_properties] computes on [inst], and its out-completion
    cost is not zero. *)
Definition derived (norm_ppf : float -> float)
  (set_order : list string -> list string) (fuel : nat) (inst : Instance)
  (k : string) (t : Task.t) : Prop :=
  exists occ,
    task_out_line_completion_cost set_order fuel inst k = Some (Ok occ)
    /\ (occ =? 0)%float = false
    /\ Task.out_completion_cost t = Some occ
    /\ Task.in_line_cost t = Some (Task.m t * c inst)%float
    /\ Task.z_limit t
       = Some (norm_ppf (1 - Task.m t * c inst / occ)%float)
    /\ Task.n_successors t = Some (List.length (successors_of inst k)).

(** The tasks that can ever be placed: tasks of the table all of whose
    predecessors can be placed (so no missing task and no cycle lies below
    them in the precedence graph). *)
Inductive placeable (inst : Instance) : string -> Prop :=
| placeable_intro (t : string) (x : Task.t) :
    dict_get (task_list inst) t = Some x ->
    (forall p, In p (Task.predecessor_set x) -> placeable inst p) ->
    placeable inst t.

(** Every task has the derived attributes that the classifier reads. *)
Definition populated (inst : Instance) : Prop :=
  forall k t,
    dict_get (task_list inst) k = Some t ->
    exists occ zl ns,
      Task.out_completion_cost t = Some occ /\ Task.z_limit t = Some zl
      /\ Task.n_successors t = Some ns.

(** The two errors of the arithmetic of [compute_status]. *)
Definition arithmetic_error (e : exn) : Prop :=
  e = ZeroDivisionError \/ e = ValueError.

(** ** Further data for the examples *)

(** The chain with station "1" open and empty, and the state after its
    first pass. *)
Definition chain_open : Instance := open_station (chain_instance 0.5) "1".

Definition chain_assigned : Instance :=
  match station_step cdf_table insertion_order chain_open "1" with
  | Ok (Continue inst) => inst
  | _ => chain_open
  end.

Definition chain_assigned_rows : list Row :=
  rows_of (classify cdf_table insertion_order chain_assigned "1").

(** The station that [chain_assigned] holds under the key "1". *)
Definition chain_station : Station.t :=
  match dict_get (station_list chain_assigned) "1" with
  | Some st => st
  | None => Station.init "1"
  end.

(** Task B of the chain, with its derived attributes. *)
Definition chain_task_B : Task.t :=
  match dict_get (task_list (chain_instance 0.5)) "B" with
  | Some t => t
  | None => Task.init "B" 0 0 0 []
  end.

(** One task with a negative variance. *)
Definition negative_instance : Instance :=
  built (init ppf_table insertion_order 3 "negative"
           [("A"%string, Task.init "A" 1 (-1) 5 [])] 1 1).

Definition negative_task : Task.t :=
  match dict_get (task_list negative_instance) "A" with
  | Some t => t
  | None => Task.init "A" 0 0 0 []
  end.

(** Six tasks, four of them without predecessors: A, B and E are critical
    for an empty station when the cycle time is 8 (z = 0), S is safe
    (z = 7); C and D follow B, so B has two direct successors and A, E and
    S have none. *)
Definition fork_tasks : dict Task.t :=
  [("A"%string, Task.init "A" 8 1 4 []);
   ("B"%string, Task.init "B" 8 1 4 []);
   ("C"%string, Task.init "C" 1 1 4 ["B"%string]);
   ("D"%string, Task.init "D" 1 1 4 ["B"%string]);
   ("E"%string, Task.init "E" 8 1 4 []);
   ("S"%string, Task.init "S" 1 1 4 [])].

Definition fork_instance : Instance :=
  built (init ppf_table insertion_order 13 "fork" fork_tasks 0.125 0.25).

Definition fork_open : Instance := open_station fork_instance "1".

Definition fork_rows : list Row :=
  rows_of (classify cdf_table insertion_order fork_open "1").
(** * Properties *)

(** ** Dictionaries and sets *)

Lemma set_mem_In (x : string) (s : list string) :
  set_mem x s = true <-> In x s.
Proof.
  unfold set_mem. rewrite existsb_exists. split.
  - intros [y [Hy Heq]]. apply String.eqb_eq in Heq. now subst.
  - intros H. exists x. split; [assumption | apply String.eqb_refl].
Qed.

Lemma set_mem_false (x : string) (s : list string) :
  set_mem x s = false <-> ~ In x s.
Proof.
  rewrite <- set_mem_In. destruct (set_mem x s); split; congruence.
Qed.

Lemma set_add_In (x y : string) (s : list string) :
  In y (set_add x s) <-> y = x \/ In y s.
Proof.
  unfold set_add. destruct (set_mem x s) eqn:E.
  - apply set_mem_In in E. split; [now right | intros [-> | H]; assumption].
  - rewrite in_app_iff. simpl. intuition.
Qed.

Lemma set_add_NoDup (x : string) (s : list string) :
  NoDup s -> NoDup (set_add x s).
Proof.
  intros H. unfold set_add. destruct (set_mem x s) eqn:E; [assumption |].
  apply set_mem_false in E.
  apply NoDup_app; [assumption | repeat constructor; intros [] | ].
  intros a Ha [<- | []]. contradiction.
Qed.

Lemma set_update_In (s l : list string) (y : string) :
  In y (set_update s l) <-> In y s \/ In y l.
Proof.
  unfold set_update. revert s. induction l as [| x l IH]; intros s; simpl.
  - intuition.
  - rewrite IH, set_add_In. intuition.
Qed.

Lemma set_difference_In (s1 s2 : list string) (x : string) :
  In x (set_difference s1 s2) <-> In x s1 /\ ~ In x s2.
Proof.
  unfold set_difference. rewrite filter_In, negb_true_iff, set_mem_false.
  reflexivity.
Qed.

Lemma set_issubset_spec (s1 s2 : list string) :
  set_issubset s1 s2 = true <-> (forall x, In x s1 -> In x s2).
Proof.
  unfold set_issubset. rewrite forallb_forall.
  split; intros H x Hx; specialize (H x Hx); now apply set_mem_In.
Qed.

Lemma dict_get_None {V : Type} (d : dict V) (k : string) :
  dict_get d k = None <-> ~ In k (keys d).
Proof.
  induction d as [| [k' v] d IH]; simpl.
  - intuition.
  - destruct (String.eqb_spec k k') as [-> | Hne].
    + split; [discriminate | intros H; exfalso; apply H; now left].
    + rewrite IH. intuition.
Qed.

Lemma dict_get_Some_In {V : Type} (d : dict V) (k : string) (v : V) :
  dict_get d k = Some v -> In (k, v) d.
Proof.
  induction d as [| [k' v'] d IH]; simpl; [discriminate |].
  destruct (String.eqb_spec k k') as [-> | Hne].
  - intros [= ->]. now left.
  - intros H. right. now apply IH.
Qed.

Lemma dict_get_In_keys {V : Type} (d : dict V) (k : string) :
  In k (keys d) -> exists v, dict_get d k = Some v.
Proof.
  intros H. destruct (dict_get d k) eqn:E; [eauto |].
  apply dict_get_None in E. contradiction.
Qed.

Lemma dict_get_Some_keys {V : Type} (d : dict V) (k : string) (v : V) :
  dict_get d k = Some v -> In k (keys d).
Proof.
  intros H. apply dict_get_Some_In in H.
  unfold keys. change k with (fst (k, v)). now apply in_map.
Qed.

Lemma In_dict_get {V : Type} (d : dict V) (k : string) (v : V) :
  NoDup (keys d) -> In (k, v) d -> dict_get d k = Some v.
Proof.
  induction d as [| [k' v'] d IH]; simpl; [intros _ [] |].
  intros Hnd [[= -> ->] | Hin].
  - now rewrite String.eqb_refl.
  - inversion Hnd as [| ? ? Hnot Hnd']; subst.
    destruct (String.eqb_spec k k') as [-> | Hne].
    + exfalso. apply Hnot. change k' with (fst (k', v)). now apply in_map.
    + now apply IH.
Qed.

Lemma dict_set_new {V : Type} (d : dict V) (k : string) (v : V) :
  ~ In k (keys d) -> dict_set d k v = d ++ [(k, v)].
Proof.
  induction d as [| [k' v'] d IH]; simpl; [reflexivity |].
  intros H. destruct (String.eqb_spec k k') as [-> | Hne].
  - exfalso. apply H. now left.
  - rewrite IH; [reflexivity | intuition].
Qed.

Lemma dict_get_last {V : Type} (d : dict V) (k : string) (v : V) :
  ~ In k (keys d) -> dict_get (d ++ [(k, v)]) k = Some v.
Proof.
  induction d as [| [k' v'] d IH]; simpl.
  - now rewrite String.eqb_refl.
  - intros H. destruct (String.eqb_spec k k') as [-> | Hne].
    + exfalso. apply H. now left.
    + apply IH. intuition.
Qed.

Lemma dict_set_last {V : Type} (d : dict V) (k : string) (v v' : V) :
  ~ In k (keys d) -> dict_set (d ++ [(k, v)]) k v' = d ++ [(k, v')].
Proof.
  induction d as [| [k0 v0] d IH]; simpl.
  - now rewrite String.eqb_refl.
  - intros H. destruct (String.eqb_spec k k0) as [-> | Hne].
    + exfalso. apply H. now left.
    + rewrite IH; [reflexivity | intuition].
Qed.

Lemma dict_item_Ok {V : Type} (d : dict V) (k : string) (v : V) :
  dict_item d k = Ok v <-> dict_get d k = Some v.
Proof.
  unfold dict_item. destruct (dict_get d k); split; congruence.
Qed.

Lemma mapM_Ok_length {A B : Type} (f : A -> res B) (l : list A)
  (bs : list B) :
  mapM f l = Ok bs -> List.length bs = List.length l.
Proof.
  revert bs. induction l as [| a l IH]; simpl; intros bs.
  - now intros [= <-].
  - destruct (f a); simpl; [| discriminate].
    destruct (mapM f l); simpl; [| discriminate].
    intros [= <-]. simpl. f_equal. now apply IH.
Qed.

Lemma mapM_Ok_Forall2 {A B : Type} (f : A -> res B) (l : list A)
  (bs : list B) :
  mapM f l = Ok bs -> Forall2 (fun a b => f a = Ok b) l bs.
Proof.
  revert bs. induction l as [| a l IH]; simpl; intros bs.
  - intros [= <-]. constructor.
  - destruct (f a) eqn:Ea; simpl; [| discriminate].
    destruct (mapM f l); simpl; [| discriminate].
    intros [= <-]. constructor; [assumption | now apply IH].
Qed.

Lemma mapM_all_Ok {A B : Type} (f : A -> res B) (g : A -> B) (l : list A) :
  (forall a, In a l -> f a = Ok (g a)) -> mapM f l = Ok (map g l).
Proof.
  induction l as [| a l IH]; simpl; intros H; [reflexivity |].
  rewrite (H a (or_introl eq_refl)). simpl.
  rewrite IH; [reflexivity | intros; apply H; now right].
Qed.

(** ** The order of binary64 values *)

Lemma SFltb_trans (a b c : spec_float) :
  SFltb a b = true -> SFltb b c = true -> SFltb a c = true.
Proof.
  unfold SFltb, SFcompare.
  destruct a as [sa | sa | | sa ma ea], b as [sb | sb | | sb mb eb],
    c as [sc | sc | | sc mc ec]; sf_cases.
Qed.

Lemma SFltb_negtrans (a b c : spec_float) :
  b <> S754_nan ->
  SFltb a b = false -> SFltb b c = false -> SFltb a c = false.
Proof.
  unfold SFltb, SFcompare.
  destruct a as [sa | sa | | sa ma ea], b as [sb | sb | | sb mb eb],
    c as [sc | sc | | sc mc ec]; intros Hb; try congruence; sf_cases.
Qed.

Lemma SFeqb_refl_iff (b : spec_float) :
  SFeqb b b = true <-> b <> S754_nan.
Proof.
  unfold SFeqb, SFcompare.
  destruct b as [sb | sb | | sb mb eb]; sf_cases; split; congruence.
Qed.

Lemma is_nan_false (x : float) :
  PrimFloat.is_nan x = false <-> Prim2SF x <> S754_nan.
Proof.
  unfold PrimFloat.is_nan. rewrite negb_false_iff, FloatAxioms.eqb_spec.
  apply SFeqb_refl_iff.
Qed.

Lemma ltb_trans (a b c : float) :
  (a <? b)%float = true -> (b <? c)%float = true -> (a <? c)%float = true.
Proof. rewrite !FloatAxioms.ltb_spec. apply SFltb_trans. Qed.

(** [not (a < b)] and [not (b < c)] give [not (a < c)] unless [b] is nan. *)
Lemma ltb_negtrans (a b c : float) :
  PrimFloat.is_nan b = false ->
  (a <? b)%float = false -> (b <? c)%float = false ->
  (a <? c)%float = false.
Proof.
  rewrite is_nan_false, !FloatAxioms.ltb_spec. apply SFltb_negtrans.
Qed.

Lemma SFleb_negb_ltb (a b : spec_float) :
  a <> S754_nan -> b <> S754_nan -> SFleb a b = negb (SFltb b a).
Proof.
  unfold SFleb, SFltb, SFcompare.
  destruct a as [sa | sa | | sa ma ea], b as [sb | sb | | sb mb eb];
    intros Ha Hb; try congruence; sf_cases.
Qed.

Lemma SFltb_not_nan (a b : spec_float) :
  SFltb a b = true -> a <> S754_nan /\ b <> S754_nan.
Proof.
  unfold SFltb, SFcompare.
  destruct a as [sa | sa | | sa ma ea], b as [sb | sb | | sb mb eb];
    intros H; try discriminate; split; discriminate.
Qed.

Lemma SFltb_asym (a b : spec_float) :
  SFltb a b = true -> SFltb b a = false.
Proof.
  unfold SFltb, SFcompare.
  destruct a as [sa | sa | | sa ma ea], b as [sb | sb | | sb mb eb];
    sf_cases.
Qed.

(** [a <= b] is [not (b < a)] unless one of them is nan. *)
Lemma leb_negb_ltb (a b : float) :
  PrimFloat.is_nan a = false -> PrimFloat.is_nan b = false ->
  (a <=? b)%float = negb (b <? a)%float.
Proof.
  rewrite !is_nan_false, FloatAxioms.leb_spec, FloatAxioms.ltb_spec.
  apply SFleb_negb_ltb.
Qed.

Lemma ltb_not_nan (a b : float) :
  (a <? b)%float = true ->
  PrimFloat.is_nan a = false /\ PrimFloat.is_nan b = false.
Proof.
  rewrite !is_nan_false, FloatAxioms.ltb_spec. apply SFltb_not_nan.
Qed.

Lemma ltb_asym (a b : float) :
  (a <? b)%float = true -> (b <? a)%float = false.
Proof. rewrite !FloatAxioms.ltb_spec. apply SFltb_asym. Qed.

(** ** The square root of a positive binary64 value is not zero *)

Section SqrtPositive.

Local Open Scope Z_scope.

Lemma digits2_pos_le (p : positive) :
  2 ^ (Z.pos (digits2_pos p) - 1) <= Z.pos p.
Proof.
  induction p as [p IH | p IH |]; simpl digits2_pos.
  - rewrite Pos2Z.inj_succ.
    replace (Z.succ (Z.pos (digits2_pos p)) - 1)
      with (Z.succ (Z.pos (digits2_pos p) - 1)) by lia.
    rewrite Z.pow_succ_r by lia. lia.
  - rewrite Pos2Z.inj_succ.
    replace (Z.succ (Z.pos (digits2_pos p)) - 1)
      with (Z.succ (Z.pos (digits2_pos p) - 1)) by lia.
    rewrite Z.pow_succ_r by lia. lia.
  - simpl. lia.
Qed.

Lemma shr_1_m (r : shr_record) :
  0 <= shr_m r -> shr_m (shr_1 r) = shr_m r / 2.
Proof.
  destruct r as [m b s]. cbn [shr_m]. intros Hm.
  destruct m as [| [p | p |] | p]; cbn [shr_1 shr_m]; try lia.
  - reflexivity.
  - apply Z.div_unique with (r := 1); lia.
  - apply Z.div_unique with (r := 0); lia.
  - reflexivity.
Qed.

Lemma pow2_double (p : positive) :
  2 ^ Z.pos p~0 = 2 ^ Z.pos p * 2 ^ Z.pos p.
Proof.
  rewrite <- Z.pow_add_r by lia. f_equal. lia.
Qed.

Lemma pow2_double_succ (p : positive) :
  2 ^ Z.pos p~1 = 2 * (2 ^ Z.pos p * 2 ^ Z.pos p).
Proof.
  rewrite <- Z.pow_add_r, <- Z.pow_succ_r by lia. f_equal. lia.
Qed.

Lemma iter_shr_1_m (p : positive) :
  forall r, 0 <= shr_m r ->
            shr_m (SpecFloat.iter_pos shr_1 p r) = shr_m r / 2 ^ Z.pos p.
Proof.
  induction p as [p IH | p IH |]; intros r Hr; cbn [SpecFloat.iter_pos].
  - assert (H1 : 0 <= shr_m (shr_1 r))
      by (rewrite shr_1_m by assumption; apply Z.div_pos; lia).
    assert (H2 : 0 <= shr_m (SpecFloat.iter_pos shr_1 p (shr_1 r)))
      by (rewrite IH by assumption; apply Z.div_pos; lia).
    rewrite IH, IH, shr_1_m by assumption.
    rewrite !Z.div_div by lia. now rewrite pow2_double_succ.
  - assert (H2 : 0 <= shr_m (SpecFloat.iter_pos shr_1 p r))
      by (rewrite IH by assumption; apply Z.div_pos; lia).
    rewrite IH, IH by assumption.
    rewrite !Z.div_div by lia. now rewrite pow2_double.
  - now apply shr_1_m.
Qed.

Lemma shr_record_of_loc_m (m : Z) (l : location) :
  shr_m (shr_record_of_loc m l) = m.
Proof. destruct l as [| []]; reflexivity. Qed.

Lemma shr_fexp_pos (m e : Z) (l : location) :
  1 <= m -> SpecFloat.emin prec emax <= e ->
  1 <= shr_m (fst (shr_fexp prec emax m e l))
  /\ e <= snd (shr_fexp prec emax m e l).
Proof.
  intros Hm He. unfold shr_fexp, shr.
  destruct m as [| p | p]; try lia. simpl Zdigits2.
  pose proof (digits2_pos_le p) as Hd.
  set (d := Z.pos (digits2_pos p)) in *.
  destruct (fexp prec emax (d + e) - e) as [| n | n] eqn:En; simpl fst;
    simpl snd; rewrite ?shr_record_of_loc_m; try lia.
  rewrite iter_shr_1_m by (rewrite shr_record_of_loc_m; lia).
  rewrite shr_record_of_loc_m. split; [| lia].
  unfold fexp, SpecFloat.emin, prec, emax in *.
  assert (Hn : Z.pos n <= d - 1) by lia.
  assert (Hpow : 2 ^ Z.pos n <= 2 ^ (d - 1))
    by (apply Z.pow_le_mono_r; lia).
  apply Z.div_le_lower_bound; lia.
Qed.

Lemma round_nearest_even_le (m : Z) (l : location) :
  m <= round_nearest_even m l.
Proof.
  destruct l as [| []]; simpl; try lia. destruct (Z.even m); lia.
Qed.

Lemma binary_round_aux_pos (m e : Z) (l : location) :
  1 <= m -> SpecFloat.emin prec emax <= e ->
  SFeqb (binary_round_aux prec emax false m e l) (S754_zero false) = false.
Proof.
  intros Hm He. unfold binary_round_aux.
  pose proof (shr_fexp_pos m e l Hm He) as [H1 H2].
  destruct (shr_fexp prec emax m e l) as [mrs' e']. simpl in H1, H2.
  pose proof (round_nearest_even_le (shr_m mrs') (loc_of_shr_record mrs'))
    as Hr.
  pose proof (shr_fexp_pos
                (round_nearest_even (shr_m mrs') (loc_of_shr_record mrs'))
                e' loc_Exact ltac:(lia) ltac:(lia)) as [H3 _].
  destruct (shr_fexp prec emax
              (round_nearest_even (shr_m mrs') (loc_of_shr_record mrs'))
              e' loc_Exact) as [mrs'' e''].
  simpl in H3. destruct (shr_m mrs'') as [| q | q]; try lia.
  destruct (e'' <=? emax - prec); reflexivity.
Qed.

Lemma sqrt_core_pos (mx : positive) (ex : Z) :
  SpecFloat.emin prec emax <= ex ->
  let '(mz, ez, _) := SFsqrt_core_binary prec emax (Z.pos mx) ex in
  1 <= mz /\ SpecFloat.emin prec emax <= ez.
Proof.
  intros He. unfold SFsqrt_core_binary.
  set (d := Zdigits2 (Z.pos mx)).
  set (e' := Z.min (fexp prec emax (Z.div2 (d + ex + 1))) (Z.div2 ex)).
  assert (He' : SpecFloat.emin prec emax <= e' /\ 2 * e' <= ex).
  { unfold e', fexp, SpecFloat.emin, prec, emax in *.
    rewrite !Z.div2_div. 
    pose proof (Z.div_mod ex 2 ltac:(lia)).
    pose proof (Z.mod_pos_bound ex 2 ltac:(lia)). lia. }
  destruct He' as [He1 He2].
  set (m' := match ex - 2 * e' with
             | 0 => Z.pos mx
             | Z.pos _ => Z.shiftl (Z.pos mx) (ex - 2 * e')
             | Z.neg _ => 0
             end).
  assert (Hm' : 1 <= m').
  { unfold m'. destruct (ex - 2 * e') as [| s | s] eqn:Es; try lia.
    rewrite Z.shiftl_mul_pow2 by lia.
    pose proof (Z.pow_pos_nonneg 2 (Z.pos s) ltac:(lia) ltac:(lia)). nia. }
  pose proof (Z.sqrtrem_spec m' ltac:(lia)) as Hs.
  change (IntDef.Z.sqrtrem m') with (Z.sqrtrem m').
  destruct (Z.sqrtrem m') as [q r]. split; [| assumption].
  destruct Hs as [Hs1 Hs2]. nia.
Qed.

Lemma SFsqrt_pos (x : spec_float) :
  valid_binary x = true -> SFltb (S754_zero false) x = true ->
  SFeqb (SF64sqrt x) (S754_zero false) = false.
Proof.
  intros Hv Hlt. destruct x as [s | s | | s mx ex]; try discriminate.
  - destruct s; [discriminate | reflexivity].
  - destruct s; [discriminate |].
    unfold SF64sqrt, SFsqrt.
    assert (He : SpecFloat.emin prec emax <= ex).
    { unfold SpecFloat.valid_binary, bounded, canonical_mantissa in Hv.
      apply andb_prop in Hv. destruct Hv as [Hv _].
      apply Z.eqb_eq in Hv. unfold fexp in Hv. lia. }
    pose proof (sqrt_core_pos mx ex He) as Hc.
    destruct (SFsqrt_core_binary prec emax (Z.pos mx) ex) as [[mz ez] lz].
    destruct Hc as [Hm Hz]. now apply binary_round_aux_pos.
Qed.

Lemma sqrt_pos (x : float) :
  (0 <? x)%float = true -> (PrimFloat.sqrt x =? 0)%float = false.
Proof.
  rewrite FloatAxioms.ltb_spec, FloatAxioms.eqb_spec, FloatAxioms.sqrt_spec.
  apply SFsqrt_pos, FloatAxioms.Prim2SF_valid.
Qed.

End SqrtPositive.

(** ** [sorted] and its first element *)

Section SortedFacts.

Context {A K : Type} (lt : K -> K -> bool) (key : A -> K).

(** The keys on which [lt] is a strict weak order (for floats: all but
    nan). *)
Variable ok : K -> Prop.
Hypothesis lt_trans :
  forall a b c, lt a b = true -> lt b c = true -> lt a c = true.
Hypothesis lt_negtrans :
  forall a b c, ok b -> lt a b = false -> lt b c = false -> lt a c = false.

Lemma insert_In (x y : A) (l : list A) :
  In y (insert lt key x l) <-> y = x \/ In y l.
Proof.
  induction l as [| a l IH]; simpl.
  - intuition.
  - destruct (lt (key a) (key x)); simpl; rewrite ?IH; intuition.
Qed.

Lemma sorted_In (y : A) (l : list A) : In y (sorted lt key l) <-> In y l.
Proof.
  induction l as [| a l IH]; simpl.
  - reflexivity.
  - rewrite insert_In, IH. intuition.
Qed.

Lemma sorted_reverse_In (y : A) (l : list A) :
  In y (sorted_reverse lt key l) <-> In y l.
Proof.
  unfold sorted_reverse. now rewrite <- in_rev, sorted_In, <- in_rev.
Qed.

Lemma item0_sorted (l : list A) :
  l <> [] -> exists x, item0 (sorted lt key l) = Ok x /\ In x l.
Proof.
  intros H. destruct (sorted lt key l) as [| x r] eqn:E.
  - destruct l as [| a l]; [congruence |].
    assert (Ha : In a (sorted lt key (a :: l)))
      by (apply sorted_In; now left).
    rewrite E in Ha. destruct Ha.
  - exists x. split; [reflexivity |]. apply sorted_In. rewrite E. now left.
Qed.

Lemma item0_sorted_reverse (l : list A) :
  l <> [] -> exists x, item0 (sorted_reverse lt key l) = Ok x /\ In x l.
Proof.
  intros H. destruct (sorted_reverse lt key l) as [| x r] eqn:E.
  - destruct l as [| a l]; [congruence |].
    assert (Ha : In a (sorted_reverse lt key (a :: l)))
      by (apply sorted_reverse_In; now left).
    rewrite E in Ha. destruct Ha.
  - exists x. split; [reflexivity |]. apply sorted_reverse_In.
    rewrite E. now left.
Qed.

(** The first element of [sorted l] is the leftmost minimum of [l]. *)
Lemma sorted_first (l : list A) :
  Forall (fun x => ok (key x)) l -> l <> [] ->
  exists l1 x l2 r,
    l = l1 ++ x :: l2 /\ sorted lt key l = x :: r
    /\ (forall y, In y l1 -> lt (key x) (key y) = true)
    /\ (forall y, In y l2 -> lt (key y) (key x) = false).
Proof.
  induction l as [| a l IH]; intros Hok Hne; [congruence |].
  inversion Hok as [| ? ? Hoka Hokl]; subst.
  assert (Hl : l = [] \/ l <> []) by (destruct l; [now left | now right]).
  destruct Hl as [-> | Hl].
  - exists [], a, [], []. simpl. intuition.
  - destruct (IH Hokl Hl) as (l1 & x & l2 & r & El & Es & H1 & H2).
    assert (Hokx : ok (key x)).
    { rewrite Forall_forall in Hokl. apply Hokl. rewrite El.
      apply in_or_app. right. now left. }
    cbn [sorted]. rewrite Es. cbn [insert].
    destruct (lt (key x) (key a)) eqn:Exa.
    + exists (a :: l1), x, l2, (insert lt key a r). rewrite El.
      split; [reflexivity |]. split; [reflexivity |]. split; [| assumption].
      intros y [<- | Hy]; [assumption | now apply H1].
    + exists [], a, l, (x :: r).
      split; [reflexivity |]. split; [reflexivity |].
      split; [intros y [] |].
      intros y Hy. rewrite El in Hy. apply in_app_or in Hy.
      destruct Hy as [Hy | [<- | Hy]].
      * destruct (lt (key y) (key a)) eqn:Eya; [| reflexivity].
        rewrite (lt_trans _ _ _ (H1 y Hy) Eya) in Exa. discriminate.
      * assumption.
      * apply (lt_negtrans _ (key x)); auto.
Qed.

Lemma insert_snoc (a x : A) (r : list A) :
  insert lt key a (r ++ [x]) =
  if forallb (fun y => lt (key y) (key a)) (r ++ [x])
  then r ++ [x; a]
  else insert lt key a r ++ [x].
Proof.
  induction r as [| b r IH]; simpl.
  - destruct (lt (key x) (key a)); reflexivity.
  - destruct (lt (key b) (key a)); simpl; [| reflexivity].
    rewrite IH.
    destruct (forallb (fun y => lt (key y) (key a)) (r ++ [x]));
      reflexivity.
Qed.

(** The last element of [sorted l] is the rightmost maximum of [l]. *)
Lemma sorted_last (l : list A) :
  Forall (fun x => ok (key x)) l -> l <> [] ->
  exists l1 x l2 r,
    l = l1 ++ x :: l2 /\ sorted lt key l = r ++ [x]
    /\ (forall y, In y l1 -> lt (key x) (key y) = false)
    /\ (forall y, In y l2 -> lt (key y) (key x) = true).
Proof.
  induction l as [| a l IH]; intros Hok Hne; [congruence |].
  inversion Hok as [| ? ? Hoka Hokl]; subst.
  assert (Hl : l = [] \/ l <> []) by (destruct l; [now left | now right]).
  destruct Hl as [-> | Hl].
  - exists [], a, [], []. simpl. intuition.
  - destruct (IH Hokl Hl) as (l1 & x & l2 & r & El & Es & H1 & H2).
    assert (Hoky : forall y, In y l -> ok (key y))
      by (now apply Forall_forall).
    cbn [sorted]. rewrite Es, insert_snoc.
    destruct (lt (key x) (key a)) eqn:Exa.
    + assert (Hall : forallb (fun y => lt (key y) (key a)) (r ++ [x])
                     = true).
      { apply forallb_forall. intros y Hy. rewrite <- Es in Hy.
        apply -> sorted_In in Hy. pose proof (Hoky y Hy) as Hy'.
        rewrite El in Hy. apply in_app_or in Hy.
        destruct Hy as [Hy | [<- | Hy]].
        - destruct (lt (key y) (key a)) eqn:Eya; [reflexivity |].
          rewrite (lt_negtrans _ (key y) _ Hy' (H1 y Hy) Eya) in Exa.
          discriminate.
        - assumption.
        - apply (lt_trans _ (key x)); auto. }
      rewrite Hall. exists [], a, l, (r ++ [x]).
      split; [reflexivity |]. split; [now rewrite <- app_assoc |].
      split; [intros y [] |].
      intros y Hy. rewrite forallb_forall in Hall. apply Hall.
      rewrite <- Es. now apply sorted_In.
    + assert (Hall : forallb (fun y => lt (key y) (key a)) (r ++ [x])
                     = false).
      { destruct (forallb (fun y => lt (key y) (key a)) (r ++ [x])) eqn:E;
          [| reflexivity].
        rewrite forallb_forall in E. rewrite E in Exa; [discriminate |].
        apply in_or_app. right. now left. }
      rewrite Hall. exists (a :: l1), x, l2, (insert lt key a r).
      rewrite El. split; [reflexivity |]. split; [reflexivity |].
      split; [| assumption].
      intros y [<- | Hy]; [assumption | now apply H1].
Qed.

(** The first element of [sorted_reverse l] is the leftmost maximum of
    [l]. *)
Lemma sorted_reverse_first (l : list A) :
  Forall (fun x => ok (key x)) l -> l <> [] ->
  exists l1 x l2 r,
    l = l1 ++ x :: l2 /\ sorted_reverse lt key l = x :: r
    /\ (forall y, In y l1 -> lt (key y) (key x) = true)
    /\ (forall y, In y l2 -> lt (key x) (key y) = false).
Proof.
  intros Hok Hne.
  destruct (sorted_last (rev l)) as (l1 & x & l2 & r & El & Es & H1 & H2).
  - apply Forall_forall. intros y Hy. apply in_rev in Hy.
    rewrite Forall_forall in Hok. now apply Hok.
  - intros E. apply (f_equal (@rev A)) in E. rewrite rev_involutive in E.
    now apply Hne.
  - exists (rev l2), x, (rev l1), (rev r). unfold sorted_reverse.
    rewrite Es, rev_app_distr. split.
    + apply (f_equal (@rev A)) in El.
      rewrite rev_involutive, rev_app_distr in El. simpl in El.
      now rewrite <- app_assoc in El.
    + split; [reflexivity |].
      split; intros y Hy; apply in_rev in Hy; auto.
Qed.

End SortedFacts.

(** ** Station counters as strings *)

Lemma int_str (n : nat) : Py.int (Py.str n) = Some n.
Proof.
  unfold Py.int, Py.str. rewrite NilEmpty.usu. simpl.
  now rewrite DecimalNat.Unsigned.of_to.
Qed.

Lemma str_inj (a b : nat) : Py.str a = Py.str b -> a = b.
Proof.
  intros H. apply (f_equal Py.int) in H. rewrite !int_str in H. congruence.
Qed.

Lemma str_not_in_seq (n : nat) : ~ In (Py.str (S n)) (map Py.str (seq 1 n)).
Proof.
  intros H. apply in_map_iff in H. destruct H as [k [Hk Hin]].
  apply str_inj in Hk. apply in_seq in Hin. lia.
Qed.

(** ** The sets of assigned and of available tasks *)

Section Engine.

Variables norm_cdf norm_ppf : float -> float.
Variable set_order : list string -> list string.
Hypothesis set_order_perm : forall l, Permutation (set_order l) l.

Lemma set_order_In (l : list string) (x : string) :
  In x (set_order l) <-> In x l.
Proof.
  split; apply Permutation_in;
    [apply set_order_perm | apply Permutation_sym, set_order_perm].
Qed.

Lemma set_order_length (l : list string) :
  List.length (set_order l) = List.length l.
Proof. apply Permutation_length, set_order_perm. Qed.

Lemma assigned_fold_In (sts : list Station.t) (acc : list string)
  (t : string) :
  In t (fold_left
          (fun ass_tasks station =>
             let tasks_id := keys (Station.out_line_cost station) in
             if List.length tasks_id =? 0 then ass_tasks
             else set_update ass_tasks tasks_id) sts acc)
  <-> In t acc
      \/ In t (flat_map (fun st => keys (Station.out_line_cost st)) sts).
Proof.
  revert acc. induction sts as [| st sts IH]; intros acc; simpl.
  - intuition.
  - rewrite IH, in_app_iff.
    destruct (List.length (keys (Station.out_line_cost st)) =? 0) eqn:E.
    + apply Nat.eqb_eq, length_zero_iff_nil in E. rewrite E. simpl.
      intuition.
    + rewrite set_update_In. intuition.
Qed.

Lemma assigned_tasks_In (inst : Instance) (t : string) :
  In t (assigned_tasks inst) <-> In t (station_tasks inst).
Proof.
  unfold assigned_tasks, station_tasks, tasks_of.
  rewrite assigned_fold_In. simpl. intuition.
Qed.

Lemma fold_left_ext {A B : Type} (f g : A -> B -> A) (l : list B) (a : A) :
  (forall x y, f x y = g x y) -> fold_left f l a = fold_left g l a.
Proof.
  intros H. revert a. induction l as [| b l IH]; intros a; simpl.
  - reflexivity.
  - now rewrite H, IH.
Qed.

Lemma potential_tasks_eq (inst : Instance) :
  potential_tasks set_order inst =
  fold_left
    (fun pot_tasks task_id =>
       if available inst (assigned_tasks inst) task_id
       then set_add task_id pot_tasks else pot_tasks)
    (set_order
       (set_difference (keys (task_list inst)) (assigned_tasks inst))) [].
Proof.
  unfold potential_tasks. apply fold_left_ext. intros pot id.
  unfold available. now destruct (dict_get (task_list inst) id).
Qed.

Lemma filter_fold_In (p : string -> bool) (l acc : list string)
  (x : string) :
  In x (fold_left (fun s y => if p y then set_add y s else s) l acc)
  <-> In x acc \/ (In x l /\ p x = true).
Proof.
  revert acc. induction l as [| a l IH]; intros acc; simpl.
  - intuition.
  - rewrite IH. destruct (p a) eqn:Ea.
    + rewrite set_add_In. split.
      * intros [[-> | H] | [H1 H2]]; auto.
      * intros [H | [[-> | H1] H2]]; auto.
    + split.
      * intros [H | [H1 H2]]; auto.
      * intros [H | [[-> | H1] H2]]; auto. congruence.
Qed.

Lemma filter_fold_NoDup (p : string -> bool) (l acc : list string) :
  NoDup acc ->
  NoDup (fold_left (fun s y => if p y then set_add y s else s) l acc).
Proof.
  revert acc. induction l as [| a l IH]; intros acc H; simpl.
  - assumption.
  - apply IH. destruct (p a); [now apply set_add_NoDup | assumption].
Qed.

Lemma potential_tasks_In (inst : Instance) (x : string) :
  In x (potential_tasks set_order inst)
  <-> In x (keys (task_list inst)) /\ ~ In x (station_tasks inst)
      /\ available inst (assigned_tasks inst) x = true.
Proof.
  rewrite potential_tasks_eq, filter_fold_In, set_order_In,
    set_difference_In, assigned_tasks_In.
  simpl. intuition.
Qed.

Lemma potential_tasks_NoDup (inst : Instance) :
  NoDup (potential_tasks set_order inst).
Proof.
  rewrite potential_tasks_eq. apply filter_fold_NoDup. constructor.
Qed.

Lemma available_spec (inst : Instance) (x : string) :
  available inst (assigned_tasks inst) x = true
  <-> exists t, dict_get (task_list inst) x = Some t
                /\ forall p, In p (Task.predecessor_set t) ->
                             In p (station_tasks inst).
Proof.
  unfold available. destruct (dict_get (task_list inst) x) as [t |].
  - rewrite orb_true_iff, Nat.eqb_eq, length_zero_iff_nil,
      set_issubset_spec.
    split.
    + intros [H | H]; exists t; split; try reflexivity; intros p Hp.
      * rewrite H in Hp. destruct Hp.
      * now apply assigned_tasks_In, H.
    + intros [t' [[= <-] H]]. right. intros p Hp.
      now apply assigned_tasks_In, H.
  - split; [discriminate | intros [t [H _]]; discriminate].
Qed.

(** The set of available tasks depends on the stations through the assigned
    tasks only; an empty station does not change it. *)
Lemma assigned_tasks_open (inst : Instance) (k : string) :
  ~ In k (keys (station_list inst)) ->
  assigned_tasks
    (with_station_list inst
       (dict_set (station_list inst) k (Station.init k)))
  = assigned_tasks inst.
Proof.
  intros H. unfold assigned_tasks. simpl.
  rewrite dict_set_new by assumption.
  unfold values. rewrite map_app, fold_left_app. reflexivity.
Qed.

Lemma potential_tasks_open (inst : Instance) (k : string) :
  ~ In k (keys (station_list inst)) ->
  potential_tasks set_order
    (with_station_list inst
       (dict_set (station_list inst) k (Station.init k)))
  = potential_tasks set_order inst.
Proof.
  intros H. unfold potential_tasks.
  rewrite assigned_tasks_open by assumption. reflexivity.
Qed.

(** ** One pass of the station loop *)

Lemma ltb_length_nonempty {A : Type} (l : list A) :
  (0 <? List.length l) = true <-> l <> [].
Proof.
  rewrite Nat.ltb_lt. destruct l; simpl; split; intros H; try lia;
    congruence.
Qed.

Lemma ltb_length_empty {A : Type} (l : list A) :
  (0 <? List.length l) = false <-> l = [].
Proof.
  rewrite Nat.ltb_ge. destruct l; simpl; split; intros H; try lia;
    congruence.
Qed.

Lemma mapM_map_inv {A B : Type} (f : A -> res B) (g : B -> A)
  (l : list A) (bs : list B) :
  (forall a b, f a = Ok b -> g b = a) -> mapM f l = Ok bs -> map g bs = l.
Proof.
  intros Hfg H. apply mapM_Ok_Forall2 in H.
  induction H as [| a b l bs Hab _ IH]; simpl; [reflexivity |].
  now rewrite (Hfg a b Hab), IH.
Qed.

Lemma classify_x0 (inst : Instance) (cur : string) (rows : list Row) :
  classify norm_cdf set_order inst cur = Ok rows ->
  map x0 rows = set_order (potential_tasks set_order inst).
Proof.
  apply mapM_map_inv. intros a b.
  destruct (dict_item (station_list inst) cur) as [st |]; simpl;
    [| discriminate].
  destruct (compute_status norm_cdf inst a st) as [[[[[? ?] ?] ?] ?] |];
    simpl; [| discriminate].
  now intros [= <-].
Qed.

Lemma rows_partition (rows : list Row) :
  filter (fun x => status_eqb (x1 x) critical) rows = [] ->
  filter (fun x => status_eqb (x1 x) safe) rows = [] ->
  filter (fun x => status_eqb (x1 x) desirable) rows = [] ->
  rows = [].
Proof.
  destruct rows as [| r rows]; [reflexivity |]. simpl.
  destruct (x1 r); simpl; congruence.
Qed.

Lemma select_task_cases (inst : Instance) (cur : string) (st : Station.t)
  (rows : list Row) :
  dict_get (station_list inst) cur = Some st ->
  (exists sel, select_task inst cur rows = Ok (Some sel) /\ In sel rows)
  \/ (select_task inst cur rows = Ok None
      /\ (rows = [] \/ Station.out_line_cost st <> [])).
Proof.
  intros Hst. unfold select_task, dict_item. rewrite Hst.
  set (crit := filter (fun x => status_eqb (x1 x) critical) rows).
  set (saf := filter (fun x => status_eqb (x1 x) safe) rows).
  set (des := filter (fun x => status_eqb (x1 x) desirable) rows).
  assert (Hsub : forall p x, In x (filter p rows) -> In x rows)
    by (intros p x Hx; now apply filter_In in Hx).
  assert (Hrest :
    (exists sel,
        (if 0 <? List.length saf
         then x <- item0 (sorted_reverse PrimFloat.ltb x3 saf) ;;
              Ok (Some x)
         else if 0 <? List.length des
              then x <- item0 (sorted PrimFloat.ltb x3 des) ;; Ok (Some x)
              else Ok None) = Ok (Some sel) /\ In sel rows)
    \/ ((if 0 <? List.length saf
         then x <- item0 (sorted_reverse PrimFloat.ltb x3 saf) ;;
              Ok (Some x)
         else if 0 <? List.length des
              then x <- item0 (sorted PrimFloat.ltb x3 des) ;; Ok (Some x)
              else Ok None) = Ok None /\ saf = [] /\ des = [])).
  { destruct (0 <? List.length saf) eqn:Es.
    - apply ltb_length_nonempty in Es.
      destruct (item0_sorted_reverse PrimFloat.ltb x3 saf Es)
        as [x [Hx Hin]].
      left. exists x. rewrite Hx. simpl. split; [reflexivity |].
      now apply (Hsub _ _ Hin).
    - apply ltb_length_empty in Es.
      destruct (0 <? List.length des) eqn:Ed.
      + apply ltb_length_nonempty in Ed.
        destruct (item0_sorted PrimFloat.ltb x3 des Ed) as [x [Hx Hin]].
        left. exists x. rewrite Hx. simpl. split; [reflexivity |].
        now apply (Hsub _ _ Hin).
      + apply ltb_length_empty in Ed. right. auto. }
  destruct (0 <? List.length crit) eqn:Ec; simpl.
  - apply ltb_length_nonempty in Ec.
    destruct (List.length (keys (Station.out_line_cost st)) =? 0) eqn:Ek.
    + destruct (item0_sorted_reverse Nat.ltb x5 crit Ec) as [x [Hx Hin]].
      left. exists x. rewrite Hx. simpl. split; [reflexivity |].
      now apply (Hsub _ _ Hin).
    + destruct Hrest as [H | [H _]]; [now left | right].
      split; [assumption | right].
      intros E. rewrite E in Ek. discriminate.
  - apply ltb_length_empty in Ec.
    destruct Hrest as [H | [H [Hs Hd]]]; [now left | right].
    split; [assumption | left]. now apply rows_partition.
Qed.

Lemma tasks_of_app (a b : dict Station.t) :
  tasks_of (a ++ b) = tasks_of a ++ tasks_of b.
Proof. unfold tasks_of, values. now rewrite map_app, flat_map_app. Qed.

Lemma tasks_of_single (k : string) (st : Station.t) :
  tasks_of [(k, st)] = keys (Station.out_line_cost st).
Proof. unfold tasks_of. simpl. apply app_nil_r. Qed.

Lemma station_tasks_snoc (inst : Instance) (sl : dict Station.t)
  (cur : string) (st : Station.t) :
  station_list inst = sl ++ [(cur, st)] ->
  station_tasks inst = tasks_of sl ++ keys (Station.out_line_cost st).
Proof.
  intros H. unfold station_tasks.
  now rewrite H, tasks_of_app, tasks_of_single.
Qed.

Lemma station_step_spec (inst : Instance) (cur : string) (st : Station.t)
  (sl : dict Station.t) :
  station_list inst = sl ++ [(cur, st)] -> ~ In cur (keys sl) ->
  match station_step norm_cdf set_order inst cur with
  | Raise _ => True
  | Ok Break =>
      potential_tasks set_order inst = [] \/ Station.out_line_cost st <> []
  | Ok (Continue inst') =>
      exists sel,
        In (x0 sel) (potential_tasks set_order inst)
        /\ inst' =
           with_station_list inst
             (sl ++ [(cur,
                      Station.Build (Station.station_id st)
                        (Station.out_line_cost st
                         ++ [(x0 sel, x4 sel)]))])
  end.
Proof.
  intros Hsl Hcur.
  assert (Hget : dict_get (station_list inst) cur = Some st)
    by (rewrite Hsl; now apply dict_get_last).
  unfold station_step.
  destruct (classify norm_cdf set_order inst cur) as [rows |] eqn:Ec;
    simpl; [| exact I].
  destruct (List.length (potential_tasks set_order inst) =? 0) eqn:Ep.
  - left. now apply Nat.eqb_eq, length_zero_iff_nil in Ep.
  - pose proof (classify_x0 _ _ _ Ec) as Hx0.
    destruct (select_task_cases inst cur st rows Hget)
      as [[sel [Hs Hin]] | [Hs Hn]]; rewrite Hs; simpl.
    + assert (Hpot : In (x0 sel) (potential_tasks set_order inst)).
      { apply set_order_In. rewrite <- Hx0. now apply in_map. }
      unfold assign, dict_item. rewrite Hget. simpl.
      exists sel. split; [assumption |]. f_equal.
      rewrite Hsl, dict_set_last by assumption. do 4 f_equal.
      apply dict_set_new. intros Hk.
      apply potential_tasks_In in Hpot. destruct Hpot as (_ & Hna & _).
      apply Hna. rewrite (station_tasks_snoc _ _ _ _ Hsl).
      apply in_or_app. now right.
    + destruct Hn as [-> | Hn]; [| now right].
      simpl in Hx0. apply (f_equal (@List.length string)) in Hx0.
      rewrite set_order_length in Hx0. simpl in Hx0.
      rewrite <- Hx0 in Ep. discriminate.
Qed.

(** ** The invariant of a run *)

Lemma app_snoc_split {A : Type} (l l1 l2 : list A) (x y : A) :
  l ++ [x] = l1 ++ y :: l2 ->
  (l2 = [] /\ l1 = l /\ y = x)
  \/ (exists l2', l2 = l2' ++ [x] /\ l = l1 ++ y :: l2').
Proof.
  intros H. destruct l2 as [| z l2].
  - apply app_inj_tail in H. destruct H as [-> ->]. now left.
  - destruct (@exists_last _ (z :: l2) ltac:(discriminate)) as [l2' [w E]].
    rewrite E in H |- *.
    change (l ++ [x] = l1 ++ (y :: l2') ++ [w]) in H.
    rewrite app_assoc in H. apply app_inj_tail in H.
    destruct H as [-> ->]. right. now exists l2'.
Qed.

Lemma Inv_fresh (inst : Instance) : station_list inst = [] -> Inv inst 0.
Proof.
  intros H. split; unfold station_tasks; rewrite H; simpl.
  - reflexivity.
  - constructor.
  - intros x [].
  - intros sl1 k st sl2 t x p E. destruct sl1; discriminate.
Qed.

Lemma Inv_open (inst : Instance) (n : nat) :
  Inv inst n ->
  Inv (with_station_list inst
         (dict_set (station_list inst) (Py.str (S n))
            (Station.init (Py.str (S n))))) (S n).
Proof.
  intros [Hk Hnd Hin Hpr].
  assert (Hnew : ~ In (Py.str (S n)) (keys (station_list inst)))
    by (rewrite Hk; apply str_not_in_seq).
  split; unfold station_tasks;
    cbn [station_list with_station_list task_list];
    rewrite dict_set_new by assumption.
  - unfold keys in *. rewrite map_app, Hk, seq_S, map_app. reflexivity.
  - rewrite tasks_of_app, tasks_of_single. simpl. now rewrite app_nil_r.
  - rewrite tasks_of_app, tasks_of_single. simpl. now rewrite app_nil_r.
  - intros sl1 k st sl2 t x p E Ht Hx Hp.
    apply app_snoc_split in E.
    destruct E as [(_ & _ & [= -> ->]) | [sl2' [-> E]]].
    + destruct Ht.
    + now apply (Hpr sl1 k st sl2' t x p).
Qed.

Lemma Inv_assign (inst : Instance) (n : nat) (sl : dict Station.t)
  (st : Station.t) (sel : Row) :
  Inv inst (S n) ->
  station_list inst = sl ++ [(Py.str (S n), st)] ->
  In (x0 sel) (potential_tasks set_order inst) ->
  Inv (with_station_list inst
         (sl ++ [(Py.str (S n),
                  Station.Build (Station.station_id st)
                    (Station.out_line_cost st ++ [(x0 sel, x4 sel)]))]))
    (S n).
Proof.
  intros [Hk Hnd Hin Hpr] Hsl Hpot.
  apply potential_tasks_In in Hpot. destruct Hpot as (Hkey & Hna & Hav).
  apply available_spec in Hav. destruct Hav as [tx [Htx Hpreds]].
  assert (Est : station_tasks inst
                = tasks_of sl ++ keys (Station.out_line_cost st))
    by (now apply (station_tasks_snoc inst sl (Py.str (S n)))).
  assert (Enew :
    tasks_of
      (sl ++ [(Py.str (S n),
               Station.Build (Station.station_id st)
                 (Station.out_line_cost st ++ [(x0 sel, x4 sel)]))])
    = station_tasks inst ++ [x0 sel]).
  { rewrite tasks_of_app, tasks_of_single, Est. simpl.
    unfold keys. rewrite map_app. simpl. now rewrite app_assoc. }
  split; unfold station_tasks;
    cbn [station_list with_station_list task_list].
  - rewrite <- Hk, Hsl. unfold keys. rewrite !map_app. reflexivity.
  - rewrite Enew. apply NoDup_app; [assumption | repeat constructor; intros [] |].
    intros a Ha [<- | []]. contradiction.
  - rewrite Enew. intros a Ha. apply in_app_or in Ha.
    destruct Ha as [Ha | [<- | []]]; [now apply Hin | assumption].
  - intros sl1 k s sl2 t x p E Ht Hx Hp.
    apply app_snoc_split in E.
    destruct E as [(-> & -> & [= -> ->]) | [sl2' [-> E]]].
    + rewrite Enew. apply in_or_app. left. simpl in Ht.
      unfold keys in Ht. rewrite map_app in Ht. apply in_app_or in Ht.
      destruct Ht as [Ht | [Et | []]].
      * unfold station_tasks. rewrite Hsl.
        apply (Hpr sl (Py.str (S n)) st [] t x p); auto.
      * simpl in Et. subst t. rewrite Htx in Hx. injection Hx as <-.
        now apply Hpreds.
    + apply (Hpr sl1 k s (sl2' ++ [(Py.str (S n), st)]) t x p); auto.
      rewrite Hsl, E. rewrite <- app_assoc. reflexivity.
Qed.

Lemma Inv_length (inst : Instance) (n : nat) :
  NoDup (keys (task_list inst)) -> Inv inst n ->
  List.length (station_tasks inst) <= List.length (task_list inst).
Proof.
  intros _ [_ Hnd Hin _].
  rewrite <- (length_map fst (task_list inst)).
  apply NoDup_incl_length; assumption.
Qed.

Lemma Inv_current (inst : Instance) (n : nat) :
  Inv inst (S n) ->
  exists sl st,
    station_list inst = sl ++ [(Py.str (S n), st)]
    /\ ~ In (Py.str (S n)) (keys sl).
Proof.
  intros [Hk _ _ _].
  destruct (station_list inst) as [| a l] eqn:E.
  - simpl in Hk. discriminate.
  - destruct (@exists_last _ (a :: l) ltac:(discriminate))
      as [sl [[k st] Esl]].
    rewrite Esl in Hk. unfold keys in Hk.
    rewrite map_app, seq_S, map_app in Hk. simpl in Hk.
    apply app_inj_tail in Hk. destruct Hk as [Hk ->].
    exists sl, st. split; [assumption |].
    unfold keys. rewrite Hk. apply str_not_in_seq.
Qed.

Lemma same_problem_refl (inst : Instance) : same_problem inst inst.
Proof. repeat split. Qed.

Lemma same_problem_trans (a b d : Instance) :
  same_problem a b -> same_problem b d -> same_problem a d.
Proof.
  unfold same_problem. intros (? & ? & ? & ? & ?) (? & ? & ? & ? & ?).
  repeat split; congruence.
Qed.

Lemma same_problem_stations (inst : Instance) (sl : dict Station.t) :
  same_problem inst (with_station_list inst sl).
Proof. repeat split. Qed.

(** ** The station loop *)

Lemma station_loop_spec (fuel : nat) :
  forall (inst : Instance) (n : nat),
    NoDup (keys (task_list inst)) -> Inv inst (S n) ->
    match station_loop norm_cdf set_order fuel inst (Py.str (S n)) with
    | None => fuel <= remaining inst
    | Some (Raise _) => True
    | Some (Ok (inst', k)) =>
        Inv inst' (S n) /\ same_problem inst inst'
        /\ List.length (station_tasks inst') + 1
           = List.length (station_tasks inst) + k
        /\ exists sl st st',
            station_list inst = sl ++ [(Py.str (S n), st)]
            /\ station_list inst' = sl ++ [(Py.str (S n), st')]
            /\ (Station.out_line_cost st <> []
                \/ potential_tasks set_order inst <> [] ->
                Station.out_line_cost st' <> [])
    end.
Proof.
  induction fuel as [| f IH]; intros inst n Hnd Hinv; simpl; [lia |].
  destruct (Inv_current inst n Hinv) as (sl & st & Hsl & Hcur).
  pose proof (station_step_spec inst (Py.str (S n)) st sl Hsl Hcur) as Hstep.
  destruct (station_step norm_cdf set_order inst (Py.str (S n)))
    as [[inst1 |] | e]; [| | exact I].
  - destruct Hstep as [sel [Hpot ->]].
    pose proof (Inv_assign inst n sl st sel Hinv Hsl Hpot) as Hinv1.
    set (inst1 :=
           with_station_list inst
             (sl ++ [(Py.str (S n),
                      Station.Build (Station.station_id st)
                        (Station.out_line_cost st
                         ++ [(x0 sel, x4 sel)]))])) in *.
    assert (Hlen1 : List.length (station_tasks inst1)
                    = S (List.length (station_tasks inst))).
    { unfold station_tasks at 1. unfold inst1.
      cbn [station_list with_station_list].
      rewrite tasks_of_app, tasks_of_single.
      rewrite (station_tasks_snoc inst sl _ st Hsl).
      cbn [Station.out_line_cost]. unfold keys.
      rewrite !length_app, !length_map, length_app. simpl. lia. }
    pose proof (Inv_length inst1 (S n) Hnd Hinv1) as Hle1.
    specialize (IH inst1 n Hnd Hinv1).
    destruct (station_loop norm_cdf set_order f inst1 (Py.str (S n)))
      as [[[inst2 k] | e] |]; simpl.
    + destruct IH as (Hinv2 & Hsame & Hlen & sl' & st1 & st2 & E1 & E2 & Hne).
      split; [assumption |]. split.
      { apply (same_problem_trans inst inst1 inst2); [| assumption].
        apply same_problem_stations. }
      split; [lia |].
      unfold inst1 in E1. cbn [station_list with_station_list] in E1.
      apply app_inj_tail in E1. destruct E1 as [<- [= <-]].
      exists sl, st, st2. repeat split; try assumption.
      intros _. apply Hne. left. simpl.
      destruct (Station.out_line_cost st); discriminate.
    + exact I.
    + unfold remaining in *. change (task_list inst1) with (task_list inst) in *.
      lia.
  - split; [assumption |]. split; [apply same_problem_refl |].
    split; [lia |]. exists sl, st, st. repeat split; try assumption.
    intros [H | H]; [assumption |]. destruct Hstep; [contradiction | assumption].
Qed.

(** ** The tasks loop *)

Lemma tasks_loop_spec (fuel : nat) :
  forall (inst : Instance) (n : nat),
    NoDup (keys (task_list inst)) -> Inv inst n -> stations_nonempty inst ->
    match tasks_loop norm_cdf set_order fuel inst n with
    | None => fuel <= remaining inst + 1
    | Some (Raise _) => True
    | Some (Ok (inst', k)) =>
        (exists n', Inv inst' n') /\ stations_nonempty inst'
        /\ same_problem inst inst'
        /\ potential_tasks set_order inst' = []
        /\ k + 2 * List.length (station_tasks inst)
           <= 2 * List.length (station_tasks inst')
    end.
Proof.
  induction fuel as [| f IH]; intros inst n Hnd Hinv Hne; simpl; [lia |].
  destruct (0 <? List.length (potential_tasks set_order inst)) eqn:Ep.
  - apply ltb_length_nonempty in Ep. rewrite Nat.add_1_r.
    assert (Hnew : ~ In (Py.str (S n)) (keys (station_list inst))).
    { destruct Hinv as [Hk _ _ _]. rewrite Hk. apply str_not_in_seq. }
    pose proof (Inv_open inst n Hinv) as Hinv1.
    pose proof (potential_tasks_open inst (Py.str (S n)) Hnew) as Hpot1.
    set (inst1 :=
           with_station_list inst
             (dict_set (station_list inst) (Py.str (S n))
                (Station.init (Py.str (S n))))) in *.
    assert (Hsl1 : station_list inst1
                   = station_list inst
                     ++ [(Py.str (S n), Station.init (Py.str (S n)))]).
    { unfold inst1. cbn [station_list with_station_list].
      now apply dict_set_new. }
    assert (Hlen1 : station_tasks inst1 = station_tasks inst).
    { unfold station_tasks. rewrite Hsl1, tasks_of_app, tasks_of_single.
      simpl. apply app_nil_r. }
    pose proof (station_loop_spec f inst1 n Hnd Hinv1) as Hloop.
    destruct (station_loop norm_cdf set_order f inst1 (Py.str (S n)))
      as [[[inst2 k1] | e] |]; simpl.
    + destruct Hloop
        as (Hinv2 & Hsame2 & Hlen & sl & st & st' & E1 & E2 & Hst').
      rewrite Hsl1 in E1. apply app_inj_tail in E1.
      destruct E1 as [<- [= <-]].
      assert (Hne' : Station.out_line_cost st' <> []).
      { apply Hst'. right. now rewrite Hpot1. }
      assert (Hne2 : stations_nonempty inst2).
      { intros k st Hin. rewrite E2 in Hin. apply in_app_or in Hin.
        destruct Hin as [Hin | [[= <- <-] | []]];
          [now apply (Hne k st) | assumption]. }
      assert (Hnd2 : NoDup (keys (task_list inst2))).
      { destruct Hsame2 as (_ & -> & _). assumption. }
      assert (Hgrow : List.length (station_tasks inst)
                      < List.length (station_tasks inst2)).
      { unfold station_tasks at 2.
        rewrite E2, tasks_of_app, tasks_of_single, length_app.
        unfold station_tasks, keys. rewrite length_map.
        destruct (Station.out_line_cost st'); [congruence | simpl; lia]. }
      pose proof (Inv_length inst2 (S n) Hnd2 Hinv2) as Hle2.
      assert (Etl : task_list inst2 = task_list inst).
      { destruct Hsame2 as (_ & -> & _). reflexivity. }
      specialize (IH inst2 (S n) Hnd2 Hinv2 Hne2).
      destruct (tasks_loop norm_cdf set_order f inst2 (S n))
        as [[[inst3 k2] | e] |]; simpl.
      * destruct IH as (Hinv3 & Hne3 & Hsame3 & Hpot3 & Hk2).
        split; [assumption |]. split; [assumption |]. split.
        { apply (same_problem_trans inst inst1 inst3);
            [apply same_problem_stations |].
          apply (same_problem_trans inst1 inst2 inst3); assumption. }
        split; [assumption |]. rewrite Hlen1 in Hlen. lia.
      * exact I.
      * unfold remaining in *. rewrite Etl in *. lia.
    + exact I.
    + unfold remaining in *. rewrite Hlen1 in Hloop.
      change (task_list inst1) with (task_list inst) in Hloop. lia.
  - apply ltb_length_empty in Ep.
    split; [now exists n |]. split; [assumption |].
    split; [apply same_problem_refl |]. split; [assumption | lia].
Qed.

(** The passes of a run: one for every task assigned, and one more for
    every station opened (the pass that leaves the station loop). *)
Lemma tasks_loop_count (fuel : nat) :
  forall (inst : Instance) (n : nat),
    NoDup (keys (task_list inst)) -> Inv inst n -> stations_nonempty inst ->
    match tasks_loop norm_cdf set_order fuel inst n with
    | Some (Ok (inst', k)) =>
        k + List.length (station_tasks inst)
        + List.length (station_list inst)
        = List.length (station_tasks inst')
          + List.length (station_list inst')
    | _ => True
    end.
Proof.
  induction fuel as [| f IH]; intros inst n Hnd Hinv Hne; simpl;
    [exact I |].
  destruct (0 <? List.length (potential_tasks set_order inst)) eqn:Ep;
    [| lia].
  apply ltb_length_nonempty in Ep. rewrite Nat.add_1_r.
  assert (Hnew : ~ In (Py.str (S n)) (keys (station_list inst))).
  { destruct Hinv as [Hk _ _ _]. rewrite Hk. apply str_not_in_seq. }
  pose proof (Inv_open inst n Hinv) as Hinv1.
  pose proof (potential_tasks_open inst (Py.str (S n)) Hnew) as Hpot1.
  set (inst1 :=
         with_station_list inst
           (dict_set (station_list inst) (Py.str (S n))
              (Station.init (Py.str (S n))))) in *.
  assert (Hsl1 : station_list inst1
                 = station_list inst
                   ++ [(Py.str (S n), Station.init (Py.str (S n)))]).
  { unfold inst1. cbn [station_list with_station_list].
    now apply dict_set_new. }
  assert (Hlen1 : station_tasks inst1 = station_tasks inst).
  { unfold station_tasks. rewrite Hsl1, tasks_of_app, tasks_of_single.
    simpl. apply app_nil_r. }
  pose proof (station_loop_spec f inst1 n Hnd Hinv1) as Hloop.
  destruct (station_loop norm_cdf set_order f inst1 (Py.str (S n)))
    as [[[inst2 k1] | e] |]; simpl; [| exact I | exact I].
  destruct Hloop as (Hinv2 & Hsame2 & Hlen & sl & st & st' & E1 & E2 & Hst').
  rewrite Hsl1 in E1. apply app_inj_tail in E1.
  destruct E1 as [<- [= <-]].
  assert (Hne' : Station.out_line_cost st' <> []).
  { apply Hst'. right. now rewrite Hpot1. }
  assert (Hne2 : stations_nonempty inst2).
  { intros k st Hin. rewrite E2 in Hin. apply in_app_or in Hin.
    destruct Hin as [Hin | [[= <- <-] | []]];
      [now apply (Hne k st) | assumption]. }
  assert (Hnd2 : NoDup (keys (task_list inst2))).
  { destruct Hsame2 as (_ & -> & _). assumption. }
  assert (Hsl2 : List.length (station_list inst2)
                 = S (List.length (station_list inst))).
  { rewrite E2, length_app. simpl. lia. }
  specialize (IH inst2 (S n) Hnd2 Hinv2 Hne2).
  destruct (tasks_loop norm_cdf set_order f inst2 (S n))
    as [[[inst3 k2] | e] |]; simpl; [| exact I | exact I].
  rewrite Hlen1 in Hlen. lia.
Qed.

(** ** What a run of [execute_algorithm] that returns has done *)

Lemma execute_algorithm_passes_Ok (fuel : nat) (inst inst' : Instance)
  (k : nat) :
  execute_algorithm_passes norm_cdf set_order fuel inst = Some (Ok (inst', k))
  <-> exists inst1,
      tasks_loop norm_cdf set_order fuel inst 0 = Some (Ok (inst1, k))
      /\ inst' = compute_total_unit_cost inst1.
Proof.
  unfold execute_algorithm_passes.
  destruct (tasks_loop norm_cdf set_order fuel inst 0)
    as [[[inst1 k1] | e] |]; simpl.
  - split.
    + intros [= <- <-]. now exists inst1.
    + intros [i [[= <- <-] ->]]. reflexivity.
  - split; [discriminate | intros [i [H _]]; discriminate].
  - split; [discriminate | intros [i [H _]]; discriminate].
Qed.

Lemma execute_algorithm_Ok (fuel : nat) (inst inst' : Instance) :
  execute_algorithm norm_cdf set_order fuel inst = Some (Ok inst')
  <-> exists k,
      execute_algorithm_passes norm_cdf set_order fuel inst
      = Some (Ok (inst', k)).
Proof.
  unfold execute_algorithm.
  destruct (execute_algorithm_passes norm_cdf set_order fuel inst)
    as [[[inst1 k1] | e] |]; simpl.
  - split.
    + intros [= <-]. now exists k1.
    + intros [k [= <- _]]. reflexivity.
  - split; [discriminate | intros [k H]; discriminate].
  - split; [discriminate | intros [k H]; discriminate].
Qed.

(** A run from an instance without stations ends, when it returns, in a
    state that satisfies the invariant, with no available task left, no
    empty station, and after at most two passes per assigned task. *)
Lemma run_spec (fuel : nat) (inst inst' : Instance) (k : nat) :
  NoDup (keys (task_list inst)) -> station_list inst = [] ->
  execute_algorithm_passes norm_cdf set_order fuel inst
  = Some (Ok (inst', k)) ->
  (exists n', Inv inst' n') /\ stations_nonempty inst'
  /\ task_list inst' = task_list inst
  /\ potential_tasks set_order inst' = []
  /\ k <= 2 * List.length (station_tasks inst').
Proof.
  intros Hnd Hfresh H. apply execute_algorithm_passes_Ok in H.
  destruct H as [inst1 [H ->]].
  pose proof (tasks_loop_spec fuel inst 0 Hnd (Inv_fresh inst Hfresh)) as Hs.
  rewrite H in Hs.
  destruct Hs as ([n' Hinv] & Hne & Hsame & Hpot & Hk).
  - intros a st Hin. rewrite Hfresh in Hin. destruct Hin.
  - split.
    { exists n'. destruct Hinv as [h1 h2 h3 h4]. split; assumption. }
    split; [exact Hne |]. split; [apply Hsame |].
    split; [exact Hpot |]. unfold station_tasks in *.
    cbn [station_list compute_total_unit_cost with_total_unit_cost]. lia.
Qed.

Lemma run_terminates (fuel : nat) (inst : Instance) :
  NoDup (keys (task_list inst)) -> station_list inst = [] ->
  List.length (task_list inst) + 2 <= fuel ->
  exists r, execute_algorithm_passes norm_cdf set_order fuel inst = Some r.
Proof.
  intros Hnd Hfresh Hfuel.
  pose proof (tasks_loop_spec fuel inst 0 Hnd (Inv_fresh inst Hfresh)) as Hs.
  unfold execute_algorithm_passes.
  destruct (tasks_loop norm_cdf set_order fuel inst 0)
    as [[[inst1 k1] | e] |]; simpl; eauto.
  assert (Hne : stations_nonempty inst)
    by (intros a st Hin; rewrite Hfresh in Hin; destruct Hin).
  specialize (Hs Hne). unfold remaining in Hs. lia.
Qed.

(** ** Coverage *)

Lemma all_assigned (inst : Instance) :
  acyclic inst -> predecessors_present inst ->
  potential_tasks set_order inst = [] ->
  forall k, In k (keys (task_list inst)) -> In k (station_tasks inst).
Proof.
  intros [rank Hrank] Hpres Hpot.
  assert (H : forall m k, rank k < m -> In k (keys (task_list inst)) ->
                          In k (station_tasks inst)).
  { induction m as [| m IH]; intros k Hm Hk; [lia |].
    destruct (in_dec string_dec k (station_tasks inst)) as [Hin | Hnin];
      [assumption | exfalso].
    destruct (dict_get_In_keys _ _ Hk) as [t Ht].
    pose proof (dict_get_Some_In _ _ _ Ht) as Hin.
    assert (Hp : In k (potential_tasks set_order inst)).
    { apply potential_tasks_In. repeat split; try assumption.
      apply available_spec. exists t. split; [assumption |].
      intros p Hp. apply IH.
      - specialize (Hrank k t p Hin Hp). lia.
      - now apply (Hpres k t p). }
    rewrite Hpot in Hp. destruct Hp. }
  intros k Hk. apply (H (S (rank k))); [lia | assumption].
Qed.

Lemma NoDup_app_disjoint {A : Type} (a b : list A) (x : A) :
  NoDup (a ++ b) -> In x a -> ~ In x b.
Proof.
  induction a as [| y a IH]; simpl; [intros _ [] |].
  intros H [-> | Hin] Hb.
  - inversion H as [| ? ? Hn _]. apply Hn. apply in_or_app. now right.
  - inversion H as [| ? ? _ Hnd]. now apply IH.
Qed.

Lemma one_station (sl : dict Station.t) (t : string) :
  NoDup (tasks_of sl) -> In t (tasks_of sl) ->
  exists sl1 k st sl2,
    sl = sl1 ++ (k, st) :: sl2 /\ In t (keys (Station.out_line_cost st))
    /\ ~ In t (tasks_of (sl1 ++ sl2)).
Proof.
  intros Hnd Hin. unfold tasks_of in Hin. apply in_flat_map in Hin.
  destruct Hin as [st [Hst Ht]]. unfold values in Hst.
  apply in_map_iff in Hst. destruct Hst as [[k st'] [E Hks]].
  simpl in E. subst st'. apply in_split in Hks.
  destruct Hks as [sl1 [sl2 ->]]. exists sl1, k, st, sl2.
  split; [reflexivity |]. split; [assumption |].
  change ((k, st) :: sl2) with ([(k, st)] ++ sl2) in Hnd.
  rewrite !tasks_of_app, tasks_of_single in Hnd.
  rewrite tasks_of_app. intros Hin. apply in_app_or in Hin.
  destruct Hin as [Hin | Hin].
  - apply (NoDup_app_disjoint _ _ t Hnd Hin). apply in_or_app. now left.
  - apply NoDup_app_remove_l in Hnd.
    now apply (NoDup_app_disjoint _ _ t Hnd Ht).
Qed.

(** C3: on an instance without stations whose precedence graph is acyclic
    and names only tasks of the instance, a run of [execute_algorithm] that
    returns (no classification step was undefined) leaves every task in the
    assignment map of exactly one station, and the tasks of the stations
    are exactly the tasks of the instance. *)
Theorem coverage (fuel : nat) (inst inst' : Instance) :
  NoDup (keys (task_list inst)) -> station_list inst = [] ->
  acyclic inst -> predecessors_present inst ->
  execute_algorithm norm_cdf set_order fuel inst = Some (Ok inst') ->
  (forall t, In t (keys (task_list inst)) ->
     exists sl1 k st sl2,
       station_list inst' = sl1 ++ (k, st) :: sl2
       /\ In t (keys (Station.out_line_cost st))
       /\ ~ In t (tasks_of (sl1 ++ sl2)))
  /\ (forall t, In t (station_tasks inst') <-> In t (keys (task_list inst))).
Proof.
  intros Hnd Hfresh Hacyc Hpres H. apply execute_algorithm_Ok in H.
  destruct H as [k H].
  destruct (run_spec fuel inst inst' k Hnd Hfresh H)
    as ([n' Hinv] & _ & Htl & Hpot & _).
  assert (Hall : forall t, In t (keys (task_list inst)) ->
                           In t (station_tasks inst')).
  { intros t Ht. apply all_assigned; try assumption.
    - destruct Hacyc as [rank Hr]. exists rank. now rewrite Htl.
    - unfold predecessors_present. now rewrite Htl.
    - now rewrite Htl. }
  split.
  - intros t Ht. apply one_station; [apply Hinv | now apply Hall].
  - intros t. split; [| apply Hall].
    intros Ht. rewrite <- Htl. now apply (inv_incl _ _ Hinv).
Qed.

Lemma key_at (sl a b : dict Station.t) (n : nat) (k : string)
  (s : Station.t) :
  keys sl = map Py.str (seq 1 n) -> sl = a ++ (k, s) :: b ->
  k = Py.str (S (List.length a)).
Proof.
  intros Hk ->. unfold keys in Hk. rewrite map_app in Hk. simpl in Hk.
  assert (Hlen : List.length a < n).
  { apply (f_equal (@List.length string)) in Hk.
    rewrite length_app, !length_map, length_seq in Hk. simpl in Hk. lia. }
  apply (f_equal (fun l => nth (List.length a) l (Py.str 0))) in Hk.
  rewrite app_nth2 in Hk by (rewrite length_map; lia).
  rewrite length_map, Nat.sub_diag in Hk. simpl in Hk.
  rewrite map_nth, seq_nth in Hk by assumption. exact Hk.
Qed.

Lemma dict_get_set_other {V : Type} (d : dict V) (k k' : string) (v : V) :
  k <> k' -> dict_get (dict_set d k' v) k = dict_get d k.
Proof.
  intros Hne. induction d as [| [k0 v0] d IH]; simpl.
  - destruct (String.eqb_spec k k'); [contradiction | reflexivity].
  - destruct (String.eqb_spec k' k0) as [-> | Hne0]; simpl.
    + destruct (String.eqb_spec k k0); [contradiction | reflexivity].
    + destruct (String.eqb_spec k k0); [reflexivity | assumption].
Qed.

Lemma station_step_Continue (inst inst' : Instance) (cur : string) :
  station_step norm_cdf set_order inst cur = Ok (Continue inst') ->
  exists st sel,
    dict_get (station_list inst) cur = Some st
    /\ inst' =
       with_station_list inst
         (dict_set (station_list inst) cur
            (Station.Build (Station.station_id st)
               (dict_set (Station.out_line_cost st) (x0 sel) (x4 sel)))).
Proof.
  unfold station_step.
  destruct (classify norm_cdf set_order inst cur) as [rows |]; simpl;
    [| discriminate].
  destruct (List.length (potential_tasks set_order inst) =? 0);
    [discriminate |].
  destruct (select_task inst cur rows) as [[sel |] |]; simpl;
    try discriminate.
  unfold assign, dict_item.
  destruct (dict_get (station_list inst) cur) as [st |]; simpl;
    [| discriminate].
  intros [= <-]. now exists st, sel.
Qed.

(** C4: after a run from an instance without stations, every predecessor
    of an assigned task is assigned, and each station that holds it has a
    numeric index less than or equal to the index of the station that holds
    the task; a pass of the station loop changes no station but the current
    one. *)
Theorem precedence_respect (fuel : nat) (inst inst' : Instance) :
  NoDup (keys (task_list inst)) -> station_list inst = [] ->
  execute_algorithm norm_cdf set_order fuel inst = Some (Ok inst') ->
  (forall kt st t x p,
      In (kt, st) (station_list inst') ->
      In t (keys (Station.out_line_cost st)) ->
      dict_get (task_list inst') t = Some x ->
      In p (Task.predecessor_set x) ->
      (exists kp sp,
          In (kp, sp) (station_list inst')
          /\ In p (keys (Station.out_line_cost sp)))
      /\ (forall kp sp,
             In (kp, sp) (station_list inst') ->
             In p (keys (Station.out_line_cost sp)) ->
             exists i j,
               Py.int kt = Some i /\ Py.int kp = Some j /\ j <= i))
  /\ (forall i i1 cur,
         station_step norm_cdf set_order i cur = Ok (Continue i1) ->
         forall k, k <> cur ->
                   dict_get (station_list i1) k = dict_get (station_list i) k).
Proof.
  intros Hnd Hfresh H. split.
  - apply execute_algorithm_Ok in H. destruct H as [n H].
    destruct (run_spec fuel inst inst' n Hnd Hfresh H)
      as ([n' Hinv] & _ & _ & _ & _).
    intros kt st t x p Hst Ht Hx Hp.
    apply in_split in Hst. destruct Hst as [sl1 [sl2 Esl]].
    pose proof (inv_prec _ _ Hinv sl1 kt st sl2 t x p Esl Ht Hx Hp) as Hin.
    split.
    + unfold tasks_of in Hin. apply in_flat_map in Hin.
      destruct Hin as [sp [Hsp Hpin]]. unfold values in Hsp.
      apply in_map_iff in Hsp. destruct Hsp as [[kp sp'] [E Hks]].
      simpl in E. subst sp'. exists kp, sp. split; [| assumption].
      rewrite Esl. apply in_app_or in Hks. apply in_or_app.
      destruct Hks as [Hks | [Hks | []]]; [now left | right; now left].
    + intros kp sp Hsp Hpin.
      pose proof (inv_nodup _ _ Hinv) as Hno. unfold station_tasks in Hno.
      rewrite Esl in Hsp, Hno.
      change ((kt, st) :: sl2) with ([(kt, st)] ++ sl2) in Hsp, Hno.
      rewrite app_assoc in Hsp, Hno. rewrite tasks_of_app in Hno.
      apply in_app_or in Hsp. destruct Hsp as [Hsp | Hsp].
      * apply in_split in Hsp. destruct Hsp as [a [b Eab]].
        assert (Ekt : kt = Py.str (S (List.length sl1)))
          by (apply (key_at _ _ _ _ _ _ (inv_keys _ _ Hinv) Esl)).
        assert (Ekp : kp = Py.str (S (List.length a))).
        { apply (key_at (station_list inst') a (b ++ sl2) n' kp sp
                   (inv_keys _ _ Hinv)).
          rewrite Esl.
          change ((kt, st) :: sl2) with ([(kt, st)] ++ sl2).
          rewrite app_assoc, Eab, <- app_assoc. reflexivity. }
        exists (S (List.length sl1)), (S (List.length a)).
        rewrite Ekt, Ekp, !int_str. repeat split.
        apply (f_equal (@List.length (string * Station.t))) in Eab.
        rewrite !length_app in Eab. simpl in Eab. lia.
      * exfalso. apply (NoDup_app_disjoint _ _ p Hno Hin).
        unfold tasks_of. apply in_flat_map. exists sp. split; [| assumption].
        unfold values. change sp with (snd (kp, sp)). now apply in_map.
  - intros i i1 cur Hs k Hk. apply station_step_Continue in Hs.
    destruct Hs as (st & sel & _ & ->). cbn [station_list with_station_list].
    now apply dict_get_set_other.
Qed.

(** C10: a run from an instance without stations that returns leaves no
    station with an empty assignment map. *)
Theorem no_empty_station (fuel : nat) (inst inst' : Instance) :
  NoDup (keys (task_list inst)) -> station_list inst = [] ->
  execute_algorithm norm_cdf set_order fuel inst = Some (Ok inst') ->
  stations_nonempty inst'.
Proof.
  intros Hnd Hfresh H. apply execute_algorithm_Ok in H.
  destruct H as [k H].
  now destruct (run_spec fuel inst inst' k Hnd Hfresh H) as (_ & Hne & _).
Qed.

Lemma run_count (fuel : nat) (inst inst' : Instance) (k : nat) :
  NoDup (keys (task_list inst)) -> station_list inst = [] ->
  execute_algorithm_passes norm_cdf set_order fuel inst
  = Some (Ok (inst', k)) ->
  k = List.length (station_tasks inst') + List.length (station_list inst').
Proof.
  intros Hnd Hfresh H. apply execute_algorithm_passes_Ok in H.
  destruct H as [inst1 [H ->]].
  pose proof (tasks_loop_count fuel inst 0 Hnd (Inv_fresh inst Hfresh))
    as Hc.
  rewrite H in Hc. unfold station_tasks in *.
  cbn [station_list compute_total_unit_cost with_total_unit_cost].
  rewrite Hfresh in Hc. simpl in Hc. rewrite <- Hc; [lia |].
  intros a st Hin. rewrite Hfresh in Hin. destruct Hin.
Qed.

Lemma tasks_of_nil_length (sl : dict Station.t) :
  tasks_of sl <> [] -> 1 <= List.length sl.
Proof. destruct sl; [intros H; now elim H | simpl; lia]. Qed.

(** C8, amended: on an instance with [n] tasks and no station, with fuel
    [n + 2] the run ends (it returns or raises); when it returns, the body
    of the station loop was entered once for every task assigned and once
    more for every station, so at most [2 * n] times, hence at most
    [n * n] times when [2 <= n].  When moreover the precedence graph is
    acyclic and names only tasks of the instance, and [1 <= n], it was
    entered more than [n] times: exactly twice for [n = 1]. *)
Theorem passes_bound (fuel : nat) (inst : Instance) :
  NoDup (keys (task_list inst)) -> station_list inst = [] ->
  List.length (task_list inst) + 2 <= fuel ->
  exists r,
    execute_algorithm_passes norm_cdf set_order fuel inst = Some r
    /\ forall inst' k,
        r = Ok (inst', k) ->
        k = List.length (station_tasks inst')
            + List.length (station_list inst')
        /\ k <= 2 * List.length (task_list inst)
        /\ (2 <= List.length (task_list inst) ->
            k <= List.length (task_list inst) * List.length (task_list inst))
        /\ (acyclic inst -> predecessors_present inst ->
            1 <= List.length (task_list inst) ->
            List.length (task_list inst) < k
            /\ (List.length (task_list inst) = 1 -> k = 2)).
Proof.
  intros Hnd Hfresh Hfuel.
  destruct (run_terminates fuel inst Hnd Hfresh Hfuel) as [r Hr].
  exists r. split; [assumption |]. intros inst' k ->.
  destruct (run_spec fuel inst inst' k Hnd Hfresh Hr)
    as ([n' Hinv] & _ & Htl & Hpot & Hk).
  pose proof (run_count fuel inst inst' k Hnd Hfresh Hr) as Hcount.
  assert (Hle : List.length (station_tasks inst')
                <= List.length (task_list inst)).
  { rewrite <- Htl. apply (Inv_length inst' n'); [| assumption].
    now rewrite Htl. }
  split; [assumption |]. split; [lia |]. split; [nia |].
  intros Hacyc Hpres Hn.
  assert (Hall : incl (keys (task_list inst)) (station_tasks inst')).
  { intros t Ht. apply all_assigned; try assumption.
    - destruct Hacyc as [rank Hrank]. exists rank. now rewrite Htl.
    - unfold predecessors_present. now rewrite Htl.
    - now rewrite Htl. }
  assert (Hge : List.length (task_list inst)
                <= List.length (station_tasks inst')).
  { rewrite <- (length_map fst (task_list inst)).
    now apply NoDup_incl_length. }
  assert (Hst : 1 <= List.length (station_list inst')).
  { apply tasks_of_nil_length. fold (station_tasks inst').
    destruct (station_tasks inst'); [simpl in Hge; lia | discriminate]. }
  lia.
Qed.

(** ** The total unit cost *)



Lemma fold_costs (sts : list Station.t) (a : float) :
  fold_left
    (fun acc station =>
       fold_left PrimFloat.add (values (Station.out_line_cost station)) acc)
    sts a
  = fold_left PrimFloat.add
      (flat_map (fun st => values (Station.out_line_cost st)) sts) a.
Proof.
  revert a. induction sts as [| st sts IH]; intros a; simpl.
  - reflexivity.
  - now rewrite fold_left_app, IH.
Qed.

(** ** The risk classifier *)

Lemma mapM_lookup {B : Type} (tl : dict Task.t) (f : Task.t -> B)
  (ks : list string) (ts : list Task.t) :
  Forall2 (fun k t => dict_get tl k = Some t) ks ts ->
  mapM (fun t => x <- dict_item tl t ;; Ok (f x)) ks = Ok (map f ts).
Proof.
  induction 1 as [| k t ks ts Hk _ IH]; simpl; [reflexivity |].
  unfold dict_item at 1. rewrite Hk. simpl. now rewrite IH.
Qed.

Lemma sum_with_eq (l : list float) (x : float) :
  (if 0 <? List.length l
   then r <- Py.reduce_add l ;; Ok (r + x)%float
   else Ok x) = Ok (sum_with l x).
Proof. destruct l; reflexivity. Qed.

(** C5: for a candidate task and a station whose variance sum [S] (the
    station's tasks plus the candidate) is positive, [compute_status]
    returns [z = (T - M) / sqrt S], the task's out-completion cost,
    [(1 - cdf z) * out_completion_cost] and the number of successors; the
    status is safe iff [z > 2.575], desirable iff [z <= 2.575] and
    [z > z_limit], and critical otherwise. *)
Theorem compute_status_spec (inst : Instance) (task_id : string)
  (station : Station.t) (task : Task.t) (ts : list Task.t)
  (occ zl : float) (ns : nat) :
  dict_get (task_list inst) task_id = Some task ->
  Forall2 (fun k t => dict_get (task_list inst) k = Some t)
    (keys (Station.out_line_cost station)) ts ->
  Task.out_completion_cost task = Some occ ->
  Task.z_limit task = Some zl ->
  Task.n_successors task = Some ns ->
  let M := sum_with (map Task.m ts) (Task.m task) in
  let S := sum_with (map Task.s ts) (Task.s task) in
  (0 <? S)%float = true ->
  let z := ((T inst - M) / PrimFloat.sqrt S)%float in
  exists stat,
    compute_status norm_cdf inst task_id station
    = Ok (stat, z, occ, ((1 - norm_cdf z) * occ)%float, ns)
    /\ (stat = safe <-> (0x1.499999999999ap+1 <? z)%float = true)
    /\ (stat = desirable <->
        (z <=? 0x1.499999999999ap+1)%float = true
        /\ (zl <? z)%float = true)
    /\ (stat = critical <->
        ~ (0x1.499999999999ap+1 <? z)%float = true
        /\ ~ ((z <=? 0x1.499999999999ap+1)%float = true
              /\ (zl <? z)%float = true)).
Proof using norm_cdf.
  clear norm_ppf.
  intros Htask Hst Hocc Hzl Hns M S HS z.
  unfold compute_status.
  rewrite (mapM_lookup _ Task.m _ _ Hst). cbn [bind].
  unfold dict_item at 1. rewrite Htask. cbn [bind].
  rewrite sum_with_eq. cbn [bind].
  rewrite (mapM_lookup _ Task.s _ _ Hst). cbn [bind].
  rewrite sum_with_eq. cbn [bind].
  fold M S. unfold Py.sqrt. rewrite (ltb_asym _ _ HS). cbn [bind].
  unfold Py.div. rewrite (sqrt_pos _ HS). cbn [bind]. fold z.
  rewrite Hocc, Hns, Hzl. cbn [bind Py.attr].
  destruct (0x1.499999999999ap+1 <? z)%float eqn:Esafe; cbn [bind].
  - exists safe. split; [reflexivity |].
    destruct (ltb_not_nan _ _ Esafe) as [Hn1 Hn2].
    rewrite (leb_negb_ltb _ _ Hn2 Hn1), Esafe. simpl.
    repeat split; try discriminate; intuition discriminate.
  - destruct (zl <? z)%float eqn:Edes; cbn [bind].
    + exists desirable. split; [reflexivity |].
      destruct (ltb_not_nan _ _ Edes) as [_ Hn2].
      rewrite (leb_negb_ltb z 0x1.499999999999ap+1 Hn2 eq_refl), Esafe.
      simpl.
      repeat split; try discriminate; intuition discriminate.
    + exists critical. split; [reflexivity |].
      repeat split; try discriminate; intuition discriminate.
Qed.

(** ** The selection among the classified tasks *)

Lemma compute_status_Ok (inst : Instance) (task_id : string)
  (station : Station.t) (stat : status) (z o e : float) (n : nat) :
  compute_status norm_cdf inst task_id station = Ok (stat, z, o, e, n) ->
  exists task,
    dict_get (task_list inst) task_id = Some task
    /\ Task.out_completion_cost task = Some o
    /\ Task.n_successors task = Some n
    /\ e = ((1 - norm_cdf z) * o)%float.
Proof.
  unfold compute_status. intros H. do 10 inv_bind H.
  injection H as <- <- <- <- <-.
  match goal with
  | E : dict_item (task_list inst) task_id = Ok ?t |- _ =>
      exists t; apply dict_item_Ok in E
  end.
  repeat match goal with
         | E : Py.attr ?o = Ok _ |- _ =>
             destruct o; cbn [Py.attr] in E; [injection E as -> | discriminate E]
         end.
  repeat split; assumption || reflexivity.
Qed.

Lemma Forall2_In_r {A B : Type} (R : A -> B -> Prop) (l : list A)
  (bs : list B) (b : B) :
  Forall2 R l bs -> In b bs -> exists a, In a l /\ R a b.
Proof.
  induction 1 as [| a b' l bs Hab _ IH]; simpl; [intros [] |].
  intros [<- | Hin].
  - exists a. auto.
  - destruct (IH Hin) as [a' [Ha' Hr]]. exists a'. auto.
Qed.

Lemma classify_rows (inst : Instance) (cur : string) (st : Station.t)
  (rows : list Row) (x : Row) :
  dict_get (station_list inst) cur = Some st ->
  classify norm_cdf set_order inst cur = Ok rows -> In x rows ->
  compute_status norm_cdf inst (x0 x) st
  = Ok (x1 x, x2 x, x3 x, x4 x, x5 x).
Proof.
  intros Hst H Hin. unfold classify in H. apply mapM_Ok_Forall2 in H.
  destruct (Forall2_In_r _ _ _ _ H Hin) as [a [_ Ha]].
  unfold dict_item in Ha. rewrite Hst in Ha. cbn [bind] in Ha.
  destruct (compute_status norm_cdf inst a st)
    as [[[[[s z] o] e] n] |] eqn:Ec; cbn [bind] in Ha; [| discriminate].
  injection Ha as <-. exact Ec.
Qed.

Lemma filter_status (rows : list Row) (s : status) (x : Row) :
  In x (filter (fun y => status_eqb (x1 y) s) rows) -> x1 x = s.
Proof.
  intros H. apply filter_In in H. destruct H as [_ H].
  destruct (x1 x), s; simpl in H; congruence.
Qed.

Lemma station_step_select (inst : Instance) (cur : string)
  (rows : list Row) (sel : Row) :
  classify norm_cdf set_order inst cur = Ok rows -> rows <> [] ->
  select_task inst cur rows = Ok (Some sel) ->
  station_step norm_cdf set_order inst cur
  = (inst' <- assign inst cur sel ;; Ok (Continue inst')).
Proof.
  intros Hc Hne Hs. unfold station_step. rewrite Hc. cbn [bind].
  pose proof (classify_x0 _ _ _ Hc) as Hx0.
  apply (f_equal (@List.length string)) in Hx0.
  rewrite length_map, set_order_length in Hx0. rewrite <- Hx0.
  destruct rows as [| r rows]; [congruence |]. simpl List.length.
  cbn [Nat.eqb]. rewrite Hs. reflexivity.
Qed.

Lemma select_not_first (inst : Instance) (cur : string) (st : Station.t)
  (rows : list Row) :
  dict_get (station_list inst) cur = Some st ->
  filter (fun x => status_eqb (x1 x) critical) rows = []
  \/ Station.out_line_cost st <> [] ->
  (if 0 <? List.length (filter (fun x => status_eqb (x1 x) critical) rows)
   then station <- dict_item (station_list inst) cur ;;
        Ok (List.length (keys (Station.out_line_cost station)) =? 0)
   else Ok false) = Ok false.
Proof.
  intros Hst H.
  destruct (0 <? List.length
                   (filter (fun x => status_eqb (x1 x) critical) rows))
    eqn:Ec; [| reflexivity].
  apply ltb_length_nonempty in Ec. destruct H as [H | H]; [contradiction |].
  unfold dict_item. rewrite Hst. cbn [bind]. f_equal.
  apply Nat.eqb_neq. unfold keys. rewrite length_map.
  destruct (Station.out_line_cost st); [congruence | discriminate].
Qed.

(** C1, amended: in a pass of the station loop in which the case of a
    critical task with an empty station does not apply and some available
    task is safe, the selected task is the safe task with the highest
    out-completion cost [x3] (not the highest expected out-of-line cost
    [x4]), the first such in iteration order; it is the one assigned. *)
Theorem select_safe_task (inst : Instance) (cur : string) (st : Station.t)
  (rows : list Row) :
  dict_get (station_list inst) cur = Some st ->
  classify norm_cdf set_order inst cur = Ok rows ->
  let critical_tasks :=
    filter (fun x => status_eqb (x1 x) critical) rows in
  let safe_tasks := filter (fun x => status_eqb (x1 x) safe) rows in
  critical_tasks = [] \/ Station.out_line_cost st <> [] ->
  safe_tasks <> [] ->
  Forall (fun x => PrimFloat.is_nan (x3 x) = false) safe_tasks ->
  exists l1 sel l2 task,
    safe_tasks = l1 ++ sel :: l2
    /\ (forall y, In y l1 -> (x3 y <? x3 sel)%float = true)
    /\ (forall y, In y l2 -> (x3 sel <? x3 y)%float = false)
    /\ compute_status norm_cdf inst (x0 sel) st
       = Ok (safe, x2 sel, x3 sel, x4 sel, x5 sel)
    /\ dict_get (task_list inst) (x0 sel) = Some task
    /\ Task.out_completion_cost task = Some (x3 sel)
    /\ x4 sel = ((1 - norm_cdf (x2 sel)) * x3 sel)%float
    /\ station_step norm_cdf set_order inst cur
       = (inst' <- assign inst cur sel ;; Ok (Continue inst')).
Proof.
  intros Hst Hc crit saf Hfirst Hne Hnan.
  destruct (sorted_reverse_first PrimFloat.ltb x3
              (fun k => PrimFloat.is_nan k = false)
              ltb_trans ltb_negtrans saf Hnan Hne)
    as (l1 & sel & l2 & r & El & Es & H1 & H2).
  assert (Hin : In sel saf) by (rewrite El; apply in_or_app; right; now left).
  assert (Hrows : In sel rows) by (apply filter_In in Hin; apply Hin).
  pose proof (classify_rows inst cur st rows sel Hst Hc Hrows) as Hcs.
  rewrite (filter_status rows safe sel Hin) in Hcs.
  destruct (compute_status_Ok _ _ _ _ _ _ _ _ Hcs)
    as (task & Ht & Ho & _ & He).
  exists l1, sel, l2, task. repeat split; try assumption.
  apply (station_step_select inst cur rows sel); [assumption | |].
  - intros E. rewrite E in Hrows. destruct Hrows.
  - unfold select_task. fold crit. fold saf.
    unfold crit. rewrite (select_not_first inst cur st rows Hst Hfirst).
    cbn [bind]. apply ltb_length_nonempty in Hne. rewrite Hne, Es.
    reflexivity.
Qed.

(** C2, amended: in a pass of the station loop in which the case of a
    critical task with an empty station does not apply, no available task
    is safe and some is desirable, the selected task is the desirable task
    with the lowest out-completion cost [x3] (not the lowest expected
    out-of-line cost [x4]), the first such in iteration order; it is the
    one assigned. *)
Theorem select_desirable_task (inst : Instance) (cur : string)
  (st : Station.t) (rows : list Row) :
  dict_get (station_list inst) cur = Some st ->
  classify norm_cdf set_order inst cur = Ok rows ->
  let critical_tasks :=
    filter (fun x => status_eqb (x1 x) critical) rows in
  let safe_tasks := filter (fun x => status_eqb (x1 x) safe) rows in
  let desirable_tasks :=
    filter (fun x => status_eqb (x1 x) desirable) rows in
  critical_tasks = [] \/ Station.out_line_cost st <> [] ->
  safe_tasks = [] ->
  desirable_tasks <> [] ->
  Forall (fun x => PrimFloat.is_nan (x3 x) = false) desirable_tasks ->
  exists l1 sel l2 task,
    desirable_tasks = l1 ++ sel :: l2
    /\ (forall y, In y l1 -> (x3 sel <? x3 y)%float = true)
    /\ (forall y, In y l2 -> (x3 y <? x3 sel)%float = false)
    /\ compute_status norm_cdf inst (x0 sel) st
       = Ok (desirable, x2 sel, x3 sel, x4 sel, x5 sel)
    /\ dict_get (task_list inst) (x0 sel) = Some task
    /\ Task.out_completion_cost task = Some (x3 sel)
    /\ x4 sel = ((1 - norm_cdf (x2 sel)) * x3 sel)%float
    /\ station_step norm_cdf set_order inst cur
       = (inst' <- assign inst cur sel ;; Ok (Continue inst')).
Proof.
  intros Hst Hc crit saf des Hfirst Hsafe Hne Hnan.
  destruct (sorted_first PrimFloat.ltb x3
              (fun k => PrimFloat.is_nan k = false)
              ltb_trans ltb_negtrans des Hnan Hne)
    as (l1 & sel & l2 & r & El & Es & H1 & H2).
  assert (Hin : In sel des) by (rewrite El; apply in_or_app; right; now left).
  assert (Hrows : In sel rows) by (apply filter_In in Hin; apply Hin).
  pose proof (classify_rows inst cur st rows sel Hst Hc Hrows) as Hcs.
  rewrite (filter_status rows desirable sel Hin) in Hcs.
  destruct (compute_status_Ok _ _ _ _ _ _ _ _ Hcs)
    as (task & Ht & Ho & _ & He).
  exists l1, sel, l2, task. repeat split; try assumption.
  apply (station_step_select inst cur rows sel); [assumption | |].
  - intros E. rewrite E in Hrows. destruct Hrows.
  - unfold select_task. fold crit. fold saf. fold des.
    unfold crit. rewrite (select_not_first inst cur st rows Hst Hfirst).
    cbn [bind]. unfold saf in Hsafe. unfold saf. rewrite Hsafe.
    change (0 <? List.length (@nil Row)) with false. cbv iota.
    apply ltb_length_nonempty in Hne. unfold des in Hne, Es.
    unfold des. rewrite Hne, Es. reflexivity.
Qed.

(** ** The constructor: derived fields *)

Lemma successors_fold_In (task_id : string) (l : dict Task.t)
  (acc : list string) (x : string) :
  In x (fold_left
          (fun successors kt =>
             if set_mem task_id (Task.predecessor_set (snd kt))
             then set_add (fst kt) successors else successors) l acc) ->
  In x acc \/ In x (keys l).
Proof.
  revert acc. induction l as [| [k t] l IH]; intros acc; simpl; [auto |].
  intros H. apply IH in H. destruct H as [H | H]; [| auto].
  destruct (set_mem task_id (Task.predecessor_set t)); [| auto].
  apply set_add_In in H. destruct H as [-> | H]; auto.
Qed.

Lemma successors_of_In (inst : Instance) (task_id x : string) :
  In x (successors_of inst task_id) -> In x (keys (task_list inst)).
Proof.
  intros H. apply successors_fold_In in H. destruct H as [[] | H].
  assumption.
Qed.

(** The number of tasks that the traversal has not visited. *)
Lemma filter_length_le {A : Type} (p q : A -> bool) (l : list A) :
  (forall x, In x l -> q x = true -> p x = true) ->
  List.length (filter q l) <= List.length (filter p l).
Proof.
  induction l as [| a l IH]; intros H; simpl; [lia |].
  assert (IH' : List.length (filter q l) <= List.length (filter p l))
    by (apply IH; intros x Hx; apply H; now right).
  destruct (q a) eqn:Eq.
  - rewrite (H a (or_introl eq_refl) Eq). simpl. lia.
  - destruct (p a); simpl; lia.
Qed.

Lemma filter_length_lt {A : Type} (p q : A -> bool) (l : list A) (y : A) :
  (forall x, In x l -> q x = true -> p x = true) ->
  In y l -> p y = true -> q y = false ->
  List.length (filter q l) < List.length (filter p l).
Proof.
  induction l as [| a l IH]; intros H Hy Hp Hq; simpl; [destruct Hy |].
  assert (Hle : List.length (filter q l) <= List.length (filter p l))
    by (apply filter_length_le; intros x Hx; apply H; now right).
  destruct Hy as [-> | Hy].
  - rewrite Hp, Hq. simpl. lia.
  - assert (IH' : List.length (filter q l) < List.length (filter p l))
      by (apply IH; auto; intros x Hx; apply H; now right).
    destruct (q a) eqn:Eq.
    + rewrite (H a (or_introl eq_refl) Eq). simpl. lia.
    + destruct (p a); simpl; lia.
Qed.

Lemma unvisited_le (ks v w : list string) :
  incl v w ->
  List.length (set_difference ks w) <= List.length (set_difference ks v).
Proof.
  intros H. apply filter_length_le. intros x _ Hx.
  apply negb_true_iff, set_mem_false in Hx.
  apply negb_true_iff, set_mem_false. intros Hv. apply Hx. now apply H.
Qed.

Lemma unvisited_lt (ks v w : list string) (y : string) :
  incl v w -> In y ks -> ~ In y v -> In y w ->
  List.length (set_difference ks w) < List.length (set_difference ks v).
Proof.
  intros H Hy Hv Hw. apply (filter_length_lt _ _ _ y); try assumption.
  - intros x _ Hx. apply negb_true_iff, set_mem_false in Hx.
    apply negb_true_iff, set_mem_false. intros Hv'. apply Hx. now apply H.
  - now apply negb_true_iff, set_mem_false.
  - now apply negb_false_iff, set_mem_In.
Qed.

(** The traversal returns when [fuel] exceeds twice the number of unvisited
    tasks (plus one when the start is already visited). *)
Lemma deep_first_search_total (inst : Instance) (fuel : nat) :
  forall start visited,
    In start (keys (task_list inst)) ->
    2 * List.length (set_difference (keys (task_list inst)) visited)
    + (if set_mem start visited then 1 else 0) < fuel ->
    exists v,
      deep_first_search set_order fuel inst start visited = Some v
      /\ incl visited v /\ In start v
      /\ incl v (visited ++ keys (task_list inst)).
Proof.
  induction fuel as [| f IH]; intros start visited Hstart Hfuel; [lia |].
  cbn [deep_first_search].
  set (V := set_add start visited).
  assert (HV : incl visited V)
    by (intros x Hx; apply set_add_In; now right).
  assert (HsV : In start V) by (apply set_add_In; now left).
  assert (HVk : incl V (visited ++ keys (task_list inst))).
  { intros x Hx. apply set_add_In in Hx. apply in_or_app.
    destruct Hx as [-> | Hx]; auto. }
  assert (Hmu : forall y v,
             In y (keys (task_list inst)) -> ~ In y V -> incl V v ->
             2 * List.length (set_difference (keys (task_list inst)) v)
             + (if set_mem y v then 1 else 0) < f).
  { intros y v Hy HyV HVv.
    pose proof (unvisited_le (keys (task_list inst)) V v HVv) as H1.
    pose proof (unvisited_le (keys (task_list inst)) visited V HV) as H2.
    destruct (set_mem start visited) eqn:Es.
    - assert (EV : V = visited) by (unfold V, set_add; now rewrite Es).
      destruct (set_mem y v) eqn:Ey; [| lia].
      apply set_mem_In in Ey.
      pose proof (unvisited_lt (keys (task_list inst)) V v y HVv Hy HyV Ey).
      rewrite EV in *. lia.
    - apply set_mem_false in Es.
      pose proof (unvisited_lt (keys (task_list inst)) visited V start
                    HV Hstart Es HsV).
      destruct (set_mem y v); lia. }
  assert (Hfold : forall l v0,
             (forall y, In y l ->
                        In y (keys (task_list inst)) /\ ~ In y V) ->
             incl V v0 -> incl v0 (visited ++ keys (task_list inst)) ->
             exists v,
               fold_left
                 (fun acc task_id =>
                    match acc with
                    | None => None
                    | Some v => deep_first_search set_order f inst task_id v
                    end) l (Some v0) = Some v
               /\ incl V v /\ incl v (visited ++ keys (task_list inst))).
  { induction l as [| y l IHl]; intros v0 Hl Hv0 Hv0k; simpl.
    - exists v0. auto.
    - destruct (Hl y (or_introl eq_refl)) as [Hy HyV].
      destruct (IH y v0 Hy (Hmu y v0 Hy HyV Hv0)) as (v1 & E1 & H1 & _ & H2).
      rewrite E1. apply IHl.
      + intros z Hz. apply Hl. now right.
      + intros x Hx. apply H1. now apply Hv0.
      + intros x Hx. apply H2 in Hx. apply in_app_or in Hx.
        destruct Hx as [Hx | Hx]; [now apply Hv0k |].
        apply in_or_app. now right. }
  destruct (Hfold (set_order (set_difference (successors_of inst start) V)) V)
    as (v & Ev & H1 & H2).
  - intros y Hy. apply set_order_In, set_difference_In in Hy.
    destruct Hy as [Hy HyV]. split; [| assumption].
    now apply (successors_of_In inst start).
  - apply incl_refl.
  - assumption.
  - exists v. split; [exact Ev |]. split; [| split; [| assumption]].
    + intros x Hx. now apply H1, HV.
    + now apply H1.
Qed.

Lemma same_raw_refl (tl : dict Task.t) : same_raw tl tl.
Proof. induction tl; constructor; auto. Qed.

Lemma same_raw_keys (tl tl' : dict Task.t) :
  same_raw tl tl' -> keys tl = keys tl'.
Proof.
  induction 1 as [| a b l l' (H & _) _ IH]; simpl; [reflexivity |].
  now rewrite H, IH.
Qed.

Lemma same_raw_get (tl tl' : dict Task.t) (k : string) :
  same_raw tl tl' ->
  match dict_get tl k, dict_get tl' k with
  | Some a, Some b =>
      Task.m a = Task.m b /\ Task.s a = Task.s b
      /\ Task.predecessor_set a = Task.predecessor_set b
      /\ Task.out_line_cost a = Task.out_line_cost b
  | None, None => True
  | _, _ => False
  end.
Proof.
  induction 1 as [| [ka a] [kb b] l l' (H & H') _ IH]; simpl; [exact I |].
  simpl in H. subst kb. destruct (String.eqb k ka); [exact H' | exact IH].
Qed.

Lemma same_raw_set (tl tl' : dict Task.t) (k : string) (t t' : Task.t) :
  same_raw tl tl' -> dict_get tl' k = Some t ->
  Task.m t' = Task.m t -> Task.s t' = Task.s t ->
  Task.predecessor_set t' = Task.predecessor_set t ->
  Task.out_line_cost t' = Task.out_line_cost t ->
  same_raw tl (dict_set tl' k t').
Proof.
  intros H. revert t.
  induction H as [| [ka a] [kb b] l l' (H1 & H2 & H3 & H4 & H5) Hl IH];
    intros t; simpl; [discriminate |].
  simpl in H1, H2, H3, H4, H5. subst kb.
  destruct (String.eqb k ka).
  - intros [= <-] E1 E2 E3 E4. constructor; [| assumption].
    simpl. repeat split; congruence.
  - intros Hg E1 E2 E3 E4. constructor.
    + simpl. auto.
    + now apply (IH t).
Qed.

Lemma successors_of_raw (inst inst' : Instance) (task_id : string) :
  same_raw (task_list inst) (task_list inst') ->
  successors_of inst task_id = successors_of inst' task_id.
Proof.
  unfold successors_of. intros H. generalize (@nil string) as acc.
  induction H as [| [ka a] [kb b] l l' (H1 & _ & _ & H3 & _) _ IH];
    intros acc; simpl; [reflexivity |].
  simpl in H1, H3. subst kb. rewrite H3. apply IH.
Qed.

Lemma deep_first_search_raw (inst inst' : Instance) (fuel : nat) :
  same_raw (task_list inst) (task_list inst') ->
  forall start visited,
    deep_first_search set_order fuel inst start visited
    = deep_first_search set_order fuel inst' start visited.
Proof.
  intros H. induction fuel as [| f IH]; intros start visited; simpl;
    [reflexivity |].
  rewrite (successors_of_raw inst inst' start H).
  apply fold_left_ext. intros [v |] y; [apply IH | reflexivity].
Qed.

Lemma out_line_cost_raw (inst inst' : Instance) (fuel : nat) (k : string) :
  same_raw (task_list inst) (task_list inst') ->
  task_out_line_completion_cost set_order fuel inst k
  = task_out_line_completion_cost set_order fuel inst' k.
Proof.
  intros H. unfold task_out_line_completion_cost.
  rewrite (deep_first_search_raw inst inst' fuel H).
  destruct (deep_first_search set_order fuel inst' k []) as [v |];
    [| reflexivity].
  f_equal. apply fold_left_ext. intros [a | e] y; cbn [bind];
    [| reflexivity].
  pose proof (same_raw_get _ _ y H) as Hg. unfold dict_item.
  destruct (dict_get (task_list inst) y), (dict_get (task_list inst') y);
    cbn [bind]; try contradiction; [| reflexivity].
  destruct Hg as (_ & _ & _ & ->). reflexivity.
Qed.

Lemma set_difference_nil (l : list string) : set_difference l [] = l.
Proof.
  unfold set_difference. induction l as [| a l IH]; simpl;
    [reflexivity | now f_equal].
Qed.

Lemma out_line_cost_total (inst : Instance) (fuel : nat) (k : string) :
  In k (keys (task_list inst)) ->
  2 * List.length (task_list inst) < fuel ->
  exists x,
    task_out_line_completion_cost set_order fuel inst k = Some (Ok x).
Proof.
  intros Hk Hfuel.
  destruct (deep_first_search_total inst fuel k [] Hk) as (v & Ev & _ & _ & Hv).
  - rewrite set_difference_nil. unfold keys. rewrite length_map.
    simpl. lia.
  - unfold task_out_line_completion_cost. rewrite Ev.
    assert (H : forall l a,
               (forall y, In y l -> In y (keys (task_list inst))) ->
               exists x,
                 fold_left
                   (fun cost current_task_id =>
                      cost' <- cost ;;
                      t <- dict_item (task_list inst) current_task_id ;;
                      Ok (cost' + Task.out_line_cost t)%float)
                   l (Ok a) = Ok x).
    { induction l as [| y l IHl]; intros a Hl; simpl; [eauto |].
      destruct (dict_get_In_keys _ _ (Hl y (or_introl eq_refl))) as [t Ht].
      unfold dict_item at 2. rewrite Ht. cbn [bind]. apply IHl.
      intros z Hz. apply Hl. now right. }
    destruct (H (set_order v) 0%float) as [x Hx].
    + intros y Hy. apply -> set_order_In in Hy. now apply Hv in Hy.
    + exists x. now rewrite Hx.
Qed.

Lemma dict_get_set_same {V : Type} (d : dict V) (k : string) (v : V) :
  In k (keys d) -> dict_get (dict_set d k v) k = Some v.
Proof.
  induction d as [| [k0 v0] d IH]; simpl; [intros [] |].
  intros H. destruct (String.eqb_spec k k0) as [-> | Hne]; simpl.
  - now rewrite String.eqb_refl.
  - destruct (String.eqb_spec k k0); [contradiction |].
    apply IH. destruct H as [H | H]; [congruence | assumption].
Qed.

Lemma update_task_get (inst : Instance) (k : string) (t : Task.t)
  (f : Task.t -> Task.t) :
  dict_get (task_list inst) k = Some t ->
  dict_get (task_list (update_task inst k f)) k = Some (f t)
  /\ task_list (update_task inst k f) = dict_set (task_list inst) k (f t)
  /\ c (update_task inst k f) = c inst.
Proof.
  intros H. unfold update_task. rewrite H. cbn [task_list with_task_list c].
  split; [| auto]. apply dict_get_set_same.
  now apply dict_get_Some_keys in H.
Qed.

Lemma update_task_static (inst : Instance) (k : string)
  (f : Task.t -> Task.t) :
  station_list (update_task inst k f) = station_list inst
  /\ T (update_task inst k f) = T inst
  /\ c (update_task inst k f) = c inst
  /\ total_unit_cost (update_task inst k f) = total_unit_cost inst.
Proof.
  unfold update_task. destruct (dict_get (task_list inst) k); auto.
Qed.

(** What [fill_task_properties] does for one task: it raises when the
    out-completion cost is zero, and otherwise changes derived attributes
    only. *)
Lemma fill_task_cases (inst0 inst : Instance) (fuel : nat) (k : string)
  (x : float) :
  same_raw (task_list inst0) (task_list inst) ->
  In k (keys (task_list inst)) ->
  task_out_line_completion_cost set_order fuel inst k = Some (Ok x) ->
  if (x =? 0)%float
  then fill_task norm_ppf set_order fuel inst k
       = Some (Raise ZeroDivisionError)
  else exists inst',
      fill_task norm_ppf set_order fuel inst k = Some (Ok inst')
      /\ same_raw (task_list inst0) (task_list inst')
      /\ station_list inst' = station_list inst /\ T inst' = T inst
      /\ c inst' = c inst /\ total_unit_cost inst' = total_unit_cost inst.
Proof.
  intros Hraw Hk Hocc. unfold fill_task. rewrite Hocc. cbn [fbind].
  destruct (dict_get_In_keys _ _ Hk) as [t Ht].
  destruct (update_task_get inst k t
              (fun t => Task.set_out_completion_cost t x) Ht)
    as (G1 & S1 & C1).
  set (inst1 := update_task inst k
                  (fun t => Task.set_out_completion_cost t x)) in *.
  unfold task_in_line_completion_cost, dict_item. rewrite G1.
  cbn [bind fbind].
  set (ilc := (Task.m (Task.set_out_completion_cost t x) * c inst1)%float).
  destruct (update_task_get inst1 k _
              (fun t => Task.set_in_line_cost t ilc) G1)
    as (G2 & S2 & C2).
  set (inst2 := update_task inst1 k
                  (fun t => Task.set_in_line_cost t ilc)) in *.
  unfold compute_z_limit, dict_item. rewrite G2.
  cbn [bind Py.attr Task.in_line_cost Task.out_completion_cost
         Task.set_in_line_cost Task.set_out_completion_cost].
  unfold Py.div. destruct (x =? 0)%float; cbn [bind fbind];
    [reflexivity |].
  set (zl := norm_ppf (1 - ilc / x)%float).
  destruct (update_task_get inst2 k _
              (fun t => Task.set_z_limit t zl) G2)
    as (G3 & S3 & C3).
  set (inst3 := update_task inst2 k (fun t => Task.set_z_limit t zl)) in *.
  destruct (update_task_get inst3 k _
              (fun t => Task.set_n_successors t
                          (List.length (successors_of inst3 k))) G3)
    as (G4 & S4 & C4).
  assert (R1 : same_raw (task_list inst0) (task_list inst1))
    by (rewrite S1; apply (same_raw_set _ _ k t _ Hraw Ht); reflexivity).
  assert (R2 : same_raw (task_list inst0) (task_list inst2))
    by (rewrite S2; apply (same_raw_set _ _ k _ _ R1 G1); reflexivity).
  assert (R3 : same_raw (task_list inst0) (task_list inst3))
    by (rewrite S3; apply (same_raw_set _ _ k _ _ R2 G2); reflexivity).
  eexists. split; [reflexivity |]. split.
  { rewrite S4. apply (same_raw_set _ _ k _ _ R3 G3); reflexivity. }
  destruct (update_task_static inst k
              (fun t => Task.set_out_completion_cost t x))
    as (a1 & b1 & c1 & d1).
  destruct (update_task_static inst1 k
              (fun t => Task.set_in_line_cost t ilc))
    as (a2 & b2 & c2 & d2).
  destruct (update_task_static inst2 k (fun t => Task.set_z_limit t zl))
    as (a3 & b3 & c3 & d3).
  destruct (update_task_static inst3 k
              (fun t => Task.set_n_successors t
                          (List.length (successors_of inst3 k))))
    as (a4 & b4 & c4 & d4).
  fold inst1 in a1, b1, c1, d1. fold inst2 in a2, b2, c2, d2.
  fold inst3 in a3, b3, c3, d3.
  repeat split; congruence.
Qed.

Lemma fill_fold_Raise (fuel : nat) (l : list string) (e : exn) :
  fold_left
    (fun acc key => inst' <~ acc ;; fill_task norm_ppf set_order fuel inst' key)
    l (Some (Raise e)) = Some (Raise e).
Proof. induction l as [| y l IH]; simpl; [reflexivity | exact IH]. Qed.

Lemma fill_fold_zero (inst0 : Instance) (fuel : nat) (k : string)
  (x : float) :
  2 * List.length (task_list inst0) < fuel ->
  task_out_line_completion_cost set_order fuel inst0 k = Some (Ok x) ->
  (x =? 0)%float = true ->
  forall ks inst,
    same_raw (task_list inst0) (task_list inst) ->
    incl ks (keys (task_list inst0)) -> In k ks ->
    fold_left
      (fun acc key =>
         inst' <~ acc ;; fill_task norm_ppf set_order fuel inst' key)
      ks (Some (Ok inst)) = Some (Raise ZeroDivisionError).
Proof.
  intros Hfuel Hocc Hx.
  induction ks as [| y ks IH]; intros inst Hraw Hks Hk; [destruct Hk |].
  simpl.
  pose proof (same_raw_keys _ _ Hraw) as Ekeys.
  assert (Hy : In y (keys (task_list inst)))
    by (rewrite <- Ekeys; apply Hks; now left).
  assert (Hlen : 2 * List.length (task_list inst) < fuel).
  { apply (f_equal (@List.length string)) in Ekeys. unfold keys in Ekeys.
    rewrite !length_map in Ekeys. lia. }
  destruct (out_line_cost_total inst fuel y Hy Hlen) as [xy Hxy].
  pose proof (fill_task_cases inst0 inst fuel y xy Hraw Hy Hxy) as Hc.
  destruct (xy =? 0)%float eqn:Exy.
  - rewrite Hc. apply fill_fold_Raise.
  - destruct Hc as (inst' & -> & Hraw' & _). apply IH; try assumption.
    + intros z Hz. apply Hks. now right.
    + destruct Hk as [-> | Hk]; [| assumption].
      rewrite <- (out_line_cost_raw inst0 inst fuel k Hraw) in Hxy.
      rewrite Hocc in Hxy. injection Hxy as <-. congruence.
Qed.

(** C9: constructing an instance whose task set holds a task with an
    out-completion cost equal to zero ends in a division-by-zero error,
    raised while the derived fields are filled in: no instance is built, so
    the balancing loop cannot run on it, and no z_limit is produced. *)
Theorem init_zero_out_completion_cost (fuel : nat) (instance_id : string)
  (tl : dict Task.t) (q c : float) (k : string) (x : float) :
  (q =? 0)%float = false ->
  2 * List.length tl < fuel ->
  In k (keys tl) ->
  task_out_line_completion_cost set_order fuel
    (blank instance_id tl (1 / q) c) k = Some (Ok x) ->
  (x =? 0)%float = true ->
  Py.div 1 q = Ok (1 / q)%float
  /\ fill_task_properties norm_ppf set_order fuel
       (blank instance_id tl (1 / q) c) = Some (Raise ZeroDivisionError)
  /\ init norm_ppf set_order fuel instance_id tl q c
     = Some (Raise ZeroDivisionError).
Proof.
  intros Hq Hfuel Hk Hocc Hx.
  assert (Hdiv : Py.div 1 q = Ok (1 / q)%float)
    by (unfold Py.div; now rewrite Hq).
  assert (Hfill : fill_task_properties norm_ppf set_order fuel
                    (blank instance_id tl (1 / q) c)
                  = Some (Raise ZeroDivisionError)).
  { unfold fill_task_properties.
    apply (fill_fold_zero (blank instance_id tl (1 / q) c) fuel k x);
      try assumption.
    - apply same_raw_refl.
    - apply incl_refl. }
  split; [assumption |]. split; [assumption |].
  unfold init. rewrite Hdiv. cbn [fbind]. exact Hfill.
Qed.

Lemma fill_fold_None (fuel : nat) (l : list string) :
  fold_left
    (fun acc key => inst' <~ acc ;; fill_task norm_ppf set_order fuel inst' key)
    l None = None.
Proof. induction l as [| y l IH]; simpl; [reflexivity | exact IH]. Qed.

Lemma fill_task_stuck (fuel : nat) (inst : Instance) (k : string) :
  match task_out_line_completion_cost set_order fuel inst k with
  | Some (Ok _) => True
  | r => fill_task norm_ppf set_order fuel inst k
         = match r with Some (Raise e) => Some (Raise e) | _ => None end
  end.
Proof.
  unfold fill_task.
  destruct (task_out_line_completion_cost set_order fuel inst k)
    as [[x | e] |]; [exact I | reflexivity | reflexivity].
Qed.

Lemma fill_fold_Ok (inst0 : Instance) (fuel : nat) (final : Instance) :
  forall ks inst,
    same_raw (task_list inst0) (task_list inst) ->
    incl ks (keys (task_list inst0)) ->
    fold_left
      (fun acc key =>
         inst' <~ acc ;; fill_task norm_ppf set_order fuel inst' key)
      ks (Some (Ok inst)) = Some (Ok final) ->
    same_raw (task_list inst0) (task_list final)
    /\ station_list final = station_list inst /\ T final = T inst
    /\ c final = c inst /\ total_unit_cost final = total_unit_cost inst.
Proof.
  induction ks as [| y ks IH]; intros inst Hraw Hks; simpl.
  - intros [= <-]. auto.
  - pose proof (same_raw_keys _ _ Hraw) as Ekeys.
    assert (Hy : In y (keys (task_list inst)))
      by (rewrite <- Ekeys; apply Hks; now left).
    destruct (task_out_line_completion_cost set_order fuel inst y)
      as [[xy | e] |] eqn:Hxy.
    + pose proof (fill_task_cases inst0 inst fuel y xy Hraw Hy Hxy) as Hc.
      destruct (xy =? 0)%float.
      * rewrite Hc, fill_fold_Raise. discriminate.
      * destruct Hc as (inst' & -> & Hraw' & E1 & E2 & E3 & E4).
        intros H. apply IH in H; try assumption.
        -- rewrite <- E1, <- E2, <- E3, <- E4. exact H.
        -- intros z Hz. apply Hks. now right.
    + pose proof (fill_task_stuck fuel inst y) as Hs. rewrite Hxy in Hs.
      rewrite Hs, fill_fold_Raise. discriminate.
    + pose proof (fill_task_stuck fuel inst y) as Hs. rewrite Hxy in Hs.
      rewrite Hs, fill_fold_None. discriminate.
Qed.

(** An instance that the constructor returns has the tasks it was given,
    with their derived attributes set, no station and a total cost of 0. *)
Lemma init_Ok (fuel : nat) (instance_id : string) (tl : dict Task.t)
  (q c0 : float) (inst : Instance) :
  init norm_ppf set_order fuel instance_id tl q c0 = Some (Ok inst) ->
  same_raw tl (task_list inst) /\ station_list inst = []
  /\ T inst = (1 / q)%float /\ c inst = c0
  /\ total_unit_cost inst = 0%float.
Proof.
  unfold init, Py.div. destruct (q =? 0)%float; cbn [fbind];
    [discriminate |].
  unfold fill_task_properties. intros H.
  apply (fill_fold_Ok (blank instance_id tl (1 / q) c0)) in H.
  - exact H.
  - apply same_raw_refl.
  - apply incl_refl.
Qed.

(** ** The chain A -> B -> C with zero variances *)

Lemma NoDup_singleton {A : Type} (l : list A) (a : A) :
  NoDup l -> (forall x, In x l <-> x = a) -> l = [a].
Proof.
  intros Hnd H. destruct l as [| x l].
  - exfalso. apply (proj2 (H a) eq_refl).
  - assert (x = a) by (apply H; now left). subst x.
    destruct l as [| y l]; [reflexivity |].
    assert (y = a) by (apply H; right; now left). subst y.
    inversion Hnd as [| ? ? Hn _]. exfalso. apply Hn. now left.
Qed.

Lemma chain_lookup (s : float) (inst : Instance) (k : string) (t0 : Task.t) :
  same_raw (chain_tasks s) (task_list inst) ->
  dict_get (chain_tasks s) k = Some t0 ->
  exists t,
    dict_get (task_list inst) k = Some t /\ Task.m t = Task.m t0
    /\ Task.s t = s
    /\ Task.predecessor_set t = Task.predecessor_set t0.
Proof.
  intros Hraw H0. pose proof (same_raw_get _ _ k Hraw) as Hg.
  rewrite H0 in Hg. destruct (dict_get (task_list inst) k) as [t |];
    [| contradiction].
  destruct Hg as (Hm & Hs & Hp & _). exists t.
  repeat split; try congruence. rewrite <- Hs.
  unfold chain_tasks in H0. simpl in H0.
  repeat match type of H0 with
         | (if ?b then _ else _) = _ => destruct b
         end; try discriminate; now injection H0 as <-.
Qed.

Lemma chain_potential (s : float) (inst : Instance) :
  same_raw (chain_tasks s) (task_list inst) -> station_list inst = [] ->
  potential_tasks set_order inst = ["A"%string].
Proof.
  intros Hraw Hsl. apply NoDup_singleton; [apply potential_tasks_NoDup |].
  intros x. rewrite potential_tasks_In.
  assert (Hass : assigned_tasks inst = [])
    by (unfold assigned_tasks; now rewrite Hsl).
  assert (Hst : station_tasks inst = [])
    by (unfold station_tasks; now rewrite Hsl).
  rewrite <- (same_raw_keys _ _ Hraw), Hass, Hst.
  destruct (chain_lookup s inst "A" _ Hraw eq_refl) as (a & Ha & _ & _ & Hpa).
  destruct (chain_lookup s inst "B" _ Hraw eq_refl) as (b & Hb & _ & _ & Hpb).
  destruct (chain_lookup s inst "C" _ Hraw eq_refl) as (d & Hd & _ & _ & Hpd).
  split.
  - intros (Hk & _ & Hav). simpl in Hk.
    destruct Hk as [<- | [<- | [<- | []]]]; [reflexivity | |];
      unfold available in Hav.
    + rewrite Hb, Hpb in Hav. discriminate.
    + rewrite Hd, Hpd in Hav. discriminate.
  - intros ->. split; [now left |]. split; [intros [] |].
    unfold available. rewrite Ha, Hpa. reflexivity.
Qed.


Lemma set_order_singleton (a : string) : set_order [a] = [a].
Proof. apply Permutation_length_1_inv, Permutation_sym, set_order_perm. Qed.

Lemma chain_compute_status (inst : Instance) (st : Station.t) :
  same_raw (chain_tasks 0) (task_list inst) ->
  Station.out_line_cost st = [] ->
  compute_status norm_cdf inst "A" st = Raise ZeroDivisionError.
Proof.
  intros Hraw Hst.
  destruct (chain_lookup 0 inst "A" _ Hraw eq_refl) as (a & Ha & Hm & Hs & _).
  unfold compute_status. rewrite Hst. cbn [keys map mapM bind].
  unfold dict_item. rewrite Ha. cbn [bind List.length Nat.ltb Nat.leb].
  rewrite Hm, Hs. reflexivity.
Qed.

(** C7, amended: on the chain A -> B -> C with means 1, variances 0,
    out-of-line costs 5, q = 1 and c = 1, [execute_algorithm] does not
    complete: it opens station "1", and the classification of A against the
    empty station (variance sum 0, so a division by [sqrt 0]) raises
    ZeroDivisionError before any task is assigned. *)
Theorem chain_zero_variance (fuel fuel' : nat) (inst : Instance) :
  init norm_ppf set_order fuel "chain" (chain_tasks 0) 1 1 = Some (Ok inst) ->
  2 <= fuel' ->
  potential_tasks set_order inst = ["A"%string]
  /\ compute_status norm_cdf (open_station inst "1") "A" (Station.init "1")
     = Raise ZeroDivisionError
  /\ station_step norm_cdf set_order (open_station inst "1") "1"
     = Raise ZeroDivisionError
  /\ execute_algorithm norm_cdf set_order fuel' inst
     = Some (Raise ZeroDivisionError).
Proof.
  intros Hinit Hfuel.
  destruct (init_Ok _ _ _ _ _ _ Hinit) as (Hraw & Hsl & _).
  pose proof (chain_potential 0 inst Hraw Hsl) as Hpot.
  assert (Hcs : compute_status norm_cdf (open_station inst "1") "A"
                  (Station.init "1") = Raise ZeroDivisionError)
    by (now apply chain_compute_status).
  assert (Hpot1 : potential_tasks set_order (open_station inst "1")
                  = ["A"%string]).
  { unfold open_station. rewrite potential_tasks_open; [assumption |].
    rewrite Hsl. intros []. }
  assert (Hstep : station_step norm_cdf set_order (open_station inst "1") "1"
                  = Raise ZeroDivisionError).
  { unfold station_step, classify. rewrite Hpot1, set_order_singleton.
    cbn [mapM]. unfold dict_item at 1. unfold open_station at 1.
    cbn [station_list with_station_list]. rewrite Hsl.
    cbn [dict_set dict_get]. rewrite String.eqb_refl. cbn [bind].
    rewrite Hcs. reflexivity. }
  repeat split; try assumption.
  destruct fuel' as [| [| f]]; try lia.
  unfold execute_algorithm, execute_algorithm_passes.
  cbn [tasks_loop]. rewrite Hpot. cbn [List.length Nat.ltb Nat.leb].
  change (Py.str (0 + 1)) with "1"%string.
  fold (open_station inst "1"). cbn [station_loop]. rewrite Hstep.
  reflexivity.
Qed.

(** ** The derived attributes do not change the precedence graph *)

Lemma same_raw_In (tl tl' : dict Task.t) (k : string) (t' : Task.t) :
  same_raw tl tl' -> In (k, t') tl' ->
  exists t,
    In (k, t) tl /\ Task.predecessor_set t = Task.predecessor_set t'.
Proof.
  induction 1 as [| [ka a] [kb b] l l' (H1 & _ & _ & H4 & _) _ IH];
    simpl; [intros [] |].
  simpl in H1, H4. subst kb. intros [[= -> ->] | Hin].
  - exists a. auto.
  - destruct (IH Hin) as [t [Ht Hp]]. exists t. auto.
Qed.

Lemma acyclic_raw (a b : Instance) :
  same_raw (task_list a) (task_list b) -> acyclic a -> acyclic b.
Proof.
  intros Hraw [rank Hr]. exists rank. intros k t p Hin Hp.
  destruct (same_raw_In _ _ k t Hraw Hin) as [t0 [Hin0 E]].
  apply (Hr k t0 p Hin0). now rewrite E.
Qed.

Lemma predecessors_present_raw (a b : Instance) :
  same_raw (task_list a) (task_list b) ->
  predecessors_present a -> predecessors_present b.
Proof.
  intros Hraw Hp k t p Hin Hpin.
  destruct (same_raw_In _ _ k t Hraw Hin) as [t0 [Hin0 E]].
  rewrite <- (same_raw_keys _ _ Hraw). apply (Hp k t0 p Hin0).
  now rewrite E.
Qed.

(** * Further properties *)

(** ** The task graph *)

Lemma successors_fold_spec (task_id : string) (l : dict Task.t)
  (acc : list string) (x : string) :
  In x (fold_left
          (fun successors kt =>
             if set_mem task_id (Task.predecessor_set (snd kt))
             then set_add (fst kt) successors else successors) l acc)
  <-> In x acc
      \/ exists t, In (x, t) l /\ In task_id (Task.predecessor_set t).
Proof.
  revert acc. induction l as [| [k t] l IH]; intros acc; simpl.
  - split; [auto | intros [H | [t [[] _]]]; assumption].
  - rewrite IH. destruct (set_mem task_id (Task.predecessor_set t)) eqn:E.
    + apply set_mem_In in E. rewrite set_add_In. split.
      * intros [[-> | H] | [t' [H1 H2]]]; eauto 6.
      * intros [H | [t' [[[= -> ->] | H1] H2]]]; eauto 6.
    + apply set_mem_false in E. split.
      * intros [H | [t' [H1 H2]]]; eauto 6.
      * intros [H | [t' [[[= -> ->] | H1] H2]]]; eauto 6. contradiction.
Qed.

Lemma successors_fold_NoDup (task_id : string) (l : dict Task.t)
  (acc : list string) :
  NoDup acc ->
  NoDup (fold_left
           (fun successors kt =>
              if set_mem task_id (Task.predecessor_set (snd kt))
              then set_add (fst kt) successors else successors) l acc).
Proof.
  revert acc. induction l as [| [k t] l IH]; intros acc H; simpl;
    [assumption |].
  apply IH. destruct (set_mem task_id (Task.predecessor_set t));
    [now apply set_add_NoDup | assumption].
Qed.

Lemma successors_of_iff (inst : Instance) (task_id x : string) :
  In x (successors_of inst task_id) <-> is_successor inst task_id x.
Proof.
  unfold successors_of, is_successor.
  rewrite successors_fold_spec. simpl. intuition.
Qed.

(** X1: [successors_of] returns, without duplicates, exactly the tasks
    whose predecessor set holds the given task. *)
Theorem successors_of_spec (inst : Instance) (task_id : string) :
  NoDup (successors_of inst task_id)
  /\ forall x,
      In x (successors_of inst task_id) <-> is_successor inst task_id x.
Proof.
  split.
  - apply successors_fold_NoDup. constructor.
  - intros x. apply successors_of_iff.
Qed.

Lemma reachable_trans (inst : Instance) (x y z : string) :
  reachable inst x y -> reachable inst y z -> reachable inst x z.
Proof.
  intros Hxy Hyz. induction Hyz as [| u w _ IH Hs]; [assumption |].
  now apply (reach_step inst x u w).
Qed.

Lemma dfs_fold_None (fuel : nat) (inst : Instance) (l : list string) :
  fold_left
    (fun acc task_id =>
       match acc with
       | None => None
       | Some v => deep_first_search set_order fuel inst task_id v
       end) l None = None.
Proof. induction l as [| a l IH]; simpl; [reflexivity | exact IH]. Qed.

(** What a traversal that returns has done: it has only added tasks, each
    reachable from the start, and the successors of every task it added are
    visited. *)
Lemma deep_first_search_inv (inst : Instance) (fuel : nat) :
  forall start V0 v,
    deep_first_search set_order fuel inst start V0 = Some v ->
    incl V0 v /\ In start v
    /\ (forall y, In y v -> ~ In y V0 -> reachable inst start y)
    /\ (forall y, In y v -> ~ In y V0 \/ y = start ->
                  forall z, is_successor inst y z -> In z v)
    /\ (NoDup V0 -> NoDup v).
Proof.
  induction fuel as [| f IH]; intros start V0 v; [discriminate |].
  cbn [deep_first_search].
  set (V := set_add start V0).
  assert (Hfold : forall l v0 v',
             (forall y, In y l -> is_successor inst start y) ->
             fold_left
               (fun acc task_id =>
                  match acc with
                  | None => None
                  | Some v => deep_first_search set_order f inst task_id v
                  end) l (Some v0) = Some v' ->
             incl v0 v' /\ (forall y, In y l -> In y v')
             /\ (forall y, In y v' -> ~ In y v0 -> reachable inst start y)
             /\ (forall y, In y v' -> ~ In y v0 ->
                           forall z, is_successor inst y z -> In z v')
             /\ (NoDup v0 -> NoDup v')).
  { induction l as [| a l IHl]; intros v0 v' Hl; simpl.
    - intros [= <-]. repeat split; auto using incl_refl.
      + intros y [].
      + intros y Hy Hn. contradiction.
      + intros y Hy Hn. contradiction.
    - destruct (deep_first_search set_order f inst a v0) as [v1 |] eqn:E1;
        [| rewrite dfs_fold_None; discriminate].
      intros Hf.
      destruct (IH a v0 v1 E1) as (I1 & I2 & I3 & I4 & I5).
      destruct (IHl v1 v' (fun y Hy => Hl y (or_intror Hy)) Hf)
        as (J1 & J2 & J3 & J4 & J5).
      assert (Ha : reachable inst start a).
      { apply (reach_step inst start start a); [constructor |].
        apply Hl. now left. }
      split; [intros x Hx; auto |].
      split; [intros y [<- | Hy]; auto |].
      split.
      { intros y Hy Hn.
        destruct (in_dec string_dec y v1) as [H1 | H1].
        - apply (reachable_trans inst start a y Ha). now apply I3.
        - now apply J3. }
      split; [| auto].
      intros y Hy Hn z Hz.
      destruct (in_dec string_dec y v1) as [H1 | H1].
      + apply J1. apply (I4 y H1 (or_introl Hn) z Hz).
      + now apply (J4 y Hy H1 z). }
  intros Hf.
  destruct (Hfold _ V v
              (fun y Hy =>
                 proj1 (successors_of_iff inst start y)
                   (proj1 (proj1 (set_difference_In _ _ y)
                             (proj1 (set_order_In _ y) Hy)))) Hf)
    as (J1 & J2 & J3 & J4 & J5).
  assert (HV : incl V0 V) by (intros x Hx; apply set_add_In; now right).
  assert (HsV : In start V) by (apply set_add_In; now left).
  split; [intros x Hx; auto |]. split; [auto |].
  assert (Hnew : forall y, In y v -> ~ In y V0 -> y = start \/ ~ In y V).
  { intros y Hy Hn. destruct (string_dec y start) as [-> | Hne]; [now left |].
    right. intros HyV. apply set_add_In in HyV.
    destruct HyV as [-> | HyV]; contradiction. }
  split.
  { intros y Hy Hn. destruct (Hnew y Hy Hn) as [-> | HnV];
      [constructor | now apply J3]. }
  split.
  { intros y Hy Hcase z Hz.
    assert (Hy' : y = start \/ ~ In y V).
    { destruct Hcase as [Hn | ->]; [now apply Hnew | now left]. }
    destruct Hy' as [-> | HnV]; [| now apply (J4 y Hy HnV z)].
    apply successors_of_iff in Hz.
    destruct (in_dec string_dec z V) as [HzV | HzV]; [now apply J1 |].
    apply J2. apply set_order_In, set_difference_In. auto. }
  intros Hnd. apply J5. now apply set_add_NoDup.
Qed.

Lemma deep_first_search_exact (inst : Instance) (fuel : nat)
  (start : string) :
  In start (keys (task_list inst)) ->
  2 * List.length (task_list inst) < fuel ->
  exists v,
    deep_first_search set_order fuel inst start [] = Some v
    /\ NoDup v /\ forall x, In x v <-> reachable inst start x.
Proof.
  intros Hstart Hfuel.
  destruct (deep_first_search_total inst fuel start [] Hstart)
    as (v & Ev & _).
  { rewrite set_difference_nil. unfold keys. rewrite length_map.
    simpl. lia. }
  exists v. split; [exact Ev |].
  destruct (deep_first_search_inv inst fuel start [] v Ev)
    as (_ & Hs & Hreach & Hclosed & Hnd).
  split; [apply Hnd; constructor |].
  intros x. split.
  - intros Hx. apply Hreach; [assumption | intros []].
  - induction 1 as [| y z _ IHy Hs']; [assumption |].
    apply (Hclosed y IHy (or_introl (fun H : In y [] => H)) z Hs').
Qed.

(** X2: started from an empty visited set on a task of the instance,
    [deep_first_search] returns whenever a recursion depth of [2 * n + 1]
    is available (on a cyclic graph too), and the set it returns holds,
    without duplicates, exactly the tasks reachable from the start, the
    start included. *)
Theorem deep_first_search_reachable (inst : Instance) (fuel : nat)
  (start : string) :
  In start (keys (task_list inst)) ->
  2 * List.length (task_list inst) < fuel ->
  exists v,
    deep_first_search set_order fuel inst start [] = Some v
    /\ NoDup v /\ forall x, In x v <-> reachable inst start x.
Proof. apply deep_first_search_exact. Qed.

Lemma reachable_key (inst : Instance) (x y : string) :
  In x (keys (task_list inst)) -> reachable inst x y ->
  In y (keys (task_list inst)).
Proof.
  intros Hx. induction 1 as [| u w _ _ (t & Hin & _)]; [assumption |].
  unfold keys. change w with (fst (w, t)). now apply in_map.
Qed.

Lemma lookup_all (tl : dict Task.t) (l : list string) :
  (forall y, In y l -> In y (keys tl)) ->
  exists ts, Forall2 (fun y t => dict_get tl y = Some t) l ts.
Proof.
  induction l as [| y l IH]; intros H; [exists []; constructor |].
  destruct (dict_get_In_keys tl y (H y (or_introl eq_refl))) as [t Ht].
  destruct IH as [ts Hts]; [intros z Hz; apply H; now right |].
  exists (t :: ts). now constructor.
Qed.

Lemma cost_fold (tl : dict Task.t) (l : list string) (ts : list Task.t) :
  Forall2 (fun y t => dict_get tl y = Some t) l ts ->
  forall a,
    fold_left
      (fun cost current_task_id =>
         cost' <- cost ;;
         t <- dict_item tl current_task_id ;;
         Ok (cost' + Task.out_line_cost t)%float) l (Ok a)
    = Ok (fold_left PrimFloat.add (map Task.out_line_cost ts) a).
Proof.
  induction 1 as [| y t l ts Hy _ IH]; intros a; simpl; [reflexivity |].
  unfold dict_item at 2. rewrite Hy. cbn [bind]. apply IH.
Qed.

(** X3: for a task of the instance, [task_out_line_completion_cost]
    returns the sum, added from 0 in the iteration order of the visited
    set, of the out-of-line costs of exactly the tasks reachable from it
    (itself included), each counted once. *)
Theorem out_completion_cost_spec (inst : Instance) (fuel : nat)
  (k : string) :
  In k (keys (task_list inst)) ->
  2 * List.length (task_list inst) < fuel ->
  exists l ts,
    NoDup l /\ (forall y, In y l <-> reachable inst k y)
    /\ Forall2 (fun y t => dict_get (task_list inst) y = Some t) l ts
    /\ task_out_line_completion_cost set_order fuel inst k
       = Some (Ok (fold_left PrimFloat.add (map Task.out_line_cost ts)
                     0%float)).
Proof.
  intros Hk Hfuel.
  destruct (deep_first_search_exact inst fuel k Hk Hfuel)
    as (v & Ev & Hnd & Hv).
  assert (Hl : forall y, In y (set_order v) <-> reachable inst k y)
    by (intros y; now rewrite set_order_In).
  destruct (lookup_all (task_list inst) (set_order v)) as [ts Hts].
  { intros y Hy. apply (reachable_key inst k y Hk). now apply Hl. }
  exists (set_order v), ts. split.
  { apply (Permutation_NoDup (Permutation_sym (set_order_perm v)) Hnd). }
  split; [exact Hl |]. split; [exact Hts |].
  unfold task_out_line_completion_cost. rewrite Ev.
  now rewrite (cost_fold _ _ _ Hts).
Qed.

(** ** The derived attributes after construction *)

Lemma update_task_other (inst : Instance) (k k' : string)
  (f : Task.t -> Task.t) :
  k' <> k ->
  dict_get (task_list (update_task inst k f)) k'
  = dict_get (task_list inst) k'.
Proof.
  intros Hne. unfold update_task.
  destruct (dict_get (task_list inst) k); [| reflexivity].
  cbn [task_list with_task_list]. now apply dict_get_set_other.
Qed.

Lemma fill_task_result (inst inst' : Instance) (fuel : nat) (k : string)
  (t : Task.t) :
  dict_get (task_list inst) k = Some t ->
  fill_task norm_ppf set_order fuel inst k = Some (Ok inst') ->
  exists occ,
    task_out_line_completion_cost set_order fuel inst k = Some (Ok occ)
    /\ (occ =? 0)%float = false
    /\ dict_get (task_list inst') k
       = Some (filled norm_ppf t occ (c inst)
                 (List.length (successors_of inst k)))
    /\ forall k', k' <> k ->
                  dict_get (task_list inst') k' = dict_get (task_list inst) k'.
Proof.
  intros Ht. unfold fill_task.
  destruct (task_out_line_completion_cost set_order fuel inst k)
    as [[x | e] |]; cbn [fbind]; try discriminate.
  destruct (update_task_get inst k t
              (fun t => Task.set_out_completion_cost t x) Ht)
    as (G1 & S1 & C1).
  pose proof (fun k' => update_task_other inst k k'
                          (fun t => Task.set_out_completion_cost t x))
    as O1.
  revert G1 S1 C1 O1.
  generalize (update_task inst k
                (fun t => Task.set_out_completion_cost t x)).
  intros inst1 G1 S1 C1 O1.
  unfold task_in_line_completion_cost, dict_item. rewrite G1.
  cbn [bind fbind].
  set (ilc := (Task.m (Task.set_out_completion_cost t x) * c inst1)%float).
  destruct (update_task_get inst1 k _
              (fun t => Task.set_in_line_cost t ilc) G1)
    as (G2 & S2 & C2).
  pose proof (fun k' => update_task_other inst1 k k'
                          (fun t => Task.set_in_line_cost t ilc)) as O2.
  revert G2 S2 C2 O2.
  generalize (update_task inst1 k (fun t => Task.set_in_line_cost t ilc)).
  intros inst2 G2 S2 C2 O2.
  unfold compute_z_limit, dict_item. rewrite G2.
  cbn [bind Py.attr Task.in_line_cost Task.out_completion_cost
         Task.set_in_line_cost Task.set_out_completion_cost].
  unfold Py.div. destruct (x =? 0)%float eqn:Ex; cbn [bind fbind];
    [discriminate |].
  set (zl := norm_ppf (1 - ilc / x)%float).
  destruct (update_task_get inst2 k _
              (fun t => Task.set_z_limit t zl) G2)
    as (G3 & S3 & C3).
  pose proof (fun k' => update_task_other inst2 k k'
                          (fun t => Task.set_z_limit t zl)) as O3.
  revert G3 S3 C3 O3.
  generalize (update_task inst2 k (fun t => Task.set_z_limit t zl)).
  intros inst3 G3 S3 C3 O3.
  destruct (update_task_get inst3 k _
              (fun t => Task.set_n_successors t
                          (List.length (successors_of inst3 k))) G3)
    as (G4 & S4 & C4).
  pose proof (fun k' => update_task_other inst3 k k'
                          (fun t => Task.set_n_successors t
                             (List.length (successors_of inst3 k)))) as O4.
  intros [= <-].
  assert (R1 : same_raw (task_list inst) (task_list inst1)).
  { rewrite S1.
    apply (same_raw_set _ _ k t _ (same_raw_refl _) Ht); reflexivity. }
  assert (R2 : same_raw (task_list inst) (task_list inst2))
    by (rewrite S2; apply (same_raw_set _ _ k _ _ R1 G1); reflexivity).
  assert (R3 : same_raw (task_list inst) (task_list inst3))
    by (rewrite S3; apply (same_raw_set _ _ k _ _ R2 G2); reflexivity).
  exists x. split; [reflexivity |]. split; [exact Ex |]. split.
  - rewrite G4, <- (successors_of_raw inst inst3 k R3).
    unfold filled, zl, ilc. rewrite C1. reflexivity.
  - intros k' Hne. rewrite O4, O3, O2, O1 by assumption. reflexivity.
Qed.

Lemma derived_filled (a b : Instance) (fuel : nat) (k : string)
  (t : Task.t) (occ : float) :
  same_raw (task_list a) (task_list b) -> c b = c a ->
  task_out_line_completion_cost set_order fuel b k = Some (Ok occ) ->
  (occ =? 0)%float = false ->
  derived norm_ppf set_order fuel a k
    (filled norm_ppf t occ (c b) (List.length (successors_of b k))).
Proof.
  intros Hraw Hc Hocc Hz. exists occ.
  rewrite (out_line_cost_raw a b fuel k Hraw),
    (successors_of_raw a b k Hraw), <- Hc.
  repeat split; assumption || reflexivity.
Qed.

Lemma derived_raw (a b : Instance) (fuel : nat) (k : string) (t : Task.t) :
  same_raw (task_list a) (task_list b) -> c b = c a ->
  derived norm_ppf set_order fuel a k t ->
  derived norm_ppf set_order fuel b k t.
Proof.
  intros Hraw Hc (occ & H1 & H2 & H3 & H4 & H5 & H6). exists occ.
  rewrite <- (out_line_cost_raw a b fuel k Hraw),
    <- (successors_of_raw a b k Hraw), Hc.
  repeat split; assumption.
Qed.

Lemma fill_fold_derived (inst0 : Instance) (fuel : nat) (final : Instance) :
  forall ks inst (P : string -> Prop),
    same_raw (task_list inst0) (task_list inst) -> c inst = c inst0 ->
    incl ks (keys (task_list inst0)) ->
    fold_left
      (fun acc key =>
         inst' <~ acc ;; fill_task norm_ppf set_order fuel inst' key)
      ks (Some (Ok inst)) = Some (Ok final) ->
    (forall k t, P k -> dict_get (task_list inst) k = Some t ->
                 derived norm_ppf set_order fuel inst0 k t) ->
    forall k t, P k \/ In k ks -> dict_get (task_list final) k = Some t ->
                derived norm_ppf set_order fuel inst0 k t.
Proof.
  induction ks as [| y ks IH]; intros inst P Hraw Hc Hks; simpl.
  - intros [= <-] HP k t [Hk | []]. now apply HP.
  - pose proof (same_raw_keys _ _ Hraw) as Ekeys.
    assert (Hy : In y (keys (task_list inst)))
      by (rewrite <- Ekeys; apply Hks; now left).
    destruct (dict_get_In_keys _ _ Hy) as [ty Hty].
    destruct (fill_task norm_ppf set_order fuel inst y)
      as [[inst' | e] |] eqn:Ef;
      [| rewrite fill_fold_Raise; discriminate
       | rewrite fill_fold_None; discriminate].
    destruct (fill_task_result inst inst' fuel y ty Hty Ef)
      as (occ & Hocc & Hz & Hget & Hother).
    pose proof (fill_task_cases inst0 inst fuel y occ Hraw Hy Hocc) as Hc'.
    rewrite Hz, Ef in Hc'.
    destruct Hc' as (i & [= <-] & Hraw' & _ & _ & Hci & _).
    intros Hf HP k t Hk.
    apply (IH inst' (fun k => P k \/ k = y)); try assumption.
    + congruence.
    + intros z Hz'. apply Hks. now right.
    + intros k0 t0 [Hk0 | ->] Hg.
      * destruct (string_dec k0 y) as [-> | Hne].
        -- rewrite Hget in Hg. injection Hg as <-.
           now apply derived_filled.
        -- rewrite Hother in Hg by assumption. now apply HP.
      * rewrite Hget in Hg. injection Hg as <-. now apply derived_filled.
    + destruct Hk as [Hk | [<- | Hk]]; auto.
Qed.

(** When [fill_task_properties] returns, the instance differs from the one
    it was given in the derived attributes only, and every task carries the
    derived attributes that the method computes. *)
Lemma fill_task_properties_derived (fuel : nat) (inst inst1 : Instance) :
  NoDup (keys (task_list inst)) ->
  fill_task_properties norm_ppf set_order fuel inst = Some (Ok inst1) ->
  same_raw (task_list inst) (task_list inst1) /\ c inst1 = c inst
  /\ forall k t, In (k, t) (task_list inst1) ->
                 derived norm_ppf set_order fuel inst1 k t.
Proof.
  intros Hnd Hf. unfold fill_task_properties in Hf.
  destruct (fill_fold_Ok inst fuel inst1 (keys (task_list inst)) inst
              (same_raw_refl _) (incl_refl _) Hf)
    as (Hraw & _ & _ & Hc & _).
  split; [assumption |]. split; [assumption |].
  intros k t Hin.
  apply (derived_raw inst inst1 fuel k t Hraw Hc).
  apply (fill_fold_derived inst fuel inst1 (keys (task_list inst)) inst
           (fun _ => False) (same_raw_refl _) eq_refl (incl_refl _) Hf).
  - intros k0 t0 [].
  - right. rewrite (same_raw_keys _ _ Hraw).
    unfold keys. change k with (fst (k, t)). now apply in_map.
  - apply In_dict_get; [| assumption].
    now rewrite <- (same_raw_keys _ _ Hraw).
Qed.

(** X4: the constructor, when it returns: the instance has no station,
    [T = 1 / q], the given [c] and a total cost of 0; the raw attributes of
    the tasks are the ones given; and every task has its four derived
    attributes set: a non-zero out-completion cost (what
    [task_out_line_completion_cost] returns for it), [in_line_cost = m * c],
    [z_limit = ppf (1 - in_line_cost / out_completion_cost)] and the number
    of direct successors. *)
Theorem init_derived (fuel : nat) (instance_id : string) (tl : dict Task.t)
  (q c0 : float) (inst : Instance) :
  NoDup (keys tl) ->
  init norm_ppf set_order fuel instance_id tl q c0 = Some (Ok inst) ->
  (station_list inst = [] /\ T inst = (1 / q)%float /\ c inst = c0
   /\ total_unit_cost inst = 0%float)
  /\ same_raw tl (task_list inst)
  /\ forall k t, In (k, t) (task_list inst) ->
                 derived norm_ppf set_order fuel inst k t.
Proof.
  intros Hnd Hinit.
  destruct (init_Ok _ _ _ _ _ _ Hinit) as (Hraw & Hsl & HT & Hc & Htot).
  split; [auto |]. split; [exact Hraw |].
  revert Hinit. unfold init, Py.div.
  destruct (q =? 0)%float; cbn [fbind]; [discriminate |].
  intros Hf.
  now destruct (fill_task_properties_derived fuel
                  (Build_Instance instance_id tl [] (1 / q) c0 0) inst
                  Hnd Hf) as (_ & _ & Hd).
Qed.

Lemma dict_set_id {V : Type} (d : dict V) (k : string) (v : V) :
  dict_get d k = Some v -> dict_set d k v = d.
Proof.
  induction d as [| [k' v'] d IH]; simpl; [discriminate |].
  destruct (String.eqb k k'); [now intros [= ->] |].
  intros H. now rewrite IH.
Qed.

Lemma update_task_id (inst : Instance) (k : string) (t : Task.t)
  (f : Task.t -> Task.t) :
  dict_get (task_list inst) k = Some t -> f t = t ->
  update_task inst k f = inst.
Proof.
  intros H Hf. unfold update_task. rewrite H, Hf, (dict_set_id _ _ _ H).
  now destruct inst.
Qed.

Lemma fill_task_fixed (inst : Instance) (fuel : nat) (k : string)
  (t : Task.t) :
  dict_get (task_list inst) k = Some t ->
  derived norm_ppf set_order fuel inst k t ->
  fill_task norm_ppf set_order fuel inst k = Some (Ok inst).
Proof.
  intros Ht (occ & H1 & H2 & H3 & H4 & H5 & H6). unfold fill_task.
  rewrite H1. cbn [fbind].
  rewrite (update_task_id inst k t); [| assumption |].
  2: { destruct t; simpl in *; now rewrite H3. }
  unfold task_in_line_completion_cost, dict_item. rewrite Ht.
  cbn [bind fbind].
  rewrite (update_task_id inst k t); [| assumption |].
  2: { destruct t; simpl in *; now rewrite H4. }
  unfold compute_z_limit, dict_item. rewrite Ht. cbn [bind].
  rewrite H4, H3. cbn [Py.attr bind]. unfold Py.div. rewrite H2.
  cbn [bind fbind].
  rewrite (update_task_id inst k t); [| assumption |].
  2: { destruct t; simpl in *; now rewrite H5. }
  rewrite (update_task_id inst k t); [reflexivity | assumption |].
  destruct t; simpl in *; now rewrite H6.
Qed.

Lemma fill_fold_fixed (inst : Instance) (fuel : nat) (ks : list string) :
  (forall k, In k ks ->
             exists t, dict_get (task_list inst) k = Some t
                       /\ derived norm_ppf set_order fuel inst k t) ->
  fold_left
    (fun acc key => inst' <~ acc ;; fill_task norm_ppf set_order fuel inst' key)
    ks (Some (Ok inst)) = Some (Ok inst).
Proof.
  induction ks as [| y ks IH]; intros H; simpl; [reflexivity |].
  destruct (H y (or_introl eq_refl)) as (t & Ht & Hd).
  rewrite (fill_task_fixed inst fuel y t Ht Hd).
  apply IH. intros k Hk. apply H. now right.
Qed.

(** X5: [fill_task_properties] is idempotent: called again on the instance
    it has just populated, it returns and changes nothing. *)
Theorem fill_task_properties_idempotent (fuel : nat)
  (inst inst1 : Instance) :
  NoDup (keys (task_list inst)) ->
  fill_task_properties norm_ppf set_order fuel inst = Some (Ok inst1) ->
  fill_task_properties norm_ppf set_order fuel inst1 = Some (Ok inst1).
Proof.
  intros Hnd Hf.
  destruct (fill_task_properties_derived fuel inst inst1 Hnd Hf)
    as (Hraw & _ & Hd).
  unfold fill_task_properties. apply fill_fold_fixed.
  intros k Hk. destruct (dict_get_In_keys _ _ Hk) as [t Ht].
  exists t. split; [assumption |].
  apply Hd. now apply dict_get_Some_In.
Qed.

(** ** The outcomes of the constructor *)

Lemma same_raw_length (tl tl' : dict Task.t) :
  same_raw tl tl' -> List.length tl' = List.length tl.
Proof. intros H. symmetry. exact (Forall2_length H). Qed.

Lemma fill_fold_outcome (inst0 : Instance) (fuel : nat) :
  2 * List.length (task_list inst0) < fuel ->
  forall ks inst,
    same_raw (task_list inst0) (task_list inst) ->
    incl ks (keys (task_list inst0)) ->
    let r :=
      fold_left
        (fun acc key =>
           inst' <~ acc ;; fill_task norm_ppf set_order fuel inst' key)
        ks (Some (Ok inst)) in
    r = Some (Raise ZeroDivisionError) \/ exists final, r = Some (Ok final).
Proof.
  intros Hfuel. induction ks as [| y ks IH]; intros inst Hraw Hks; simpl.
  - right. now exists inst.
  - assert (Hy : In y (keys (task_list inst))).
    { rewrite <- (same_raw_keys _ _ Hraw). apply Hks. now left. }
    destruct (out_line_cost_total inst fuel y Hy) as [x Hx].
    { now rewrite (same_raw_length _ _ Hraw). }
    pose proof (fill_task_cases inst0 inst fuel y x Hraw Hy Hx) as Hc.
    destruct (x =? 0)%float.
    + rewrite Hc, fill_fold_Raise. now left.
    + destruct Hc as (inst' & -> & Hraw' & _).
      apply IH; [assumption |]. intros z Hz. apply Hks. now right.
Qed.

(** X6: with fuel for the search (more than twice the number of tasks),
    the constructor ends, and it ends in one of two ways: it returns an
    instance, or it raises ZeroDivisionError.  No other exception leaves
    it: no KeyError from the look-ups in the task table, no TypeError from
    an attribute that is still [None]. *)
Theorem init_outcome (fuel : nat) (instance_id : string)
  (tl : dict Task.t) (q c0 : float) :
  2 * List.length tl < fuel ->
  init norm_ppf set_order fuel instance_id tl q c0
  = Some (Raise ZeroDivisionError)
  \/ exists inst,
      init norm_ppf set_order fuel instance_id tl q c0 = Some (Ok inst).
Proof.
  intros Hfuel. unfold init, Py.div.
  destruct (q =? 0)%float; cbn [fbind]; [now left |].
  unfold fill_task_properties.
  apply (fill_fold_outcome
           (Build_Instance instance_id tl [] (1 / q) c0 0) fuel Hfuel).
  - apply same_raw_refl.
  - apply incl_refl.
Qed.

(** ** The available tasks *)

(** X7: [potential_tasks] returns, without repetition, exactly the tasks of
    the instance that sit in no station and whose predecessors all sit in
    some station; a task without predecessors is available until it is
    assigned. *)
Theorem potential_tasks_spec (inst : Instance) :
  NoDup (potential_tasks set_order inst)
  /\ forall x,
      In x (potential_tasks set_order inst)
      <-> exists t,
          dict_get (task_list inst) x = Some t
          /\ ~ In x (station_tasks inst)
          /\ forall p, In p (Task.predecessor_set t) ->
                       In p (station_tasks inst).
Proof.
  split; [apply potential_tasks_NoDup |].
  intros x. rewrite potential_tasks_In, available_spec. split.
  - intros (_ & Hna & t & Ht & Hp). now exists t.
  - intros (t & Ht & Hna & Hp). split.
    + now apply dict_get_Some_keys in Ht.
    + split; [assumption |]. now exists t.
Qed.

Lemma set_update_NoDup (s l : list string) :
  NoDup s -> NoDup (set_update s l).
Proof.
  unfold set_update. revert s. induction l as [| x l IH]; intros s H; simpl;
    [assumption |].
  apply IH. now apply set_add_NoDup.
Qed.

Lemma assigned_fold_NoDup (sts : list Station.t) (acc : list string) :
  NoDup acc ->
  NoDup (fold_left
           (fun ass_tasks station =>
              let tasks_id := keys (Station.out_line_cost station) in
              if List.length tasks_id =? 0 then ass_tasks
              else set_update ass_tasks tasks_id) sts acc).
Proof.
  revert acc. induction sts as [| st sts IH]; intros acc H; simpl;
    [assumption |].
  apply IH.
  destruct (List.length (keys (Station.out_line_cost st)) =? 0);
    [assumption | now apply set_update_NoDup].
Qed.

(** X17: [assigned_tasks] returns, without repetition, exactly the tasks
    that are a key of the assignment map of some station. *)
Theorem assigned_tasks_spec (inst : Instance) :
  NoDup (assigned_tasks inst)
  /\ forall t,
      In t (assigned_tasks inst)
      <-> exists k st,
          In (k, st) (station_list inst)
          /\ In t (keys (Station.out_line_cost st)).
Proof.
  split; [apply assigned_fold_NoDup; constructor |].
  intros t. rewrite assigned_tasks_In. unfold station_tasks, tasks_of.
  rewrite in_flat_map. unfold values. split.
  - intros (st & Hst & Ht). apply in_map_iff in Hst.
    destruct Hst as ([k st'] & E & Hin). simpl in E. subst st'.
    now exists k, st.
  - intros (k & st & Hin & Ht). exists st. split; [| assumption].
    change st with (snd (k, st)). now apply in_map.
Qed.

(** ** Invariants of the two loops *)

Lemma select_task_status (inst : Instance) (cur : string) (st : Station.t)
  (rows : list Row) (sel : Row) :
  dict_get (station_list inst) cur = Some st ->
  select_task inst cur rows = Ok (Some sel) ->
  In sel rows /\ (x1 sel = critical -> Station.out_line_cost st = []).
Proof.
  intros Hst. unfold select_task, dict_item. rewrite Hst. cbn [bind].
  set (crit := filter (fun x => status_eqb (x1 x) critical) rows).
  set (saf := filter (fun x => status_eqb (x1 x) safe) rows).
  set (des := filter (fun x => status_eqb (x1 x) desirable) rows).
  assert (Hsub : forall p x, In x (filter p rows) -> In x rows)
    by (intros p x Hx; now apply filter_In in Hx).
  assert (Hrest :
    (if 0 <? List.length saf
     then x <- item0 (sorted_reverse PrimFloat.ltb x3 saf) ;; Ok (Some x)
     else if 0 <? List.length des
     then x <- item0 (sorted PrimFloat.ltb x3 des) ;; Ok (Some x)
     else Ok None) = Ok (Some sel) ->
    In sel rows /\ (x1 sel = critical -> Station.out_line_cost st = [])).
  { destruct (0 <? List.length saf) eqn:Es.
    - apply ltb_length_nonempty in Es.
      destruct (item0_sorted_reverse PrimFloat.ltb x3 saf Es)
        as [w [-> Hw]].
      cbn [bind]. intros [= <-]. split; [now apply (Hsub _ _ Hw) |].
      rewrite (filter_status rows safe w Hw). discriminate.
    - destruct (0 <? List.length des) eqn:Ed; [| discriminate].
      apply ltb_length_nonempty in Ed.
      destruct (item0_sorted PrimFloat.ltb x3 des Ed) as [w [-> Hw]].
      cbn [bind]. intros [= <-]. split; [now apply (Hsub _ _ Hw) |].
      rewrite (filter_status rows desirable w Hw). discriminate. }
  destruct (0 <? List.length crit) eqn:Ec; cbn [bind]; [| exact Hrest].
  destruct (List.length (keys (Station.out_line_cost st)) =? 0) eqn:E0;
    [| exact Hrest].
  apply ltb_length_nonempty in Ec.
  destruct (item0_sorted_reverse Nat.ltb x5 crit Ec) as [w [-> Hw]].
  cbn [bind]. intros [= <-]. split; [now apply (Hsub _ _ Hw) |].
  intros _. apply Nat.eqb_eq in E0. unfold keys in E0.
  rewrite length_map in E0. now apply length_zero_iff_nil.
Qed.

(** A pass that assigns a task: the task was available, its row is the
    one that [compute_status] returned for it and the station, and a
    critical task is assigned to an empty station only. *)
Lemma station_step_assigned (inst inst' : Instance) (cur : string)
  (st : Station.t) (sl : dict Station.t) :
  station_list inst = sl ++ [(cur, st)] -> ~ In cur (keys sl) ->
  station_step norm_cdf set_order inst cur = Ok (Continue inst') ->
  exists sel,
    In (x0 sel) (potential_tasks set_order inst)
    /\ compute_status norm_cdf inst (x0 sel) st
       = Ok (x1 sel, x2 sel, x3 sel, x4 sel, x5 sel)
    /\ (x1 sel = critical -> Station.out_line_cost st = [])
    /\ inst' =
       with_station_list inst
         (sl ++ [(cur,
                  Station.Build (Station.station_id st)
                    (Station.out_line_cost st ++ [(x0 sel, x4 sel)]))]).
Proof.
  intros Hsl Hcur.
  assert (Hget : dict_get (station_list inst) cur = Some st)
    by (rewrite Hsl; now apply dict_get_last).
  unfold station_step.
  destruct (classify norm_cdf set_order inst cur) as [rows |] eqn:Ec;
    cbn [bind]; [| discriminate].
  destruct (List.length (potential_tasks set_order inst) =? 0);
    [discriminate |].
  pose proof (classify_x0 _ _ _ Ec) as Hx0.
  destruct (select_task inst cur rows) as [[sel |] |] eqn:Es; cbn [bind];
    try discriminate.
  destruct (select_task_status inst cur st rows sel Hget Es) as [Hin Hcrit].
  assert (Hpot : In (x0 sel) (potential_tasks set_order inst)).
  { apply set_order_In. rewrite <- Hx0. now apply in_map. }
  unfold assign, dict_item. rewrite Hget. cbn [bind]. intros [= <-].
  exists sel. split; [assumption |].
  split; [now apply (classify_rows inst cur st rows sel) |].
  split; [assumption |]. f_equal.
  rewrite Hsl, dict_set_last by assumption. do 4 f_equal.
  apply dict_set_new. intros Hk.
  apply potential_tasks_In in Hpot. destruct Hpot as (_ & Hna & _).
  apply Hna. rewrite (station_tasks_snoc _ _ _ _ Hsl).
  apply in_or_app. now right.
Qed.

Section LoopInvariant.

Variable P : Instance -> Prop.
Variable E : exn -> Prop.

Hypothesis P_open :
  forall inst n,
    NoDup (keys (task_list inst)) -> Inv inst n -> P inst ->
    P (with_station_list inst
         (station_list inst ++ [(Py.str (S n), Station.init (Py.str (S n)))])).

Hypothesis P_assign :
  forall inst n sl st sel,
    NoDup (keys (task_list inst)) -> Inv inst (S n) ->
    station_list inst = sl ++ [(Py.str (S n), st)] ->
    In (x0 sel) (potential_tasks set_order inst) ->
    compute_status norm_cdf inst (x0 sel) st
    = Ok (x1 sel, x2 sel, x3 sel, x4 sel, x5 sel) ->
    (x1 sel = critical -> Station.out_line_cost st = []) ->
    P inst ->
    P (with_station_list inst
         (sl ++ [(Py.str (S n),
                  Station.Build (Station.station_id st)
                    (Station.out_line_cost st ++ [(x0 sel, x4 sel)]))])).

Hypothesis P_raise :
  forall inst n e,
    NoDup (keys (task_list inst)) -> Inv inst (S n) -> P inst ->
    station_step norm_cdf set_order inst (Py.str (S n)) = Raise e -> E e.

Lemma station_loop_inv (fuel : nat) :
  forall (inst : Instance) (n : nat),
    NoDup (keys (task_list inst)) -> Inv inst (S n) -> P inst ->
    match station_loop norm_cdf set_order fuel inst (Py.str (S n)) with
    | None => True
    | Some (Raise e) => E e
    | Some (Ok (inst', _)) => P inst'
    end.
Proof.
  induction fuel as [| f IH]; intros inst n Hnd Hinv HP; simpl;
    [exact I |].
  destruct (Inv_current inst n Hinv) as (sl & st & Hsl & Hcur).
  pose proof (P_raise inst n) as Hraise.
  destruct (station_step norm_cdf set_order inst (Py.str (S n)))
    as [[inst1 |] | e] eqn:Estep.
  - destruct (station_step_assigned inst inst1 (Py.str (S n)) st sl
                Hsl Hcur Estep) as (sel & Hpot & Hcs & Hcrit & ->).
    pose proof (Inv_assign inst n sl st sel Hinv Hsl Hpot) as Hinv1.
    pose proof (P_assign inst n sl st sel Hnd Hinv Hsl Hpot Hcs Hcrit HP)
      as HP1.
    set (inst1 :=
           with_station_list inst
             (sl ++ [(Py.str (S n),
                      Station.Build (Station.station_id st)
                        (Station.out_line_cost st
                         ++ [(x0 sel, x4 sel)]))])) in *.
    specialize (IH inst1 n Hnd Hinv1 HP1).
    destruct (station_loop norm_cdf set_order f inst1 (Py.str (S n)))
      as [[[inst2 k] | e] |]; simpl; assumption.
  - assumption.
  - now apply Hraise.
Qed.

Lemma tasks_loop_inv (fuel : nat) :
  forall (inst : Instance) (n : nat),
    NoDup (keys (task_list inst)) -> Inv inst n -> stations_nonempty inst ->
    P inst ->
    match tasks_loop norm_cdf set_order fuel inst n with
    | None => True
    | Some (Raise e) => E e
    | Some (Ok (inst', _)) => P inst'
    end.
Proof.
  induction fuel as [| f IH]; intros inst n Hnd Hinv Hne HP; simpl;
    [exact I |].
  destruct (0 <? List.length (potential_tasks set_order inst)) eqn:Ep;
    [| assumption].
  apply ltb_length_nonempty in Ep. rewrite Nat.add_1_r.
  assert (Hnew : ~ In (Py.str (S n)) (keys (station_list inst))).
  { destruct Hinv as [Hk _ _ _]. rewrite Hk. apply str_not_in_seq. }
  pose proof (Inv_open inst n Hinv) as Hinv1.
  pose proof (potential_tasks_open inst (Py.str (S n)) Hnew) as Hpot1.
  pose proof (P_open inst n Hnd Hinv HP) as HP1.
  rewrite <- (dict_set_new (station_list inst) (Py.str (S n))
                (Station.init (Py.str (S n))) Hnew) in HP1.
  set (inst1 :=
         with_station_list inst
           (dict_set (station_list inst) (Py.str (S n))
              (Station.init (Py.str (S n))))) in *.
  assert (Hsl1 : station_list inst1
                 = station_list inst
                   ++ [(Py.str (S n), Station.init (Py.str (S n)))]).
  { unfold inst1. cbn [station_list with_station_list].
    now apply dict_set_new. }
  pose proof (station_loop_spec f inst1 n Hnd Hinv1) as Hloop.
  pose proof (station_loop_inv f inst1 n Hnd Hinv1 HP1) as Hloop'.
  destruct (station_loop norm_cdf set_order f inst1 (Py.str (S n)))
    as [[[inst2 k1] | e] |]; simpl; [| assumption | exact I].
  destruct Hloop as (Hinv2 & Hsame2 & Hlen & sl & st & st' & E1 & E2 & Hst').
  rewrite Hsl1 in E1. apply app_inj_tail in E1.
  destruct E1 as [<- [= <-]].
  assert (Hne' : Station.out_line_cost st' <> []).
  { apply Hst'. right. now rewrite Hpot1. }
  assert (Hne2 : stations_nonempty inst2).
  { intros k st Hin. rewrite E2 in Hin. apply in_app_or in Hin.
    destruct Hin as [Hin | [[= <- <-] | []]];
      [now apply (Hne k st) | assumption]. }
  assert (Hnd2 : NoDup (keys (task_list inst2))).
  { destruct Hsame2 as (_ & -> & _). assumption. }
  specialize (IH inst2 (S n) Hnd2 Hinv2 Hne2 Hloop').
  destruct (tasks_loop norm_cdf set_order f inst2 (S n))
    as [[[inst3 k2] | e] |]; simpl; assumption.
Qed.

End LoopInvariant.

(** ** The stations of a run *)

Lemma station_tasks_assign (inst : Instance) (sl : dict Station.t)
  (cur : string) (st : Station.t) (a : string) (v : float) :
  station_list inst = sl ++ [(cur, st)] ->
  tasks_of
    (sl ++ [(cur, Station.Build (Station.station_id st)
                    (Station.out_line_cost st ++ [(a, v)]))])
  = station_tasks inst ++ [a].
Proof.
  intros Hsl.
  rewrite tasks_of_app, tasks_of_single, (station_tasks_snoc _ _ _ _ Hsl).
  simpl. unfold keys. rewrite map_app. simpl. now rewrite app_assoc.
Qed.

Lemma station_tasks_open (inst : Instance) (k : string) :
  tasks_of (station_list inst ++ [(k, Station.init k)]) = station_tasks inst.
Proof.
  rewrite tasks_of_app, tasks_of_single. simpl. apply app_nil_r.
Qed.

Lemma tasks_of_length (sl : dict Station.t) :
  (forall k st, In (k, st) sl -> Station.out_line_cost st <> []) ->
  List.length sl <= List.length (tasks_of sl).
Proof.
  induction sl as [| [k st] sl IH]; intros H; simpl; [lia |].
  change (tasks_of ((k, st) :: sl))
    with (keys (Station.out_line_cost st) ++ tasks_of sl).
  rewrite length_app. unfold keys at 1. rewrite length_map.
  assert (Hst : Station.out_line_cost st <> [])
    by (apply (H k); now left).
  assert (IH' : List.length sl <= List.length (tasks_of sl))
    by (apply IH; intros k' st' Hin; apply (H k'); now right).
  destruct (Station.out_line_cost st); [congruence | simpl; lia].
Qed.

(** The invariants of [tasks_loop_inv], at the end of a run. *)
Lemma run_inv (P : Instance -> Prop) (fuel : nat) (inst inst' : Instance) :
  (forall i n,
      NoDup (keys (task_list i)) -> Inv i n -> P i ->
      P (with_station_list i
           (station_list i
            ++ [(Py.str (S n), Station.init (Py.str (S n)))]))) ->
  (forall i n sl st sel,
      NoDup (keys (task_list i)) -> Inv i (S n) ->
      station_list i = sl ++ [(Py.str (S n), st)] ->
      In (x0 sel) (potential_tasks set_order i) ->
      compute_status norm_cdf i (x0 sel) st
      = Ok (x1 sel, x2 sel, x3 sel, x4 sel, x5 sel) ->
      (x1 sel = critical -> Station.out_line_cost st = []) ->
      P i ->
      P (with_station_list i
           (sl ++ [(Py.str (S n),
                    Station.Build (Station.station_id st)
                      (Station.out_line_cost st ++ [(x0 sel, x4 sel)]))]))) ->
  NoDup (keys (task_list inst)) -> station_list inst = [] -> P inst ->
  execute_algorithm norm_cdf set_order fuel inst = Some (Ok inst') ->
  exists inst1,
    P inst1 /\ station_list inst' = station_list inst1
    /\ task_list inst' = task_list inst1 /\ T inst' = T inst1.
Proof.
  intros Hopen Hassign Hnd Hfresh HP H.
  apply execute_algorithm_Ok in H. destruct H as [k H].
  apply execute_algorithm_passes_Ok in H. destruct H as [inst1 [H ->]].
  exists inst1. split; [| repeat split; reflexivity].
  pose proof (tasks_loop_inv P (fun _ => True) Hopen Hassign
                (fun _ _ _ _ _ _ _ => I) fuel inst 0 Hnd
                (Inv_fresh inst Hfresh)) as Hl.
  rewrite H in Hl. apply Hl; [| assumption].
  intros a st Hin. rewrite Hfresh in Hin. destruct Hin.
Qed.

(** X8: the stations of a run from an instance without stations are
    numbered "1", "2", ... in the order in which they were opened, each
    station object carries its key as [station_id], and there are at most
    as many stations as tasks. *)
Theorem station_numbering (fuel : nat) (inst inst' : Instance) :
  NoDup (keys (task_list inst)) -> station_list inst = [] ->
  execute_algorithm norm_cdf set_order fuel inst = Some (Ok inst') ->
  keys (station_list inst')
  = map Py.str (seq 1 (List.length (station_list inst')))
  /\ (forall k st, In (k, st) (station_list inst') ->
                   Station.station_id st = k)
  /\ List.length (station_list inst') <= List.length (task_list inst).
Proof.
  intros Hnd Hfresh H.
  pose proof H as H'. apply execute_algorithm_Ok in H'.
  destruct H' as [k Hk].
  destruct (run_spec fuel inst inst' k Hnd Hfresh Hk)
    as ([n' Hinv] & Hne & Htl & _ & _).
  split; [| split].
  - destruct Hinv as [Hkeys _ _ _].
    assert (El : List.length (station_list inst') = n').
    { rewrite <- (length_map fst). fold (keys (station_list inst')).
      now rewrite Hkeys, length_map, length_seq. }
    now rewrite El.
  - destruct (run_inv
                (fun i => forall k st, In (k, st) (station_list i) ->
                                       Station.station_id st = k)
                fuel inst inst') as (inst1 & HP & Esl & _);
      try assumption.
    + intros i n _ _ HP a st Hin.
      cbn [station_list with_station_list] in Hin.
      apply in_app_or in Hin.
      destruct Hin as [Hin | [[= <- <-] | []]]; [now apply HP | reflexivity].
    + intros i n sl st sel _ _ Hsl _ _ _ HP a s Hin.
      cbn [station_list with_station_list] in Hin.
      apply in_app_or in Hin. destruct Hin as [Hin | [[= <- <-] | []]].
      * apply HP. rewrite Hsl. apply in_or_app. now left.
      * simpl. apply HP. rewrite Hsl. apply in_or_app. right. now left.
    + intros a st Hin. rewrite Hfresh in Hin. destruct Hin.
    + now rewrite Esl.
  - apply Nat.le_trans with (List.length (station_tasks inst')).
    + apply tasks_of_length. exact Hne.
    + rewrite <- Htl. apply (Inv_length inst' n'); [| assumption].
      now rewrite Htl.
Qed.

(** The order of assignment respects the precedence relation. *)
Lemma run_ordered (fuel : nat) (inst inst' : Instance) :
  NoDup (keys (task_list inst)) -> station_list inst = [] ->
  execute_algorithm norm_cdf set_order fuel inst = Some (Ok inst') ->
  forall l1 t l2 x p,
    station_tasks inst' = l1 ++ t :: l2 ->
    dict_get (task_list inst') t = Some x ->
    In p (Task.predecessor_set x) -> In p l1.
Proof.
  intros Hnd Hfresh H.
  destruct (run_inv
              (fun i => forall l1 t l2 x p,
                   station_tasks i = l1 ++ t :: l2 ->
                   dict_get (task_list i) t = Some x ->
                   In p (Task.predecessor_set x) -> In p l1)
              fuel inst inst') as (inst1 & HP & Esl & Etl & _);
    try assumption.
  - intros i n _ _ HP l1 t l2 x p. unfold station_tasks.
    cbn [station_list with_station_list task_list].
    rewrite station_tasks_open. apply HP.
  - intros i n sl st sel _ _ Hsl Hpot _ _ HP l1 t l2 x p.
    unfold station_tasks.
    cbn [station_list with_station_list task_list].
    rewrite (station_tasks_assign i sl _ st _ _ Hsl).
    intros E Hx Hp. apply app_snoc_split in E.
    destruct E as [(_ & -> & ->) | [l2' [_ E]]].
    + apply potential_tasks_In in Hpot. destruct Hpot as (_ & _ & Hav).
      apply available_spec in Hav. destruct Hav as [tx [Htx Hpreds]].
      rewrite Htx in Hx. injection Hx as <-. now apply Hpreds.
    + now apply (HP l1 t l2' x p).
  - unfold station_tasks. rewrite Hfresh. intros [| ? ?]; discriminate.
  - unfold station_tasks. rewrite Esl, Etl. exact HP.
Qed.

(** X9: in the order of assignment (station by station, and within a
    station in the order of its assignment map), every task comes after
    all of its predecessors. *)
Theorem assignment_order (fuel : nat) (inst inst' : Instance) :
  NoDup (keys (task_list inst)) -> station_list inst = [] ->
  execute_algorithm norm_cdf set_order fuel inst = Some (Ok inst') ->
  forall l1 t l2 x p,
    station_tasks inst' = l1 ++ t :: l2 ->
    dict_get (task_list inst) t = Some x ->
    In p (Task.predecessor_set x) ->
    In p l1 /\ ~ In p (t :: l2).
Proof.
  intros Hnd Hfresh H l1 t l2 x p E Hx Hp.
  pose proof H as H'. apply execute_algorithm_Ok in H'.
  destruct H' as [k Hk].
  destruct (run_spec fuel inst inst' k Hnd Hfresh Hk)
    as ([n' Hinv] & _ & Htl & _ & _).
  assert (Hin : In p l1).
  { apply (run_ordered fuel inst inst' Hnd Hfresh H l1 t l2 x p E);
      [now rewrite Htl | assumption]. }
  split; [assumption |].
  destruct Hinv as [_ Hnodup _ _]. rewrite E in Hnodup.
  now apply (NoDup_app_disjoint l1 (t :: l2) p).
Qed.

(** X10: whatever the precedence graph (tasks may name predecessors that
    do not exist, and the graph may have cycles), the tasks assigned by a
    run are exactly the placeable ones, each of them once. *)
Theorem assigned_iff_placeable (fuel : nat) (inst inst' : Instance) :
  NoDup (keys (task_list inst)) -> station_list inst = [] ->
  execute_algorithm norm_cdf set_order fuel inst = Some (Ok inst') ->
  NoDup (station_tasks inst')
  /\ forall t, In t (station_tasks inst') <-> placeable inst t.
Proof.
  intros Hnd Hfresh H.
  pose proof H as H'. apply execute_algorithm_Ok in H'.
  destruct H' as [k Hk].
  destruct (run_spec fuel inst inst' k Hnd Hfresh Hk)
    as ([n' Hinv] & _ & Htl & Hpot & _).
  pose proof (run_ordered fuel inst inst' Hnd Hfresh H) as Hord.
  split; [apply Hinv |].
  intros t. split.
  - assert (Hpre : forall l1 l2, station_tasks inst' = l1 ++ l2 ->
                                 forall y, In y l1 -> placeable inst y).
    { induction l1 as [| a l1 IH] using rev_ind; intros l2 E y Hy;
        [destruct Hy |].
      rewrite <- app_assoc in E. simpl in E.
      apply in_app_or in Hy. destruct Hy as [Hy | [<- | []]];
        [now apply (IH (a :: l2)) |].
      assert (Ha : In a (keys (task_list inst))).
      { rewrite <- Htl. destruct Hinv as [_ _ Hincl _]. apply Hincl.
        rewrite E. apply in_or_app. right. now left. }
      destruct (dict_get_In_keys _ _ Ha) as [x Hx].
      apply (placeable_intro inst a x Hx). intros p Hp.
      apply (IH (a :: l2) E). apply (Hord l1 a l2 x p E);
        [now rewrite Htl | assumption]. }
    intros Ht. apply (Hpre (station_tasks inst') []); [| assumption].
    now rewrite app_nil_r.
  - induction 1 as [t x Hx _ IH].
    destruct (in_dec string_dec t (station_tasks inst')) as [Hin | Hnin];
      [assumption | exfalso].
    assert (Hp : In t (potential_tasks set_order inst')).
    { apply potential_tasks_In. rewrite Htl. split.
      - now apply dict_get_Some_keys in Hx.
      - split; [assumption |]. apply available_spec. exists x.
        rewrite Htl. split; assumption. }
    rewrite Hpot in Hp. destruct Hp.
Qed.

(** ** The errors of the classifier and of a run *)

Lemma SFsqrt_zero_iff (x : spec_float) :
  valid_binary x = true -> SFltb x (S754_zero false) = false ->
  SFeqb (SF64sqrt x) (S754_zero false) = SFeqb x (S754_zero false).
Proof.
  intros Hv Hlt. destruct x as [s | s | | s mx ex].
  - reflexivity.
  - destruct s; [discriminate | reflexivity].
  - reflexivity.
  - destruct s; [discriminate |].
    rewrite (SFsqrt_pos _ Hv eq_refl). reflexivity.
Qed.

(** [sqrt x == 0] exactly when [x == 0], for an [x] that [sqrt] accepts. *)
Lemma sqrt_zero_iff (x : float) :
  (x <? 0)%float = false ->
  (PrimFloat.sqrt x =? 0)%float = (x =? 0)%float.
Proof.
  rewrite FloatAxioms.ltb_spec, !FloatAxioms.eqb_spec, FloatAxioms.sqrt_spec.
  apply SFsqrt_zero_iff, FloatAxioms.Prim2SF_valid.
Qed.

Lemma eqb_zero_not_neg (x : float) :
  (x =? 0)%float = true -> (x <? 0)%float = false.
Proof.
  rewrite FloatAxioms.ltb_spec, FloatAxioms.eqb_spec.
  change (Prim2SF 0) with (S754_zero false).
  destruct (Prim2SF x) as [s | s | | s mx ex]; try reflexivity;
    destruct s; discriminate.
Qed.

Lemma compute_status_cases (inst : Instance) (task_id : string)
  (station : Station.t) (task : Task.t) (ts : list Task.t)
  (occ zl : float) (ns : nat) :
  dict_get (task_list inst) task_id = Some task ->
  Forall2 (fun k t => dict_get (task_list inst) k = Some t)
    (keys (Station.out_line_cost station)) ts ->
  Task.out_completion_cost task = Some occ ->
  Task.z_limit task = Some zl ->
  Task.n_successors task = Some ns ->
  let M := sum_with (map Task.m ts) (Task.m task) in
  let S := sum_with (map Task.s ts) (Task.s task) in
  let z := ((T inst - M) / PrimFloat.sqrt S)%float in
  ((S <? 0)%float = true ->
   compute_status norm_cdf inst task_id station = Raise ValueError)
  /\ ((S =? 0)%float = true ->
      compute_status norm_cdf inst task_id station
      = Raise ZeroDivisionError)
  /\ ((S <? 0)%float = false -> (S =? 0)%float = false ->
      exists stat,
        compute_status norm_cdf inst task_id station
        = Ok (stat, z, occ, ((1 - norm_cdf z) * occ)%float, ns)).
Proof using norm_cdf.
  clear norm_ppf.
  intros Htask Hst Hocc Hzl Hns M S z.
  remember (compute_status norm_cdf inst task_id station) as r eqn:Er.
  unfold compute_status in Er.
  rewrite (mapM_lookup _ Task.m _ _ Hst) in Er. cbn [bind] in Er.
  unfold dict_item at 1 in Er. rewrite Htask in Er. cbn [bind] in Er.
  rewrite sum_with_eq in Er. cbn [bind] in Er.
  rewrite (mapM_lookup _ Task.s _ _ Hst) in Er. cbn [bind] in Er.
  rewrite sum_with_eq in Er. cbn [bind] in Er.
  fold M S in Er. unfold Py.sqrt, Py.div in Er.
  split; [| split].
  - intros H. rewrite H in Er. exact Er.
  - intros H0. rewrite (eqb_zero_not_neg _ H0) in Er. cbn [bind] in Er.
    rewrite (sqrt_zero_iff _ (eqb_zero_not_neg _ H0)), H0 in Er. exact Er.
  - intros Hneg H0. rewrite Hneg in Er. cbn [bind] in Er.
    rewrite (sqrt_zero_iff _ Hneg), H0 in Er. cbn [bind] in Er.
    fold z in Er. rewrite Hocc, Hns, Hzl in Er. cbn [bind Py.attr] in Er.
    destruct (0x1.499999999999ap+1 <? z)%float; cbn [bind] in Er;
      [now exists safe |].
    destruct (zl <? z)%float; cbn [bind] in Er;
      [now exists desirable | now exists critical].
Qed.

(** X11: the errors of [compute_status], for a candidate and a station
    whose tasks are in the table, by the variance sum [S] of the station's
    tasks and the candidate: it raises ValueError when [S < 0] (from
    [sqrt]), ZeroDivisionError when [S == 0] (the division by [sqrt S]),
    and returns in every other case, with [z = (T - M) / sqrt S]. *)
Theorem compute_status_errors (inst : Instance) (task_id : string)
  (station : Station.t) (task : Task.t) (ts : list Task.t)
  (occ zl : float) (ns : nat) :
  dict_get (task_list inst) task_id = Some task ->
  Forall2 (fun k t => dict_get (task_list inst) k = Some t)
    (keys (Station.out_line_cost station)) ts ->
  Task.out_completion_cost task = Some occ ->
  Task.z_limit task = Some zl ->
  Task.n_successors task = Some ns ->
  let M := sum_with (map Task.m ts) (Task.m task) in
  let S := sum_with (map Task.s ts) (Task.s task) in
  let z := ((T inst - M) / PrimFloat.sqrt S)%float in
  ((S <? 0)%float = true ->
   compute_status norm_cdf inst task_id station = Raise ValueError)
  /\ ((S =? 0)%float = true ->
      compute_status norm_cdf inst task_id station
      = Raise ZeroDivisionError)
  /\ ((S <? 0)%float = false -> (S =? 0)%float = false ->
      exists stat,
        compute_status norm_cdf inst task_id station
        = Ok (stat, z, occ, ((1 - norm_cdf z) * occ)%float, ns)).
Proof using norm_cdf.
  clear norm_ppf. exact (compute_status_cases inst task_id station task ts
                           occ zl ns).
Qed.

Lemma mapM_Raise {A B : Type} (f : A -> res B) (l : list A)
  (Q : exn -> Prop) (e : exn) :
  (forall a e', In a l -> f a = Raise e' -> Q e') ->
  mapM f l = Raise e -> Q e.
Proof.
  induction l as [| a l IH]; simpl; intros H; [discriminate |].
  destruct (f a) as [b | e'] eqn:Ea; cbn [bind].
  - destruct (mapM f l) as [bs | e'']; cbn [bind]; [discriminate |].
    intros [= <-]. apply IH; [| reflexivity].
    intros a' e' Hin. apply H. now right.
  - intros [= <-]. apply (H a e'); [now left | assumption].
Qed.

Lemma station_step_Raise (inst : Instance) (n : nat) (e : exn) :
  NoDup (keys (task_list inst)) -> Inv inst (S n) -> populated inst ->
  station_step norm_cdf set_order inst (Py.str (S n)) = Raise e ->
  arithmetic_error e.
Proof.
  intros _ Hinv Hpop.
  destruct (Inv_current inst n Hinv) as (sl & st & Hsl & Hcur).
  assert (Hget : dict_get (station_list inst) (Py.str (S n)) = Some st)
    by (rewrite Hsl; now apply dict_get_last).
  unfold station_step.
  destruct (classify norm_cdf set_order inst (Py.str (S n)))
    as [rows | e'] eqn:Ec; cbn [bind].
  - destruct (List.length (potential_tasks set_order inst) =? 0);
      [discriminate |].
    destruct (select_task_cases inst (Py.str (S n)) st rows Hget)
      as [[sel [Hs _]] | [Hs _]]; rewrite Hs; cbn [bind];
      [| discriminate].
    unfold assign, dict_item. rewrite Hget. discriminate.
  - intros [= <-]. unfold classify in Ec.
    apply (mapM_Raise _ _ arithmetic_error e') in Ec; [assumption |].
    intros a e'' Ha. unfold dict_item at 1. rewrite Hget. cbn [bind].
    apply set_order_In, potential_tasks_In in Ha.
    destruct Ha as (Hkey & _ & _).
    destruct (dict_get_In_keys _ _ Hkey) as [task Htask].
    destruct (Hpop a task Htask) as (occ & zl & ns & Hocc & Hzl & Hns).
    destruct (lookup_all (task_list inst)
                (keys (Station.out_line_cost st))) as [ts Hts].
    { intros y Hy. destruct Hinv as [_ _ Hincl _]. apply Hincl.
      rewrite (station_tasks_snoc inst sl _ st Hsl).
      apply in_or_app. now right. }
    destruct (compute_status_cases inst a st task ts occ zl ns
                Htask Hts Hocc Hzl Hns) as (H1 & H2 & H3).
    set (S := sum_with (map Task.s ts) (Task.s task)) in *.
    destruct (S <? 0)%float eqn:Eneg.
    + rewrite (H1 eq_refl). cbn [bind]. intros [= <-]. now right.
    + destruct (S =? 0)%float eqn:Ez.
      * rewrite (H2 eq_refl). cbn [bind]. intros [= <-]. now left.
      * destruct (H3 eq_refl eq_refl) as [stat ->]. cbn [bind].
        discriminate.
Qed.

Lemma run_arithmetic_error (fuel : nat) (inst : Instance) :
  NoDup (keys (task_list inst)) -> station_list inst = [] ->
  populated inst ->
  List.length (task_list inst) + 2 <= fuel ->
  (exists inst', execute_algorithm norm_cdf set_order fuel inst
                 = Some (Ok inst'))
  \/ execute_algorithm norm_cdf set_order fuel inst
     = Some (Raise ZeroDivisionError)
  \/ execute_algorithm norm_cdf set_order fuel inst
     = Some (Raise ValueError).
Proof.
  intros Hnd Hfresh Hpop Hfuel.
  destruct (run_terminates fuel inst Hnd Hfresh Hfuel) as [r Hr].
  pose proof (tasks_loop_inv populated arithmetic_error
                (fun i n _ _ H => H) (fun i n sl st sel _ _ _ _ _ _ H => H)
                station_step_Raise fuel inst 0 Hnd
                (Inv_fresh inst Hfresh)) as Hl.
  unfold execute_algorithm. rewrite Hr.
  unfold execute_algorithm_passes in Hr.
  destruct (tasks_loop norm_cdf set_order fuel inst 0)
    as [[[inst1 k] | e] |]; cbn [fbind] in Hr; [| | discriminate].
  - injection Hr as <-. left. eexists. reflexivity.
  - injection Hr as <-. right. cbn [fbind].
    destruct Hl as [-> | ->]; auto.
    intros a st Hin. rewrite Hfresh in Hin. destruct Hin.
Qed.

(** X12: a run on an instance that the constructor returned ends, and
    ends in one of three ways: it returns, or it raises ZeroDivisionError
    or ValueError (both from [compute_status]).  The look-ups in the task
    table and in the station table never fail, no attribute is used while
    it is [None], and the selection never indexes an empty list. *)
Theorem run_outcome (fuel0 fuel : nat) (instance_id : string)
  (tl : dict Task.t) (q c0 : float) (inst : Instance) :
  NoDup (keys tl) ->
  init norm_ppf set_order fuel0 instance_id tl q c0 = Some (Ok inst) ->
  List.length tl + 2 <= fuel ->
  (exists inst', execute_algorithm norm_cdf set_order fuel inst
                 = Some (Ok inst'))
  \/ execute_algorithm norm_cdf set_order fuel inst
     = Some (Raise ZeroDivisionError)
  \/ execute_algorithm norm_cdf set_order fuel inst
     = Some (Raise ValueError).
Proof.
  intros Hnd Hinit Hfuel.
  destruct (init_Ok _ _ _ _ _ _ Hinit) as (Hraw & Hsl & _).
  assert (Hd : forall k t, In (k, t) (task_list inst) ->
                           derived norm_ppf set_order fuel0 inst k t).
  { revert Hinit. unfold init, Py.div.
    destruct (q =? 0)%float; cbn [fbind]; [discriminate |]. intros Hf.
    now destruct (fill_task_properties_derived fuel0
                    (Build_Instance instance_id tl [] (1 / q) c0 0)
                    inst Hnd Hf) as (_ & _ & Hd). }
  apply run_arithmetic_error.
  - now rewrite <- (same_raw_keys _ _ Hraw).
  - assumption.
  - intros k t Hk. apply dict_get_Some_In in Hk.
    destruct (Hd k t Hk) as (occ & _ & _ & H1 & _ & H2 & H3).
    eauto 10.
  - now rewrite (same_raw_length _ _ Hraw).
Qed.

(** ** The critical case, the end of a station, and a second run *)

Lemma select_first (inst : Instance) (cur : string) (st : Station.t)
  (rows : list Row) :
  dict_get (station_list inst) cur = Some st ->
  filter (fun x => status_eqb (x1 x) critical) rows <> [] ->
  Station.out_line_cost st = [] ->
  (if 0 <? List.length (filter (fun x => status_eqb (x1 x) critical) rows)
   then station <- dict_item (station_list inst) cur ;;
        Ok (List.length (keys (Station.out_line_cost station)) =? 0)
   else Ok false) = Ok true.
Proof.
  intros Hst Hne Hempty. apply ltb_length_nonempty in Hne. rewrite Hne.
  unfold dict_item. rewrite Hst. cbn [bind]. now rewrite Hempty.
Qed.

Lemma nat_ltb_trans (a b c : nat) :
  (a <? b) = true -> (b <? c) = true -> (a <? c) = true.
Proof. rewrite !Nat.ltb_lt. lia. Qed.

Lemma nat_ltb_negtrans (a b c : nat) :
  True -> (a <? b) = false -> (b <? c) = false -> (a <? c) = false.
Proof. rewrite !Nat.ltb_ge. lia. Qed.

(** X13: in a pass of the station loop in which the station is still
    empty and some available task is critical, the selected task is the
    critical task with the most direct successors, the first such in
    iteration order, whether or not other tasks are safe or desirable; it
    is the one assigned. *)
Theorem select_critical_task (inst : Instance) (cur : string)
  (st : Station.t) (rows : list Row) :
  dict_get (station_list inst) cur = Some st ->
  classify norm_cdf set_order inst cur = Ok rows ->
  let critical_tasks :=
    filter (fun x => status_eqb (x1 x) critical) rows in
  critical_tasks <> [] ->
  Station.out_line_cost st = [] ->
  exists l1 sel l2 task,
    critical_tasks = l1 ++ sel :: l2
    /\ (forall y, In y l1 -> x5 y < x5 sel)
    /\ (forall y, In y l2 -> x5 y <= x5 sel)
    /\ compute_status norm_cdf inst (x0 sel) st
       = Ok (critical, x2 sel, x3 sel, x4 sel, x5 sel)
    /\ dict_get (task_list inst) (x0 sel) = Some task
    /\ Task.n_successors task = Some (x5 sel)
    /\ station_step norm_cdf set_order inst cur
       = (inst' <- assign inst cur sel ;; Ok (Continue inst')).
Proof.
  intros Hst Hc crit Hne Hempty.
  destruct (sorted_reverse_first Nat.ltb x5 (fun _ => True)
              nat_ltb_trans nat_ltb_negtrans crit)
    as (l1 & sel & l2 & r & El & Es & H1 & H2);
    [now apply Forall_forall | assumption |].
  assert (Hin : In sel crit) by (rewrite El; apply in_or_app; right; now left).
  assert (Hrows : In sel rows) by (apply filter_In in Hin; apply Hin).
  pose proof (classify_rows inst cur st rows sel Hst Hc Hrows) as Hcs.
  rewrite (filter_status rows critical sel Hin) in Hcs.
  destruct (compute_status_Ok _ _ _ _ _ _ _ _ Hcs)
    as (task & Ht & _ & Hn & _).
  exists l1, sel, l2, task. split; [assumption |].
  split; [intros y Hy; now apply Nat.ltb_lt, H1 |].
  split; [intros y Hy; now apply Nat.ltb_ge, H2 |].
  repeat split; try assumption.
  apply (station_step_select inst cur rows sel); [assumption | |].
  - intros E. rewrite E in Hrows. destruct Hrows.
  - unfold select_task. fold crit. unfold crit.
    rewrite (select_first inst cur st rows Hst Hne Hempty).
    cbn [bind]. fold crit. rewrite Es. reflexivity.
Qed.

Lemma status_cases (rows : list Row) :
  filter (fun x => status_eqb (x1 x) safe) rows = [] ->
  filter (fun x => status_eqb (x1 x) desirable) rows = [] ->
  forall x, In x rows -> x1 x = critical.
Proof.
  intros Hs Hd x Hx. destruct (x1 x) eqn:E; [| | reflexivity]; exfalso.
  - assert (H : In x (filter (fun x => status_eqb (x1 x) safe) rows))
      by (apply filter_In; split; [assumption | now rewrite E]).
    rewrite Hs in H. destruct H.
  - assert (H : In x (filter (fun x => status_eqb (x1 x) desirable) rows))
      by (apply filter_In; split; [assumption | now rewrite E]).
    rewrite Hd in H. destruct H.
Qed.

Lemma select_task_None (inst : Instance) (cur : string) (st : Station.t)
  (rows : list Row) :
  dict_get (station_list inst) cur = Some st -> rows <> [] ->
  select_task inst cur rows = Ok None
  <-> Station.out_line_cost st <> []
      /\ forall x, In x rows -> x1 x = critical.
Proof.
  intros Hst Hrows. unfold select_task, dict_item. rewrite Hst.
  cbn [bind].
  remember (filter (fun x => status_eqb (x1 x) critical) rows)
    as crit eqn:Ecrit.
  remember (filter (fun x => status_eqb (x1 x) safe) rows) as saf eqn:Esaf.
  remember (filter (fun x => status_eqb (x1 x) desirable) rows)
    as des eqn:Edes.
  assert (Hall : (forall x, In x rows -> x1 x = critical)
                 <-> saf = [] /\ des = []).
  { split.
    - intros H. split.
      + destruct saf as [| x l]; [reflexivity | exfalso].
        assert (Hx : In x (filter (fun x => status_eqb (x1 x) safe) rows))
          by (rewrite <- Esaf; now left).
        pose proof (filter_status rows safe x Hx) as Hs.
        apply filter_In in Hx. rewrite (H x (proj1 Hx)) in Hs.
        discriminate.
      + destruct des as [| x l]; [reflexivity | exfalso].
        assert (Hx : In x (filter (fun x => status_eqb (x1 x) desirable)
                             rows))
          by (rewrite <- Edes; now left).
        pose proof (filter_status rows desirable x Hx) as Hs.
        apply filter_In in Hx. rewrite (H x (proj1 Hx)) in Hs.
        discriminate.
    - intros [Hs Hd]. subst saf des. now apply status_cases. }
  rewrite Hall.
  assert (Hc : crit <> [] ->
               exists w, item0 (sorted_reverse Nat.ltb x5 crit) = Ok w).
  { intros H. destruct (item0_sorted_reverse Nat.ltb x5 crit H)
      as [w [E _]]. now exists w. }
  assert (Hs : saf <> [] ->
               exists w, item0 (sorted_reverse PrimFloat.ltb x3 saf) = Ok w).
  { intros H. destruct (item0_sorted_reverse PrimFloat.ltb x3 saf H)
      as [w [E _]]. now exists w. }
  assert (Hd : des <> [] ->
               exists w, item0 (sorted PrimFloat.ltb x3 des) = Ok w).
  { intros H. destruct (item0_sorted PrimFloat.ltb x3 des H)
      as [w [E _]]. now exists w. }
  destruct (Station.out_line_cost st) as [| entry olc];
    destruct crit as [| c0 cl];
    cbn [keys map List.length Nat.eqb Nat.ltb Nat.leb bind].
  - (* empty station, no critical task *)
    destruct saf as [| y l']; cbn [List.length Nat.ltb Nat.leb].
    + destruct des as [| z l'']; cbn [List.length Nat.ltb Nat.leb].
      * exfalso. apply Hrows. now apply rows_partition.
      * destruct (Hd ltac:(discriminate)) as [w ->]. cbn [bind].
        split; [discriminate | intros [H _]; congruence].
    + destruct (Hs ltac:(discriminate)) as [w ->]. cbn [bind].
      split; [discriminate | intros [H _]; congruence].
  - (* empty station, a critical task *)
    destruct (Hc ltac:(discriminate)) as [w ->]. cbn [bind].
    split; [discriminate | intros [H _]; congruence].
  - (* the station holds a task, no critical task *)
    destruct saf as [| y l']; cbn [List.length Nat.ltb Nat.leb].
    + destruct des as [| z l'']; cbn [List.length Nat.ltb Nat.leb].
      * split; [intros _ | reflexivity].
        split; [discriminate | split; reflexivity].
      * destruct (Hd ltac:(discriminate)) as [w ->]. cbn [bind].
        split; [discriminate | intros [_ [_ H]]; discriminate].
    + destruct (Hs ltac:(discriminate)) as [w ->]. cbn [bind].
      split; [discriminate | intros [_ [H _]]; discriminate].
  - (* the station holds a task, a critical task *)
    destruct saf as [| y l']; cbn [List.length Nat.ltb Nat.leb].
    + destruct des as [| z l'']; cbn [List.length Nat.ltb Nat.leb].
      * split; [intros _ | reflexivity].
        split; [discriminate | split; reflexivity].
      * destruct (Hd ltac:(discriminate)) as [w ->]. cbn [bind].
        split; [discriminate | intros [_ [_ H]]; discriminate].
    + destruct (Hs ltac:(discriminate)) as [w ->]. cbn [bind].
      split; [discriminate | intros [_ [H _]]; discriminate].
Qed.

(** X14: a pass of the station loop leaves the loop (the station is
    closed) exactly when no task is available, or the station already
    holds a task and every available task is critical for it.  So an
    empty station always receives a task when one is available. *)
Theorem station_closed (inst : Instance) (cur : string) (st : Station.t)
  (rows : list Row) :
  dict_get (station_list inst) cur = Some st ->
  classify norm_cdf set_order inst cur = Ok rows ->
  station_step norm_cdf set_order inst cur = Ok Break
  <-> rows = []
      \/ (Station.out_line_cost st <> []
          /\ forall x, In x rows -> x1 x = critical).
Proof.
  intros Hst Hc. unfold station_step. rewrite Hc. cbn [bind].
  pose proof (classify_x0 _ _ _ Hc) as Hx0.
  apply (f_equal (@List.length string)) in Hx0.
  rewrite length_map, set_order_length in Hx0. rewrite <- Hx0.
  destruct rows as [| r rows'] eqn:Erows.
  - simpl. split; [now left | reflexivity].
  - rewrite <- Erows in *. assert (Hne : rows <> []) by (subst; discriminate).
    replace (List.length rows =? 0) with false
      by (subst rows; reflexivity).
    pose proof (select_task_None inst cur st rows Hst Hne) as Hnone.
    destruct (select_task_cases inst cur st rows Hst)
      as [[sel [Hs _]] | [Hs _]]; rewrite Hs in *; cbn [bind].
    + unfold assign, dict_item. rewrite Hst. cbn [bind]. split.
      * discriminate.
      * intros [H | H]; [contradiction |]. apply Hnone in H. discriminate.
    + split; [| reflexivity]. intros _. right. now apply Hnone.
Qed.

(** X15: [execute_algorithm] called a second time, on the result of a
    run, assigns nothing and opens no station, but adds the recorded
    costs and the cost of the stations to [total_unit_cost] once more:
    the total is accumulated, not recomputed. *)
Theorem second_run (fuel fuel' : nat) (inst inst1 : Instance) :
  NoDup (keys (task_list inst)) -> station_list inst = [] ->
  execute_algorithm norm_cdf set_order fuel inst = Some (Ok inst1) ->
  exists inst2,
    execute_algorithm norm_cdf set_order (S fuel') inst1 = Some (Ok inst2)
    /\ station_list inst2 = station_list inst1
    /\ task_list inst2 = task_list inst1
    /\ total_unit_cost inst2
       = (fold_left PrimFloat.add (recorded_costs inst1)
            (total_unit_cost inst1)
          + T inst1 * c inst1
            * Py.of_nat (List.length (station_list inst1)))%float.
Proof.
  intros Hnd Hfresh H. apply execute_algorithm_Ok in H.
  destruct H as [k H].
  destruct (run_spec fuel inst inst1 k Hnd Hfresh H)
    as (_ & _ & _ & Hpot & _).
  exists (compute_total_unit_cost inst1).
  unfold execute_algorithm, execute_algorithm_passes.
  cbn [tasks_loop]. rewrite Hpot. cbn [List.length Nat.ltb Nat.leb fbind fst].
  split; [reflexivity |]. split; [reflexivity |]. split; [reflexivity |].
  unfold compute_total_unit_cost, recorded_costs.
  cbn [total_unit_cost with_total_unit_cost]. now rewrite fold_costs.
Qed.

(** ** The entries of the assignment maps *)

Lemma run_entries (fuel : nat) (inst inst' : Instance) :
  NoDup (keys (task_list inst)) -> station_list inst = [] ->
  execute_algorithm norm_cdf set_order fuel inst = Some (Ok inst') ->
  forall sl1 k st sl2 pre t v post,
    station_list inst' = sl1 ++ (k, st) :: sl2 ->
    Station.out_line_cost st = pre ++ (t, v) :: post ->
    exists stat z o n,
      compute_status norm_cdf inst' t (Station.Build k pre)
      = Ok (stat, z, o, v, n)
      /\ (stat = critical -> pre = []).
Proof.
  intros Hnd Hfresh H.
  destruct (run_inv
              (fun i => forall sl1 k st sl2 pre t v post,
                   station_list i = sl1 ++ (k, st) :: sl2 ->
                   Station.out_line_cost st = pre ++ (t, v) :: post ->
                   exists stat z o n,
                     compute_status norm_cdf i t (Station.Build k pre)
                     = Ok (stat, z, o, v, n)
                     /\ (stat = critical -> pre = []))
              fuel inst inst') as (inst1 & HP & Esl & Etl & ET);
    try assumption.
  - intros i n _ _ HP sl1 k st sl2 pre t v post E Hst.
    cbn [station_list with_station_list] in E.
    apply app_snoc_split in E.
    destruct E as [(_ & _ & [= -> ->]) | [sl2' [_ E]]].
    + simpl in Hst. destruct pre; discriminate.
    + apply (HP sl1 k st sl2' pre t v post E Hst).
  - intros i n sl st sel _ _ Hsl _ Hcs Hcrit HP sl1 k s sl2 pre t v post
      E Hs.
    cbn [station_list with_station_list] in E.
    apply app_snoc_split in E.
    destruct E as [(_ & _ & [= -> ->]) | [sl2' [_ E]]].
    + cbn [Station.out_line_cost] in Hs.
      apply app_snoc_split in Hs.
      destruct Hs as [(_ & -> & [= -> ->]) | [post' [_ Hs]]].
      * exists (x1 sel), (x2 sel), (x3 sel), (x5 sel). split; [| exact Hcrit].
        rewrite <- Hcs. reflexivity.
      * apply (HP sl (Py.str (S n)) st [] pre t v post'); assumption.
    + apply (HP sl1 k s (sl2' ++ [(Py.str (S n), st)]) pre t v post);
        [| assumption].
      rewrite Hsl, E, <- app_assoc. reflexivity.
  - rewrite Hfresh. intros [| ? ?]; discriminate.
  - intros sl1 k st sl2 pre t v post E Hst. rewrite Esl in E.
    destruct (HP sl1 k st sl2 pre t v post E Hst)
      as (stat & z & o & n & Hcs & Hc).
    exists stat, z, o, n. split; [| assumption].
    rewrite <- Hcs. unfold compute_status. now rewrite Etl, ET.
Qed.



(** X16: after a run, every entry [t : v] of a station's assignment map
    is what [compute_status] returned for [t] against the entries that
    precede it in the map: [v] is the expected out-of-line cost
    [(1 - cdf z) * out_completion_cost], and [t] was critical only when it
    is the first task of its station. *)
Theorem recorded_entries (fuel : nat) (inst inst' : Instance) :
  NoDup (keys (task_list inst)) -> station_list inst = [] ->
  execute_algorithm norm_cdf set_order fuel inst = Some (Ok inst') ->
  forall k st pre t v post,
    In (k, st) (station_list inst') ->
    Station.out_line_cost st = pre ++ (t, v) :: post ->
    exists stat z task occ n,
      compute_status norm_cdf inst' t (Station.Build k pre)
      = Ok (stat, z, occ, v, n)
      /\ dict_get (task_list inst) t = Some task
      /\ Task.out_completion_cost task = Some occ
      /\ v = ((1 - norm_cdf z) * occ)%float
      /\ (stat = critical -> pre = []).
Proof.
  intros Hnd Hfresh H k st pre t v post Hin Hst.
  apply in_split in Hin. destruct Hin as (sl1 & sl2 & E).
  destruct (run_entries fuel inst inst' Hnd Hfresh H
              sl1 k st sl2 pre t v post E Hst)
    as (stat & z & o & n & Hcs & Hc).
  destruct (compute_status_Ok _ _ _ _ _ _ _ _ Hcs)
    as (task & Ht & Ho & _ & He).
  exists stat, z, task, o, n. repeat split; try assumption.
  apply execute_algorithm_Ok in H. destruct H as [p H].
  destruct (run_spec fuel inst inst' p Hnd Hfresh H)
    as (_ & _ & Htl & _ & _).
  now rewrite <- Htl.
Qed.

End Engine.

(** * The examples *)

Lemma insertion_order_perm (l : list string) :
  Permutation (insertion_order l) l.
Proof. apply Permutation_refl. Defined.

Lemma two_safe_built :
  init ppf_table insertion_order 5 "two-safe" two_safe_tasks 0x1p-7 0x1p-6
  = Some (Ok two_safe_instance).
Proof. vm_compute. reflexivity. Qed.

Lemma two_desirable_built :
  init ppf_table insertion_order 5 "two-desirable" two_desirable_tasks
    0.125 0.25
  = Some (Ok two_desirable_instance).
Proof. vm_compute. reflexivity. Qed.

Lemma chain_built (s : float) :
  s = 0%float \/ s = 0.5%float ->
  init ppf_table insertion_order 7 "chain" (chain_tasks s) 1 1
  = Some (Ok (chain_instance s)).
Proof. intros [-> | ->]; vm_compute; reflexivity. Qed.

Lemma single_built :
  init ppf_table insertion_order 3 "single" (single_task 5) 1 1
  = Some (Ok single_instance).
Proof. vm_compute. reflexivity. Qed.

(** C1 as stated fails: with tasks A and B both safe for the empty station
    "1", B has the higher expected out-of-line cost [x4] (A's is 0), and A,
    which has the higher out-completion cost [x3], is selected and
    assigned. *)
Lemma select_safe_counterexample :
  exists a b,
    classify cdf_table insertion_order two_safe_open "1" = Ok [a; b]
    /\ (x0 a, x1 a, x3 a) = ("A"%string, safe, 10%float)
    /\ (x0 b, x1 b, x3 b) = ("B"%string, safe, 5%float)
    /\ (x4 a <? x4 b)%float = true
    /\ select_task two_safe_open "1" [a; b] = Ok (Some a)
    /\ station_step cdf_table insertion_order two_safe_open "1"
       = (inst' <- assign two_safe_open "1" a ;; Ok (Continue inst')).
Proof.
  eexists. eexists. split; [vm_compute; reflexivity |].
  repeat split; vm_compute; reflexivity.
Qed.

(** C2 as stated fails: with tasks A and B both desirable for the empty
    station "1" and no safe task, B has the lower expected out-of-line cost
    [x4], and A, which has the lower out-completion cost [x3], is selected
    and assigned. *)
Lemma select_desirable_counterexample :
  exists a b,
    classify cdf_table insertion_order two_desirable_open "1" = Ok [a; b]
    /\ (x0 a, x1 a, x3 a) = ("A"%string, desirable, 4%float)
    /\ (x0 b, x1 b, x3 b) = ("B"%string, desirable, 8%float)
    /\ (x4 b <? x4 a)%float = true
    /\ select_task two_desirable_open "1" [a; b] = Ok (Some a)
    /\ station_step cdf_table insertion_order two_desirable_open "1"
       = (inst' <- assign two_desirable_open "1" a ;; Ok (Continue inst')).
Proof.
  eexists. eexists. split; [vm_compute; reflexivity |].
  repeat split; vm_compute; reflexivity.
Qed.

(** C7 as stated fails: on the chain with zero variances the constructor
    returns an instance, and [execute_algorithm] raises on it instead of
    producing three stations. *)
Lemma chain_counterexample :
  init ppf_table insertion_order 7 "chain" (chain_tasks 0) 1 1
  = Some (Ok (chain_instance 0))
  /\ execute_algorithm cdf_table insertion_order 10 (chain_instance 0)
     = Some (Raise ZeroDivisionError).
Proof. split; vm_compute; reflexivity. Qed.

(** C8 as stated fails for one task: the body of the station loop is
    entered twice (once to assign the task, once to find that no task is
    left), and 2 > 1 * 1. *)
Lemma passes_counterexample :
  List.length (task_list single_instance) = 1
  /\ acyclic single_instance /\ predecessors_present single_instance
  /\ execute_algorithm_passes cdf_table insertion_order 3 single_instance
     = Some (Ok (single_result, 2))
  /\ ~ 2 <= 1 * 1.
Proof.
  assert (Hraw : same_raw (single_task 5) (task_list single_instance))
    by apply (init_Ok ppf_table insertion_order 3
                "single"%string (single_task 5) 1%float 1%float
                single_instance single_built).
  split; [vm_compute; reflexivity |]. split.
  { apply (acyclic_raw (blank "single" (single_task 5) 1 1));
      [exact Hraw |].
    exists (fun _ => 0). intros k t p Hin Hp. simpl in Hin.
    destruct Hin as [[= <- <-] | []]. destruct Hp. }
  split.
  { apply (predecessors_present_raw (blank "single" (single_task 5) 1 1));
      [exact Hraw |].
    intros k t p Hin Hp. simpl in Hin.
    destruct Hin as [[= <- <-] | []]. destruct Hp. }
  split; [vm_compute; reflexivity | lia].
Qed.

(** ** The general statements at the examples *)

Lemma chain_raw (s : float) :
  s = 0%float \/ s = 0.5%float ->
  same_raw (chain_tasks s) (task_list (chain_instance s)).
Proof.
  intros Hs.
  apply (init_Ok ppf_table insertion_order 7 "chain" (chain_tasks s) 1 1
           (chain_instance s) (chain_built s Hs)).
Qed.

Lemma chain_NoDup : NoDup (keys (task_list (chain_instance 0.5))).
Proof.
  rewrite <- (same_raw_keys _ _ (chain_raw 0.5 (or_intror eq_refl))).
  repeat constructor; simpl; intuition discriminate.
Qed.

Lemma chain_acyclic : acyclic (chain_instance 0.5).
Proof.
  apply (acyclic_raw (blank "chain" (chain_tasks 0.5) 1 1));
    [apply chain_raw; now right |].
  exists chain_rank. intros k t p Hin Hp. simpl in Hin.
  destruct Hin as [[= <- <-] | [[= <- <-] | [[= <- <-] | []]]];
    simpl in Hp; try destruct Hp as [<- | []]; try destruct Hp;
    unfold chain_rank; simpl; lia.
Qed.

Lemma chain_present : predecessors_present (chain_instance 0.5).
Proof.
  apply (predecessors_present_raw (blank "chain" (chain_tasks 0.5) 1 1));
    [apply chain_raw; now right |].
  intros k t p Hin Hp. simpl in Hin.
  destruct Hin as [[= <- <-] | [[= <- <-] | [[= <- <-] | []]]];
    simpl in Hp; try destruct Hp as [<- | []]; try destruct Hp;
    simpl; auto.
Qed.

Lemma chain_fresh : station_list (chain_instance 0.5) = [].
Proof. vm_compute. reflexivity. Qed.

Lemma chain_run :
  execute_algorithm cdf_table insertion_order 5 (chain_instance 0.5)
  = Some (Ok chain_result).
Proof. vm_compute. reflexivity. Qed.

Lemma coverage_witness :
  (forall t,
      In t (keys (task_list (chain_instance 0.5))) ->
      exists sl1 k st sl2,
        station_list chain_result = sl1 ++ (k, st) :: sl2
        /\ In t (keys (Station.out_line_cost st))
        /\ ~ In t (tasks_of (sl1 ++ sl2)))
  /\ (forall t,
         In t (station_tasks chain_result)
         <-> In t (keys (task_list (chain_instance 0.5)))).
Proof.
  apply (coverage cdf_table insertion_order insertion_order_perm 5
           (chain_instance 0.5) chain_result).
  - exact chain_NoDup.
  - exact chain_fresh.
  - exact chain_acyclic.
  - exact chain_present.
  - exact chain_run.
Defined.

Lemma precedence_respect_witness :
  (forall kt st t x p,
      In (kt, st) (station_list chain_result) ->
      In t (keys (Station.out_line_cost st)) ->
      dict_get (task_list chain_result) t = Some x ->
      In p (Task.predecessor_set x) ->
      (exists kp sp,
          In (kp, sp) (station_list chain_result)
          /\ In p (keys (Station.out_line_cost sp)))
      /\ (forall kp sp,
             In (kp, sp) (station_list chain_result) ->
             In p (keys (Station.out_line_cost sp)) ->
             exists i j,
               Py.int kt = Some i /\ Py.int kp = Some j /\ j <= i))
  /\ (forall i i1 cur,
         station_step cdf_table insertion_order i cur = Ok (Continue i1) ->
         forall k, k <> cur ->
                   dict_get (station_list i1) k = dict_get (station_list i) k).
Proof.
  apply (precedence_respect cdf_table insertion_order insertion_order_perm
           5 (chain_instance 0.5) chain_result).
  - exact chain_NoDup.
  - exact chain_fresh.
  - exact chain_run.
Defined.

Lemma compute_status_spec_witness :
  exists stat z e,
    compute_status cdf_table two_desirable_instance "B" station_with_A
    = Ok (stat, z, 8%float, e, 0)
    /\ (stat = critical <->
        ~ (0x1.499999999999ap+1 <? z)%float = true
        /\ ~ ((z <=? 0x1.499999999999ap+1)%float = true
              /\ (0 <? z)%float = true)).
Proof.
  destruct (compute_status_spec cdf_table two_desirable_instance "B"
              station_with_A
              (Task.Build "B" 6 1 [] 8 (Some 8%float) (Some 1.5%float)
                 (Some 0%float) (Some 0))
              [Task.Build "A" 7 1 [] 4 (Some 4%float) (Some 1.75%float)
                 (Some 0%float) (Some 0)]
              8%float 0%float 0)
    as (stat & H & _ & _ & Hc).
  - vm_compute. reflexivity.
  - constructor; [vm_compute; reflexivity | constructor].
  - reflexivity.
  - reflexivity.
  - reflexivity.
  - vm_compute. reflexivity.
  - eexists. eexists. eexists. split; [exact H | exact Hc].
Defined.


Lemma chain_zero_variance_witness :
  potential_tasks insertion_order (chain_instance 0) = ["A"%string]
  /\ compute_status cdf_table (open_station (chain_instance 0) "1") "A"
       (Station.init "1") = Raise ZeroDivisionError
  /\ station_step cdf_table insertion_order
       (open_station (chain_instance 0) "1") "1" = Raise ZeroDivisionError
  /\ execute_algorithm cdf_table insertion_order 2 (chain_instance 0)
     = Some (Raise ZeroDivisionError).
Proof.
  apply (chain_zero_variance cdf_table ppf_table insertion_order
           insertion_order_perm 7 2 (chain_instance 0)).
  - apply chain_built. now left.
  - apply le_n.
Defined.

Lemma single_raw : same_raw (single_task 5) (task_list single_instance).
Proof.
  apply (init_Ok ppf_table insertion_order 3 "single"%string
           (single_task 5) 1%float 1%float single_instance single_built).
Qed.

Lemma single_NoDup : NoDup (keys (task_list single_instance)).
Proof.
  rewrite <- (same_raw_keys _ _ single_raw).
  repeat constructor; simpl; intuition.
Qed.

Lemma single_fresh : station_list single_instance = [].
Proof. vm_compute. reflexivity. Qed.

Lemma single_acyclic : acyclic single_instance.
Proof.
  apply (acyclic_raw (blank "single" (single_task 5) 1 1));
    [exact single_raw |].
  exists (fun _ => 0). intros k t p Hin Hp. simpl in Hin.
  destruct Hin as [[= <- <-] | []]. destruct Hp.
Qed.

Lemma single_present : predecessors_present single_instance.
Proof.
  apply (predecessors_present_raw (blank "single" (single_task 5) 1 1));
    [exact single_raw |].
  intros k t p Hin Hp. simpl in Hin.
  destruct Hin as [[= <- <-] | []]. destruct Hp.
Qed.

Lemma single_length : List.length (task_list single_instance) = 1.
Proof. vm_compute. reflexivity. Qed.

Lemma single_passes :
  execute_algorithm_passes cdf_table insertion_order 3 single_instance
  = Some (Ok (single_result, 2)).
Proof. vm_compute. reflexivity. Qed.

Lemma chain_passes :
  execute_algorithm_passes cdf_table insertion_order 5 (chain_instance 0.5)
  = Some (Ok (chain_result, 6)).
Proof. vm_compute. reflexivity. Qed.

(** The chain of three tasks takes 6 passes (three tasks, three stations),
    which is [2 * 3] and less than [3 * 3]; the single task takes 2. *)
Lemma passes_bound_witness :
  (execute_algorithm_passes cdf_table insertion_order 5 (chain_instance 0.5)
   = Some (Ok (chain_result, 6))
   /\ 6 = List.length (station_tasks chain_result)
          + List.length (station_list chain_result)
   /\ 6 <= 2 * List.length (task_list (chain_instance 0.5))
   /\ (2 <= List.length (task_list (chain_instance 0.5)) ->
       6 <= List.length (task_list (chain_instance 0.5))
            * List.length (task_list (chain_instance 0.5)))
   /\ List.length (task_list (chain_instance 0.5)) < 6)
  /\ (execute_algorithm_passes cdf_table insertion_order 3 single_instance
      = Some (Ok (single_result, 2))
      /\ List.length (task_list single_instance) = 1
      /\ 2 = List.length (station_tasks single_result)
             + List.length (station_list single_result)
      /\ List.length (task_list single_instance) < 2).
Proof.
  split.
  - destruct (passes_bound cdf_table insertion_order insertion_order_perm
                5 (chain_instance 0.5)) as [r [Hr H]].
    + exact chain_NoDup.
    + exact chain_fresh.
    + vm_compute. repeat constructor.
    + rewrite chain_passes in Hr. injection Hr as <-.
      destruct (H chain_result 6 eq_refl) as (H1 & H2 & H3 & H4).
      split; [exact chain_passes |]. split; [exact H1 |].
      split; [exact H2 |]. split; [exact H3 |].
      apply (H4 chain_acyclic chain_present).
      vm_compute. repeat constructor.
  - destruct (passes_bound cdf_table insertion_order insertion_order_perm
                3 single_instance) as [r [Hr H]].
    + exact single_NoDup.
    + exact single_fresh.
    + vm_compute. repeat constructor.
    + rewrite single_passes in Hr. injection Hr as <-.
      destruct (H single_result 2 eq_refl) as (H1 & _ & _ & H4).
      split; [exact single_passes |]. split; [exact single_length |].
      split; [exact H1 |].
      apply (H4 single_acyclic single_present).
      rewrite single_length. apply le_n.
Defined.

Lemma init_zero_out_completion_cost_witness :
  Py.div 1 1 = Ok (1 / 1)%float
  /\ fill_task_properties ppf_table insertion_order 3
       (blank "single" (single_task 0) (1 / 1) 1)
     = Some (Raise ZeroDivisionError)
  /\ init ppf_table insertion_order 3 "single" (single_task 0) 1 1
     = Some (Raise ZeroDivisionError).
Proof.
  apply (init_zero_out_completion_cost ppf_table insertion_order
           insertion_order_perm 3 "single" (single_task 0) 1 1 "A" 0).
  - reflexivity.
  - vm_compute. repeat constructor.
  - now left.
  - vm_compute. reflexivity.
  - reflexivity.
Defined.

Lemma no_empty_station_witness :
  List.length (station_list chain_result) = 3
  /\ stations_nonempty chain_result.
Proof.
  split; [vm_compute; reflexivity |].
  apply (no_empty_station cdf_table insertion_order insertion_order_perm 5
           (chain_instance 0.5) chain_result).
  - exact chain_NoDup.
  - exact chain_fresh.
  - exact chain_run.
Defined.

Lemma two_safe_classified :
  classify cdf_table insertion_order two_safe_open "1" = Ok two_safe_rows.
Proof. vm_compute. reflexivity. Qed.

Lemma two_desirable_classified :
  classify cdf_table insertion_order two_desirable_open "1"
  = Ok two_desirable_rows.
Proof. vm_compute. reflexivity. Qed.

Lemma select_safe_task_witness :
  exists l1 sel l2 task,
    filter (fun x => status_eqb (x1 x) safe) two_safe_rows = l1 ++ sel :: l2
    /\ (forall y, In y l1 -> (x3 y <? x3 sel)%float = true)
    /\ (forall y, In y l2 -> (x3 sel <? x3 y)%float = false)
    /\ compute_status cdf_table two_safe_open (x0 sel) (Station.init "1")
       = Ok (safe, x2 sel, x3 sel, x4 sel, x5 sel)
    /\ dict_get (task_list two_safe_open) (x0 sel) = Some task
    /\ Task.out_completion_cost task = Some (x3 sel)
    /\ x4 sel = ((1 - cdf_table (x2 sel)) * x3 sel)%float
    /\ station_step cdf_table insertion_order two_safe_open "1"
       = (inst' <- assign two_safe_open "1" sel ;; Ok (Continue inst')).
Proof.
  apply (select_safe_task cdf_table insertion_order insertion_order_perm
           two_safe_open "1" (Station.init "1") two_safe_rows).
  - vm_compute. reflexivity.
  - exact two_safe_classified.
  - left. vm_compute. reflexivity.
  - vm_compute. discriminate.
  - vm_compute. repeat constructor.
Defined.

Lemma select_desirable_task_witness :
  exists l1 sel l2 task,
    filter (fun x => status_eqb (x1 x) desirable) two_desirable_rows
    = l1 ++ sel :: l2
    /\ (forall y, In y l1 -> (x3 sel <? x3 y)%float = true)
    /\ (forall y, In y l2 -> (x3 y <? x3 sel)%float = false)
    /\ compute_status cdf_table two_desirable_open (x0 sel)
         (Station.init "1")
       = Ok (desirable, x2 sel, x3 sel, x4 sel, x5 sel)
    /\ dict_get (task_list two_desirable_open) (x0 sel) = Some task
    /\ Task.out_completion_cost task = Some (x3 sel)
    /\ x4 sel = ((1 - cdf_table (x2 sel)) * x3 sel)%float
    /\ station_step cdf_table insertion_order two_desirable_open "1"
       = (inst' <- assign two_desirable_open "1" sel ;; Ok (Continue inst')).
Proof.
  apply (select_desirable_task cdf_table insertion_order
           insertion_order_perm two_desirable_open "1" (Station.init "1")
           two_desirable_rows).
  - vm_compute. reflexivity.
  - exact two_desirable_classified.
  - left. vm_compute. reflexivity.
  - vm_compute. reflexivity.
  - vm_compute. discriminate.
  - vm_compute. repeat constructor.
Defined.

(** ** The further properties at the examples *)

Lemma chain_tasks_NoDup : NoDup (keys (chain_tasks 0.5)).
Proof. repeat constructor; simpl; intuition discriminate. Qed.

Lemma chain_key_A : In "A"%string (keys (task_list (chain_instance 0.5))).
Proof.
  rewrite <- (same_raw_keys _ _ (chain_raw 0.5 (or_intror eq_refl))).
  now left.
Qed.

Lemma chain_length : List.length (task_list (chain_instance 0.5)) = 3.
Proof.
  now rewrite (same_raw_length _ _ (chain_raw 0.5 (or_intror eq_refl))).
Qed.

Lemma deep_first_search_reachable_witness :
  exists v,
    deep_first_search insertion_order 7 (chain_instance 0.5) "A" [] = Some v
    /\ NoDup v
    /\ forall x, In x v <-> reachable (chain_instance 0.5) "A" x.
Proof.
  apply (deep_first_search_reachable insertion_order insertion_order_perm
           (chain_instance 0.5) 7 "A").
  - exact chain_key_A.
  - rewrite chain_length. apply le_n.
Defined.

Lemma out_completion_cost_spec_witness :
  exists l ts,
    NoDup l /\ (forall y, In y l <-> reachable (chain_instance 0.5) "A" y)
    /\ Forall2
         (fun y t => dict_get (task_list (chain_instance 0.5)) y = Some t)
         l ts
    /\ task_out_line_completion_cost insertion_order 7
         (chain_instance 0.5) "A"
       = Some (Ok (fold_left PrimFloat.add (map Task.out_line_cost ts)
                     0%float)).
Proof.
  apply (out_completion_cost_spec insertion_order insertion_order_perm
           (chain_instance 0.5) 7 "A").
  - exact chain_key_A.
  - rewrite chain_length. apply le_n.
Defined.

Lemma init_derived_witness :
  (station_list (chain_instance 0.5) = []
   /\ T (chain_instance 0.5) = (1 / 1)%float /\ c (chain_instance 0.5) = 1%float
   /\ total_unit_cost (chain_instance 0.5) = 0%float)
  /\ same_raw (chain_tasks 0.5) (task_list (chain_instance 0.5))
  /\ forall k t,
      In (k, t) (task_list (chain_instance 0.5)) ->
      derived ppf_table insertion_order 7 (chain_instance 0.5) k t.
Proof.
  apply (init_derived ppf_table insertion_order 7 "chain" (chain_tasks 0.5)
           1 1 (chain_instance 0.5)).
  - exact chain_tasks_NoDup.
  - apply chain_built. now right.
Defined.

Lemma fill_task_properties_idempotent_witness :
  fill_task_properties ppf_table insertion_order 7 (chain_instance 0.5)
  = Some (Ok (chain_instance 0.5)).
Proof.
  apply (fill_task_properties_idempotent ppf_table insertion_order 7
           (blank "chain" (chain_tasks 0.5) (1 / 1) 1) (chain_instance 0.5)).
  - exact chain_tasks_NoDup.
  - vm_compute. reflexivity.
Defined.

Lemma init_outcome_witness :
  init ppf_table insertion_order 7 "chain" (chain_tasks 0.5) 1 1
  = Some (Raise ZeroDivisionError)
  \/ exists inst,
      init ppf_table insertion_order 7 "chain" (chain_tasks 0.5) 1 1
      = Some (Ok inst).
Proof.
  apply (init_outcome ppf_table insertion_order insertion_order_perm 7
           "chain" (chain_tasks 0.5) 1 1).
  apply le_n.
Defined.

Lemma potential_tasks_spec_witness :
  NoDup (potential_tasks insertion_order (chain_instance 0.5))
  /\ forall x,
      In x (potential_tasks insertion_order (chain_instance 0.5))
      <-> exists t,
          dict_get (task_list (chain_instance 0.5)) x = Some t
          /\ ~ In x (station_tasks (chain_instance 0.5))
          /\ forall p, In p (Task.predecessor_set t) ->
                       In p (station_tasks (chain_instance 0.5)).
Proof.
  apply (potential_tasks_spec insertion_order insertion_order_perm
           (chain_instance 0.5)).
Defined.

Lemma station_numbering_witness :
  keys (station_list chain_result)
  = map Py.str (seq 1 (List.length (station_list chain_result)))
  /\ (forall k st, In (k, st) (station_list chain_result) ->
                   Station.station_id st = k)
  /\ List.length (station_list chain_result)
     <= List.length (task_list (chain_instance 0.5)).
Proof.
  apply (station_numbering cdf_table insertion_order insertion_order_perm 5
           (chain_instance 0.5) chain_result).
  - exact chain_NoDup.
  - exact chain_fresh.
  - exact chain_run.
Defined.

Lemma chain_task_B_get :
  dict_get (task_list (chain_instance 0.5)) "B" = Some chain_task_B.
Proof. vm_compute. reflexivity. Qed.

Lemma assignment_order_witness :
  station_tasks chain_result = ["A"; "B"; "C"]%string
  /\ In "A"%string ["A"%string] /\ ~ In "A"%string ["B"; "C"]%string.
Proof.
  split; [vm_compute; reflexivity |].
  apply (assignment_order cdf_table insertion_order insertion_order_perm 5
           (chain_instance 0.5) chain_result chain_NoDup chain_fresh
           chain_run ["A"%string] "B" ["C"%string] chain_task_B "A").
  - vm_compute. reflexivity.
  - exact chain_task_B_get.
  - vm_compute. left. reflexivity.
Defined.

Lemma assigned_iff_placeable_witness :
  NoDup (station_tasks chain_result)
  /\ forall t,
      In t (station_tasks chain_result) <-> placeable (chain_instance 0.5) t.
Proof.
  apply (assigned_iff_placeable cdf_table insertion_order
           insertion_order_perm 5 (chain_instance 0.5) chain_result).
  - exact chain_NoDup.
  - exact chain_fresh.
  - exact chain_run.
Defined.

Lemma compute_status_errors_witness :
  (sum_with (map Task.s []) (Task.s negative_task) <? 0)%float = true
  /\ compute_status cdf_table negative_instance "A" (Station.init "1")
     = Raise ValueError.
Proof.
  split; [vm_compute; reflexivity |].
  destruct (compute_status_errors cdf_table negative_instance "A"
              (Station.init "1") negative_task [] 5 0 0)
    as (H & _ & _).
  - vm_compute. reflexivity.
  - constructor.
  - vm_compute. reflexivity.
  - vm_compute. reflexivity.
  - vm_compute. reflexivity.
  - apply H. vm_compute. reflexivity.
Defined.

Lemma run_outcome_witness :
  (exists inst', execute_algorithm cdf_table insertion_order 5
                   (chain_instance 0.5) = Some (Ok inst'))
  \/ execute_algorithm cdf_table insertion_order 5 (chain_instance 0.5)
     = Some (Raise ZeroDivisionError)
  \/ execute_algorithm cdf_table insertion_order 5 (chain_instance 0.5)
     = Some (Raise ValueError).
Proof.
  apply (run_outcome cdf_table ppf_table insertion_order
           insertion_order_perm 7 5 "chain" (chain_tasks 0.5) 1 1
           (chain_instance 0.5)).
  - exact chain_tasks_NoDup.
  - apply chain_built. now right.
  - apply le_n.
Defined.

Lemma chain_assigned_classified :
  classify cdf_table insertion_order chain_assigned "1"
  = Ok chain_assigned_rows.
Proof. vm_compute. reflexivity. Qed.

Lemma fork_classified :
  classify cdf_table insertion_order fork_open "1" = Ok fork_rows.
Proof. vm_compute. reflexivity. Qed.

Lemma fork_statuses :
  map (fun x => (x0 x, x1 x, x5 x)) fork_rows
  = [("A"%string, critical, 0); ("B"%string, critical, 2);
     ("E"%string, critical, 0); ("S"%string, safe, 0)].
Proof. vm_compute. reflexivity. Qed.

Lemma fork_critical :
  map (fun x => (x0 x, x5 x))
    (filter (fun x => status_eqb (x1 x) critical) fork_rows)
  = [("A"%string, 0); ("B"%string, 2); ("E"%string, 0)].
Proof. vm_compute. reflexivity. Qed.

(** With A, B and E critical for the empty station and S safe, B, which
    has the most direct successors, is selected: A comes before it in
    iteration order, E after it, and the safe task S is passed over. *)
Lemma select_critical_task_witness :
  map (fun x => (x0 x, x1 x, x5 x)) fork_rows
  = [("A"%string, critical, 0); ("B"%string, critical, 2);
     ("E"%string, critical, 0); ("S"%string, safe, 0)]
  /\ exists l1 sel l2 task,
      filter (fun x => status_eqb (x1 x) critical) fork_rows
      = l1 ++ sel :: l2
      /\ (map x0 l1, x0 sel, map x0 l2)
         = (["A"%string], "B"%string, ["E"%string])
      /\ (forall y, In y l1 -> x5 y < x5 sel)
      /\ (forall y, In y l2 -> x5 y <= x5 sel)
      /\ compute_status cdf_table fork_open (x0 sel) (Station.init "1")
         = Ok (critical, x2 sel, x3 sel, x4 sel, x5 sel)
      /\ dict_get (task_list fork_open) (x0 sel) = Some task
      /\ Task.n_successors task = Some (x5 sel)
      /\ station_step cdf_table insertion_order fork_open "1"
         = (inst' <- assign fork_open "1" sel ;; Ok (Continue inst')).
Proof.
  split; [exact fork_statuses |].
  destruct (select_critical_task cdf_table insertion_order
              insertion_order_perm fork_open "1" (Station.init "1")
              fork_rows)
    as (l1 & sel & l2 & task & El & H1 & H2 & Hrest).
  - vm_compute. reflexivity.
  - exact fork_classified.
  - intros E. pose proof fork_critical as Hc. rewrite E in Hc.
    discriminate Hc.
  - reflexivity.
  - exists l1, sel, l2, task. split; [exact El |].
    split; [| split; [exact H1 | split; [exact H2 | exact Hrest]]].
    pose proof fork_critical as Hc. rewrite El in Hc.
    rewrite map_app in Hc. cbn [map] in Hc.
    destruct l1 as [| a [| b l1]]; cbn [map app] in Hc.
    + (* the first critical row is not chosen: B has more successors *)
      destruct l2 as [| b l2]; [discriminate Hc |].
      cbn [map] in Hc. injection Hc as _ Ha _ Hb _.
      pose proof (H2 b (or_introl eq_refl)) as Hle.
      rewrite Ha, Hb in Hle. inversion Hle.
    + injection Hc as Ha _ Hs _ Hl2.
      destruct l2 as [| e [| e' l2]]; try discriminate Hl2.
      cbn [map] in Hl2 |- *. injection Hl2 as He _.
      now rewrite Ha, Hs, He.
    + (* nor is the last one *)
      injection Hc as _ _ _ Hb Hl.
      destruct l1 as [| x l1]; cbn [map app] in Hl.
      * injection Hl as _ He _.
        pose proof (H1 b (or_intror (or_introl eq_refl))) as Hlt.
        rewrite Hb, He in Hlt. inversion Hlt.
      * injection Hl as _ _ Hl. destruct l1; discriminate Hl.
Defined.

Lemma station_closed_witness :
  station_step cdf_table insertion_order chain_assigned "1" = Ok Break
  <-> chain_assigned_rows = []
      \/ (Station.out_line_cost chain_station <> []
          /\ forall x, In x chain_assigned_rows -> x1 x = critical).
Proof.
  apply (station_closed cdf_table insertion_order insertion_order_perm
           chain_assigned "1" chain_station chain_assigned_rows).
  - vm_compute. reflexivity.
  - exact chain_assigned_classified.
Defined.

Lemma second_run_witness :
  exists inst2,
    execute_algorithm cdf_table insertion_order 1 chain_result
    = Some (Ok inst2)
    /\ station_list inst2 = station_list chain_result
    /\ task_list inst2 = task_list chain_result
    /\ total_unit_cost inst2
       = (fold_left PrimFloat.add (recorded_costs chain_result)
            (total_unit_cost chain_result)
          + T chain_result * c chain_result
            * Py.of_nat (List.length (station_list chain_result)))%float.
Proof.
  apply (second_run cdf_table insertion_order insertion_order_perm 5 0
           (chain_instance 0.5) chain_result).
  - exact chain_NoDup.
  - exact chain_fresh.
  - exact chain_run.
Defined.

Lemma recorded_entries_witness :
  exists stat z task occ n,
    compute_status cdf_table chain_result "A" (Station.Build "1" [])
    = Ok (stat, z, occ, 7.5%float, n)
    /\ dict_get (task_list (chain_instance 0.5)) "A" = Some task
    /\ Task.out_completion_cost task = Some occ
    /\ 7.5%float = ((1 - cdf_table z) * occ)%float
    /\ (stat = critical -> @nil (string * float) = []).
Proof.
  apply (recorded_entries cdf_table insertion_order insertion_order_perm 5
           (chain_instance 0.5) chain_result chain_NoDup chain_fresh
           chain_run "1" (Station.Build "1" [("A"%string, 7.5%float)])
           [] "A" 7.5%float []).
  - vm_compute. left. reflexivity.
  - reflexivity.
Defined.
